(** * linkup-go: the retrying request executor of the Linkup client

    A shallow embedding of [linkup/types.go] (package [linkup]): the client
    configuration ([NewClient] and its functional options), the back-off
    policy ([backoff], [randFloat]), the three API calls ([Search],
    [Fetch], [GetBalance]), [SearchStructured] and the text of an
    [APIError]; and of the pure parts of the command line ([splitCSV] and
    the options the commands pass to [NewClient]).

    Go's [int] and [time.Duration] are 64-bit signed integers, modelled as
    [Z] with the wrap-around written out ([Int64.wrap]); [float64] is IEEE
    754 binary64, modelled with the Standard Library's [SpecFloat] at
    precision 53; byte slices are [list byte] and Go strings are [string].
    The effects of a call (transport invocations, sleeps, body reads, the
    process-wide [lcg] counter) are threaded through an explicit [World]. *)

From Stdlib Require Import ZArith List String Ascii Bool Lia.
From Stdlib Require Import Floats.SpecFloat.
From Stdlib Require Import Strings.Byte.
From Stdlib Require DecimalString DecimalZ.
Import ListNotations.

Local Open Scope Z_scope.

(** ** Machine integers *)

Module Int64.

Definition modulus : Z := 2 ^ 64.
Definition half : Z := 2 ^ 63.
Definition min_int : Z := - half.
Definition max_int : Z := half - 1.

(** Two's-complement reduction of a mathematical integer to [int64]. *)
Definition wrap (z : Z) : Z := (z + half) mod modulus - half.

Definition in_range (z : Z) : Prop := min_int <= z <= max_int.

Definition add (a b : Z) : Z := wrap (a + b).
Definition mul (a b : Z) : Z := wrap (a * b).

(** [x << n] for a signed count [n]: Go panics when [n] is negative
    ([None]); bits shifted past position 63 are lost. *)
Definition shl (x n : Z) : option Z :=
  if n <? 0 then None else Some (wrap (Z.shiftl x n)).

End Int64.

Module Uint64.

Definition wrap (z : Z) : Z := z mod Int64.modulus.

End Uint64.

(** ** [time.Duration]: a count of nanoseconds in an [int64] *)

Definition Duration := Z.
Definition Millisecond : Duration := 1000000.
Definition Second : Duration := 1000000000.

(** ** Errors *)

(** [APIError]: the error payload of the API ([Details] is the raw JSON of
    the member). *)
Record APIError := mkAPIError {
  Status : Z;
  Message : string;
  Details : list Byte.byte
}.

(** The error values the package can return.  [ErrNew] is [errors.New];
    [ErrHTTP n] is [fmt.Errorf("linkup: http %d", n)]; [ErrAPI] is a
    [*APIError]; the remaining constructors carry errors produced outside
    the package (transport, body reader, encoding/json, net/http request
    construction), identified by their text. *)
Inductive error :=
| ErrNew (msg : string)
| ErrHTTP (code : Z)
| ErrAPI (e : APIError)
| ErrTransport (msg : string)
| ErrRead (msg : string)
| ErrJSON (msg : string)
| ErrRequest (msg : string).

Definition ErrUnauthorized : error := ErrNew "linkup: unauthorized (check API key)".
Definition ErrForbidden : error := ErrNew "linkup: forbidden".

Definition ErrEmptyKey : error := ErrNew "linkup: API key is empty".
Definition ErrEmptyFetchURL : error := ErrNew "linkup: fetch url is empty".

(** ** The HTTP collaborator *)

(** A response body is a reader: it yields [body_data] and then either
    end-of-file or the error [body_err]. *)
Record BodyReader := mkBody {
  body_data : list Byte.byte;
  body_err : option error
}.

(** [io.ReadAll r]. *)
Definition ReadAll (r : BodyReader) : list Byte.byte * option error :=
  (body_data r, body_err r).

(** [io.LimitReader r n]: passes at most [n] bytes on and then reports
    end-of-file without consulting [r] again. *)
Definition LimitReader (r : BodyReader) (n : Z) : BodyReader :=
  let k := Z.to_nat n in
  mkBody (firstn k (body_data r))
         (if (List.length (body_data r) <? k)%nat then body_err r else None).

Record Response := mkResponse {
  StatusCode : Z;
  Header : list (string * string);
  Body : BodyReader
}.

(** [Header.Get]: the first value stored under the key, or the empty
    string. *)
Fixpoint Header_Get (h : list (string * string)) (key : string) : string :=
  match h with
  | [] => EmptyString
  | (k, v) :: h' => if String.eqb k key then v else Header_Get h' key
  end.

Record Request := mkRequest {
  Method : string;
  URL : string;
  ReqHeader : list (string * string);
  ReqBody : list Byte.byte
}.

(** [Header.Set]: the value replaces what the key held. *)
Definition Header_Set (r : Request) (k v : string) : Request :=
  mkRequest (Method r) (URL r)
            (filter (fun kv => negb (String.eqb (fst kv) k)) (ReqHeader r)
               ++ [(k, v)])%list
            (ReqBody r).

(** What one call of [http.Client.Do] yields. *)
Inductive RoundTrip :=
| TransportErr (msg : string)
| Responded (res : Response).

(** A transport is the script of what the network answers to the calls of
    one run, in order: [tr n] answers call number [n] (from 0). *)
Definition Transport := nat -> RoundTrip.

Record HTTPClient := mkHTTPClient {
  Timeout : Duration;
  roundTrip : Transport
}.

(** ** The client and its construction *)

Definition defaultBaseURL : string := "https://api.linkup.so/v1".
Definition defaultUA : string := "linkup-go/0.1 (+github.com/raezil/linkup-go)".

Record Client := mkClient {
  apiKey : string;
  baseURL : string;
  ua : string;
  http : HTTPClient;
  maxRetries : Z;
  minBackoff : Duration;
  maxBackoff : Duration
}.

(** [Option] is a function that updates the client through a pointer: here
    a client transformer. *)
Definition Option := Client -> Client.

(** [strings.TrimRight(s, "/")]. *)
Fixpoint TrimRight_slash (s : string) : string :=
  match s with
  | EmptyString => EmptyString
  | String ch s' =>
      match TrimRight_slash s' with
      | EmptyString => if Ascii.eqb ch "/" then EmptyString else String ch EmptyString
      | t => String ch t
      end
  end.

Definition WithBaseURL (u : string) : Option :=
  fun c => mkClient (apiKey c) (TrimRight_slash u) (ua c) (http c)
                    (maxRetries c) (minBackoff c) (maxBackoff c).

Definition WithHTTPClient (h : HTTPClient) : Option :=
  fun c => mkClient (apiKey c) (baseURL c) (ua c) h
                    (maxRetries c) (minBackoff c) (maxBackoff c).

Definition WithUserAgent (u : string) : Option :=
  fun c => mkClient (apiKey c) (baseURL c) u (http c)
                    (maxRetries c) (minBackoff c) (maxBackoff c).

(** [WithRetry]: three independent guarded assignments, in this order. *)
Definition WithRetry (maxRetries' : Z) (minBackoff' maxBackoff' : Duration) : Option :=
  fun c =>
    let c1 := if maxRetries' >=? 0
              then mkClient (apiKey c) (baseURL c) (ua c) (http c)
                            maxRetries' (minBackoff c) (maxBackoff c)
              else c in
    let c2 := if minBackoff' >? 0
              then mkClient (apiKey c1) (baseURL c1) (ua c1) (http c1)
                            (maxRetries c1) minBackoff' (maxBackoff c1)
              else c1 in
    if maxBackoff' >=? minBackoff c2
    then mkClient (apiKey c2) (baseURL c2) (ua c2) (http c2)
                  (maxRetries c2) (minBackoff c2) maxBackoff'
    else c2.

(** [NewClient]: the defaults, then the options from left to right.  [net]
    is the transport behind the default [http.Client]. *)
Definition NewClient (net : Transport) (key : string) (opts : list Option) : Client :=
  fold_left (fun c o => o c) opts
    (mkClient key defaultBaseURL defaultUA
              (mkHTTPClient (30 * Second) net)
              3 (250 * Millisecond) (4 * Second)).

(** The options a caller can build: the fields of [Client] are unexported,
    so the four constructors are the only way to an [Option] that touches
    them. *)
Inductive OptionCall :=
| CallWithBaseURL (u : string)
| CallWithHTTPClient (h : HTTPClient)
| CallWithUserAgent (u : string)
| CallWithRetry (maxRetries' : Z) (minBackoff' maxBackoff' : Duration).

Definition option_of (o : OptionCall) : Option :=
  match o with
  | CallWithBaseURL u => WithBaseURL u
  | CallWithHTTPClient h => WithHTTPClient h
  | CallWithUserAgent u => WithUserAgent u
  | CallWithRetry r mn mx => WithRetry r mn mx
  end.



(** ** [float64] *)

Module Float64.

Definition prec : Z := 53.
Definition emax : Z := 1024.

Definition float64 := spec_float.

(** Conversion of an integer, rounding to nearest even. *)
Definition of_Z (z : Z) : float64 := binary_normalize prec emax z 0 false.

Definition add : float64 -> float64 -> float64 := SFadd prec emax.
Definition mul : float64 -> float64 -> float64 := SFmul prec emax.
Definition div : float64 -> float64 -> float64 := SFdiv prec emax.

(** The literals of [backoff] and [randFloat]: the doubles nearest to
    0.8, 0.4 and 10000. *)
Definition c0_8 : float64 := Eval vm_compute in div (of_Z 4) (of_Z 5).
Definition c0_4 : float64 := Eval vm_compute in div (of_Z 2) (of_Z 5).
Definition c10000 : float64 := Eval vm_compute in of_Z 10000.

(** Conversion to [int64]: the fraction is discarded (truncation toward
    zero).  A value outside [int64], an infinity or a NaN has no portable
    result in Go; the model takes the one of amd64, the least [int64]. *)
Definition to_int64 (f : float64) : Z :=
  match f with
  | S754_zero _ => 0
  | S754_finite s m e =>
      let a := Z.shiftl (Zpos m) e in
      let v := if s then - a else a in
      if (Int64.min_int <=? v) && (v <=? Int64.max_int) then v else Int64.min_int
  | _ => Int64.min_int
  end.

End Float64.

(** ** Requests and responses of the API *)

Definition Depth := string.
Definition DepthStandard : Depth := "standard"%string.
Definition DepthDeep : Depth := "deep"%string.

Definition OutputType := string.
Definition OutputSourcedAnswer : OutputType := "sourcedAnswer"%string.
Definition OutputSearchResults : OutputType := "searchResults"%string.
Definition OutputStructured : OutputType := "structured"%string.

Record SearchRequest := mkSearchRequest {
  Q : string;
  SDepth : Depth;
  SOutputType : OutputType;
  IncludeImages : bool;
  FromDate : string;
  ToDate : string;
  ExcludeDomains : list string;
  IncludeDomains : list string;
  IncludeInlineCitations : bool;
  StructuredOutputSchema : option string;
  IncludeSources : bool
}.

Record SearchResponse := mkSearchResponse { Raw : list byte }.

Definition RawJSON (r : SearchResponse) : list byte := Raw r.

Record FetchRequest := mkFetchRequest {
  FURL : string;
  IncludeRawHTML : bool;
  RenderJS : bool;
  ExtractImages : bool
}.

Record BalanceResponse := mkBalanceResponse { Balance : Float64.float64 }.

(** What a Go function of type [(T, error)] returns. *)
Inductive result (A : Type) :=
| Ok (a : A)
| Err (e : error).
Arguments Ok {A} a.
Arguments Err {A} e.

(** How a modelled call ends: it returns, it panics, or the model ran out
    of the fuel that bounds its loop. *)
Inductive outcome (A : Type) :=
| Return (r : result A)
| Panic
| OutOfFuel.
Arguments Return {A} r.
Arguments Panic {A}.
Arguments OutOfFuel {A}.

(** ** The world of a call *)

(** The observable steps of a call, numbered by the transport call they
    belong to. *)
Inductive Event :=
| EvDo (n : nat) (req : Request)
| EvSleep (d : Duration)
| EvRead (n : nat) (limit : option Z)
| EvClose (n : nat).

(** [lcg] is the package-level counter behind [randFloat]; [calls] counts
    the transport calls made so far; [defers] is the stack of deferred
    [Body.Close] calls of the running function (see [frame]); [trace] lists the events,
    the latest first. *)
Record World := mkWorld {
  lcg : Z;
  calls : nat;
  defers : list nat;
  trace : list Event
}.

Definition M (A : Type) : Type := World -> A * World.

Definition ret {A} (a : A) : M A := fun w => (a, w).

Definition bind {A B} (m : M A) (f : A -> M B) : M B :=
  fun w => let (a, w') := m w in f a w'.

Notation "x <- m ;; k" := (bind m (fun x => k))
  (at level 61, m at next level, right associativity).
Notation "m ;;; k" := (bind m (fun _ => k))
  (at level 61, right associativity).

Definition emit (e : Event) : M unit :=
  fun w => (tt, mkWorld (lcg w) (calls w) (defers w) (e :: trace w)).

(** [time.Sleep d]. *)
Definition Sleep (d : Duration) : M unit := emit (EvSleep d).

(** [c.http.Do(req)]: the next answer of the client's transport. *)
Definition Do (c : Client) (req : Request) : M (nat * RoundTrip) :=
  fun w =>
    let n := calls w in
    ((n, roundTrip (http c) n),
     mkWorld (lcg w) (S n) (defers w) (EvDo n req :: trace w)).

(** [defer res.Body.Close()]. *)
Definition deferClose (n : nat) : M unit :=
  fun w => (tt, mkWorld (lcg w) (calls w) (n :: defers w) (trace w)).

(** A function body with its own stack of deferred calls: they run, the
    latest first, when the body ends; the stack of the caller is left as
    it was. *)
Definition frame {A} (m : M A) : M A :=
  fun w =>
    let (a, w1) := m (mkWorld (lcg w) (calls w) [] (trace w)) in
    (a, mkWorld (lcg w1) (calls w1) (defers w)
                (rev (map EvClose (defers w1)) ++ trace w1)%list).

(** [io.ReadAll] on the body of response [n], wholly or through an
    [io.LimitReader]. *)
Definition readBody (n : nat) (limit : option Z) (b : BodyReader)
  : M (list byte * option error) :=
  emit (EvRead n limit) ;;;
  ret (ReadAll (match limit with Some k => LimitReader b k | None => b end)).

(** ** Back-off *)

(** [randFloat]: a linear congruential step on the [uint64] counter, and
    the residue modulo 10000 scaled into [0, 1). *)
Definition randFloat : M Float64.float64 :=
  fun w =>
    let l := Uint64.wrap (lcg w * 2862933555777941757 + 3037000493) in
    (Float64.div (Float64.of_Z (l mod 10000)) Float64.c10000,
     mkWorld l (calls w) (defers w) (trace w)).

(** The delay before the clamp and the jitter: [min * (1 << attempt)],
    cut to [max] when it exceeds it. *)
Definition backoff_base (attempt : Z) (min max : Duration) : option Duration :=
  match Int64.shl 1 attempt with
  | None => None
  | Some p =>
      let d := Int64.mul min p in
      Some (if d >? max then max else d)
  end.

(** The jitter factor [0.8 + 0.4*r]. *)
Definition jitter (r : Float64.float64) : Float64.float64 :=
  Float64.add Float64.c0_8 (Float64.mul Float64.c0_4 r).

(** [backoff]; [None] is the panic of a negative shift count. *)
Definition backoff (attempt : Z) (min max : Duration) : M (option Duration) :=
  match backoff_base attempt min max with
  | None => ret None
  | Some d =>
      r <- randFloat ;;
      ret (Some (Float64.to_int64 (Float64.mul (Float64.of_Z d) (jitter r))))
  end.

(** ** [strconv.Atoi] *)

Definition digit_of (a : ascii) : option Z :=
  let n := Z.of_nat (nat_of_ascii a) in
  if (48 <=? n) && (n <=? 57) then Some (n - 48) else None.

Fixpoint parse_digits (s : string) (acc : Z) : option Z :=
  match s with
  | EmptyString => Some acc
  | String a s' =>
      match digit_of a with
      | Some d => parse_digits s' (10 * acc + d)
      | None => None
      end
  end.

(** An optional sign and at least one decimal digit, nothing else; a value
    outside [int] is an error. *)
Definition Atoi (s : string) : option Z :=
  match s with
  | EmptyString => None
  | String a s' =>
      let '(neg, ds) :=
        if Ascii.eqb a "+" then (false, s')
        else if Ascii.eqb a "-" then (true, s')
        else (false, s) in
      match ds with
      | EmptyString => None
      | _ =>
          match parse_digits ds 0 with
          | None => None
          | Some v =>
              let v := if neg : bool then - v else v in
              if (Int64.min_int <=? v) && (v <=? Int64.max_int) then Some v else None
          end
      end
  end.

(** ** The platform *)

(** The library code the calls go through and this package does not define:
    encoding/json and the URL check of [http.NewRequestWithContext].  The
    calls are modelled over an arbitrary platform. *)
Record Platform := mkPlatform {
  (** [json.Marshal] of a search and of a fetch request *)
  json_Marshal_Search : SearchRequest -> result (list byte);
  json_Marshal_Fetch : FetchRequest -> result (list byte);
  (** the error, if any, that the URL makes [http.NewRequestWithContext]
      return *)
  url_error : string -> option error;
  (** [json.Unmarshal(b, apiErr)]: the struct after decoding [b] into it
      (the call's error is discarded by every caller) *)
  json_Unmarshal_APIError : list byte -> APIError -> APIError;
  (** [json.NewDecoder(body).Decode(&out)] for a [BalanceResponse] *)
  json_Decode_Balance : BodyReader -> result BalanceResponse
}.

Definition StatusTooManyRequests : Z := 429.
Definition StatusUnauthorized : Z := 401.
Definition StatusForbidden : Z := 403.

Section Calls.

Variable P : Platform.

Definition NewRequestWithContext (method url : string) (body : list byte)
  : result Request :=
  match url_error P url with
  | Some e => Err e
  | None => Ok (mkRequest method url [] body)
  end.

(** The status test that opens the retry branch of [Search]. *)
Definition shouldRetry (code : Z) : bool :=
  (code =? StatusTooManyRequests) || ((code >=? 500) && (code <=? 599)).

(** [time.Sleep(backoff(attempt, c.minBackoff, c.maxBackoff))]; [false]
    when [backoff] panicked. *)
Definition sleepBackoff (c : Client) (attempt : Z) : M bool :=
  d <- backoff attempt (minBackoff c) (maxBackoff c) ;;
  match d with
  | None => ret false
  | Some sleep => Sleep sleep ;;; ret true
  end.

(** The wait before the retry of a 429 or 5xx response. *)
Definition sleepRetryAfter (c : Client) (attempt : Z) (res : Response) : M bool :=
  let ra := Header_Get (Header res) "Retry-After" in
  if negb (String.eqb ra "") then
    match Atoi ra with
    | Some secs =>
        if secs >? 0
        then Sleep (Int64.mul secs Second) ;;; ret true
        else sleepBackoff c attempt
    | None => sleepBackoff c attempt
    end
  else sleepBackoff c attempt.

(** The [switch] that ends the non-2xx branch. *)
Definition statusError (code : Z) (apiErr : APIError) : error :=
  if code =? StatusUnauthorized then ErrUnauthorized
  else if code =? StatusForbidden then ErrForbidden
  else if negb (String.eqb (Message apiErr) "") then ErrAPI apiErr
  else ErrHTTP code.

(** The attempt loop of [Search], [for attempt := 0; ; attempt++]:
    [fuel] bounds the number of iterations the model runs. *)
Fixpoint searchLoop (fuel : nat) (c : Client) (url : string) (body : list byte)
         (attempt : Z) {struct fuel} : M (outcome SearchResponse) :=
  match fuel with
  | O => ret OutOfFuel
  | S fuel' =>
      let retries := maxRetries c in
      match NewRequestWithContext "POST" url body with
      | Err e => ret (Return (Err e))
      | Ok httpReq =>
          let httpReq := Header_Set httpReq "Authorization" ("Bearer " ++ apiKey c) in
          let httpReq := Header_Set httpReq "Content-Type" "application/json" in
          let httpReq := Header_Set httpReq "User-Agent" (ua c) in
          nr <- Do c httpReq ;;
          match snd nr with
          | TransportErr msg =>
              if attempt <? retries then
                ok <- sleepBackoff c attempt ;;
                if ok : bool
                then searchLoop fuel' c url body (Int64.add attempt 1)
                else ret Panic
              else ret (Return (Err (ErrTransport msg)))
          | Responded res =>
              deferClose (fst nr) ;;;
              if (StatusCode res <? 200) || (StatusCode res >=? 300) then
                be <- readBody (fst nr) (Some (2 ^ 20)) (Body res) ;;
                let apiErr :=
                  json_Unmarshal_APIError P (fst be)
                    (mkAPIError (StatusCode res) EmptyString []) in
                if shouldRetry (StatusCode res) && (attempt <? retries) then
                  ok <- sleepRetryAfter c attempt res ;;
                  if ok : bool
                  then searchLoop fuel' c url body (Int64.add attempt 1)
                  else ret Panic
                else ret (Return (Err (statusError (StatusCode res) apiErr)))
              else
                be <- readBody (fst nr) None (Body res) ;;
                match snd be with
                | Some e => ret (Return (Err e))
                | None => ret (Return (Ok (mkSearchResponse (fst be))))
                end
          end
      end
  end.

(** [Client.Search]. *)
Definition Search (fuel : nat) (c : Client) (req : SearchRequest)
  : M (outcome SearchResponse) :=
  if String.eqb (apiKey c) "" then ret (Return (Err ErrEmptyKey))
  else
    match json_Marshal_Search P req with
    | Err e => ret (Return (Err e))
    | Ok body =>
        frame (searchLoop fuel c (baseURL c ++ "/search") body 0)
    end.

(** [Client.Fetch]. *)
Definition Fetch (c : Client) (req : FetchRequest) : M (result SearchResponse) :=
  if String.eqb (apiKey c) "" then ret (Err ErrEmptyKey)
  else if String.eqb (FURL req) "" then ret (Err ErrEmptyFetchURL)
  else
    match json_Marshal_Fetch P req with
    | Err e => ret (Err e)
    | Ok body =>
        match NewRequestWithContext "POST" (baseURL c ++ "/fetch") body with
        | Err e => ret (Err e)
        | Ok httpReq =>
            let httpReq := Header_Set httpReq "Authorization" ("Bearer " ++ apiKey c) in
            let httpReq := Header_Set httpReq "Content-Type" "application/json" in
            let httpReq := Header_Set httpReq "User-Agent" (ua c) in
            frame (
              nr <- Do c httpReq ;;
              match snd nr with
              | TransportErr msg => ret (Err (ErrTransport msg))
              | Responded res =>
                  deferClose (fst nr) ;;;
                  if StatusCode res =? StatusUnauthorized then ret (Err ErrUnauthorized)
                  else if StatusCode res =? StatusForbidden then ret (Err ErrForbidden)
                  else if (StatusCode res <? 200) || (StatusCode res >=? 300) then
                    be <- readBody (fst nr) (Some (2 ^ 20)) (Body res) ;;
                    let apiErr :=
                      json_Unmarshal_APIError P (fst be)
                        (mkAPIError (StatusCode res) EmptyString []) in
                    if negb (String.eqb (Message apiErr) "")
                    then ret (Err (ErrAPI apiErr))
                    else ret (Err (ErrHTTP (StatusCode res)))
                  else
                    be <- readBody (fst nr) None (Body res) ;;
                    match snd be with
                    | Some e => ret (Err e)
                    | None => ret (Ok (mkSearchResponse (fst be)))
                    end
              end)
        end
    end.

(** [Client.GetBalance]. *)
Definition GetBalance (c : Client) : M (result BalanceResponse) :=
  if String.eqb (apiKey c) "" then ret (Err ErrEmptyKey)
  else
    match NewRequestWithContext "GET" (baseURL c ++ "/credits/balance") [] with
    | Err e => ret (Err e)
    | Ok httpReq =>
        let httpReq := Header_Set httpReq "Authorization" ("Bearer " ++ apiKey c) in
        let httpReq := Header_Set httpReq "User-Agent" (ua c) in
        frame (
          nr <- Do c httpReq ;;
          match snd nr with
          | TransportErr msg => ret (Err (ErrTransport msg))
          | Responded res =>
              deferClose (fst nr) ;;;
              if StatusCode res =? StatusUnauthorized then ret (Err ErrUnauthorized)
              else if StatusCode res =? StatusForbidden then ret (Err ErrForbidden)
              else if (StatusCode res <? 200) || (StatusCode res >=? 300) then
                be <- readBody (fst nr) (Some (2 ^ 20)) (Body res) ;;
                let apiErr :=
                  json_Unmarshal_APIError P (fst be)
                    (mkAPIError (StatusCode res) EmptyString []) in
                if negb (String.eqb (Message apiErr) "")
                then ret (Err (ErrAPI apiErr))
                else ret (Err (ErrHTTP (StatusCode res)))
              else
                emit (EvRead (fst nr) None) ;;;
                ret (json_Decode_Balance P (Body res))
          end)
    end.

End Calls.

(** ** A reference platform

    The properties below hold for every [Platform].  To run the calls on
    concrete inputs the file also gives one platform, [refPlatform], whose
    decoder follows encoding/json on the JSON texts it covers: any JSON
    value without surrogate escapes, decoded into an [APIError] with exact
    or ASCII case-insensitive member names.  (encoding/json also repairs
    invalid UTF-8 and folds two non-ASCII letters; neither is modelled.) *)

Module JSON.

#[warnings="-register-all"]
Inductive value :=
| Null
| Bool (b : bool)
| Number (lit : list byte)
| Str (s : list byte)
| Array (l : list value)
| Object (m : list (list byte * (value * list byte))).

Definition is_ws (b : byte) : bool :=
  match b with x20 | x09 | x0a | x0d => true | _ => false end.

Definition is_digit (b : byte) : bool :=
  match b with
  | x30 | x31 | x32 | x33 | x34 | x35 | x36 | x37 | x38 | x39 => true
  | _ => false
  end.

Fixpoint skip_ws (s : list byte) : list byte :=
  match s with
  | b :: s' => if is_ws b then skip_ws s' else s
  | [] => []
  end.

Definition hex_of (b : byte) : option Z :=
  let n := Z.of_N (Byte.to_N b) in
  if (48 <=? n) && (n <=? 57) then Some (n - 48)
  else if (65 <=? n) && (n <=? 70) then Some (n - 55)
  else if (97 <=? n) && (n <=? 102) then Some (n - 87)
  else None.

Definition byte_of_Z (z : Z) : byte :=
  match Byte.of_N (Z.to_N z) with Some b => b | None => x00 end.

(** UTF-8 of a code point of the basic plane. *)
Definition utf8 (cp : Z) : list byte :=
  if cp <? 128 then [byte_of_Z cp]
  else if cp <? 2048 then
    [byte_of_Z (192 + cp / 64); byte_of_Z (128 + cp mod 64)]
  else
    [byte_of_Z (224 + cp / 4096); byte_of_Z (128 + (cp / 64) mod 64);
     byte_of_Z (128 + cp mod 64)].

(** The character a one-letter escape stands for. *)
Definition unescape (e : byte) : option byte :=
  if Byte.eqb e x22 then Some x22
  else if Byte.eqb e x5c then Some x5c
  else if Byte.eqb e x2f then Some x2f
  else if Byte.eqb e x62 then Some x08
  else if Byte.eqb e x66 then Some x0c
  else if Byte.eqb e x6e then Some x0a
  else if Byte.eqb e x72 then Some x0d
  else if Byte.eqb e x74 then Some x09
  else None.

(** The text of a string after its opening quote: the decoded bytes and
    the input after the closing quote. *)
Fixpoint parse_string (s acc : list byte) : option (list byte * list byte) :=
  match s with
  | [] => None
  | b :: r =>
      if Byte.eqb b x22 then Some (rev acc, r)
      else if Byte.eqb b x5c then
        match r with
        | [] => None
        | e :: r1 =>
            if Byte.eqb e x75 then
              match r1 with
              | a :: b1 :: c :: d :: r2 =>
                  match hex_of a, hex_of b1, hex_of c, hex_of d with
                  | Some ha, Some hb, Some hc, Some hd =>
                      let cp := ((ha * 16 + hb) * 16 + hc) * 16 + hd in
                      if (55296 <=? cp) && (cp <=? 57343) then None
                      else parse_string r2 (rev (utf8 cp) ++ acc)
                  | _, _, _, _ => None
                  end
              | _ => None
              end
            else
              match unescape e with
              | Some ch => parse_string r1 (ch :: acc)
              | None => None
              end
        end
      else if (Z.of_N (Byte.to_N b) <? 32) then None
      else parse_string r (b :: acc)
  end.

Fixpoint span_digits (s : list byte) : list byte * list byte :=
  match s with
  | b :: r => if is_digit b then let (ds, t) := span_digits r in (b :: ds, t)
              else ([], s)
  | [] => ([], [])
  end.

(** An optional leading byte out of two. *)
Definition optional (a b : byte) (s : list byte) : list byte * list byte :=
  match s with
  | g :: t => if Byte.eqb g a || Byte.eqb g b then ([g], t) else ([], s)
  | [] => ([], s)
  end.

(** A number: an optional minus sign, an integer part without a leading
    zero, an optional fraction and an optional exponent. *)
Definition parse_number (s : list byte) : option (list byte * list byte) :=
  let (sign, s1) := optional x2d x2d s in
  let (int, s2) := span_digits s1 in
  let leading_zero :=
    match int with
    | z :: _ :: _ => Byte.eqb z x30
    | _ => false
    end in
  if (Nat.eqb (List.length int) 0) || leading_zero then None
  else
    let frac :=
      match optional x2e x2e s2 with
      | (_ :: _, r) =>
          let (fd, t) := span_digits r in
          match fd with [] => None | _ => Some (x2e :: fd, t) end
      | _ => Some ([], s2)
      end in
    match frac with
    | None => None
    | Some (fr, s3) =>
        let exp :=
          match optional x65 x45 s3 with
          | (e :: _, r) =>
              let (sg, r') := optional x2b x2d r in
              let (ed, t) := span_digits r' in
              match ed with [] => None | _ => Some (e :: sg ++ ed, t) end
          | _ => Some ([], s3)
          end in
        match exp with
        | None => None
        | Some (ex, s4) => Some (sign ++ int ++ fr ++ ex, s4)
        end
    end.

Definition strip_prefix (p s : list byte) : option (list byte) :=
  if list_eq_dec Byte.byte_eq_dec (firstn (List.length p) s) p
  then Some (skipn (List.length p) s) else None.

(** The bytes that parsing consumed: [s] without its tail [rest]. *)
Definition consumed (s rest : list byte) : list byte :=
  firstn (List.length s - List.length rest) s.

Fixpoint parse_value (fuel : nat) (s : list byte) {struct fuel}
  : option (value * list byte) :=
  match fuel with
  | O => None
  | S f =>
      match skip_ws s with
      | [] => None
      | x7b :: r =>
          match skip_ws r with
          | x7d :: r' => Some (Object [], r')
          | _ => parse_members f r []
          end
      | x5b :: r =>
          match skip_ws r with
          | x5d :: r' => Some (Array [], r')
          | _ => parse_elems f r []
          end
      | x22 :: r =>
          match parse_string r [] with
          | Some (str, r') => Some (Str str, r')
          | None => None
          end
      | x74 :: r =>
          match strip_prefix [x72; x75; x65] r with
          | Some r' => Some (Bool true, r') | None => None
          end
      | x66 :: r =>
          match strip_prefix [x61; x6c; x73; x65] r with
          | Some r' => Some (Bool false, r') | None => None
          end
      | x6e :: r =>
          match strip_prefix [x75; x6c; x6c] r with
          | Some r' => Some (Null, r') | None => None
          end
      | t =>
          match parse_number t with
          | Some (lit, r') => Some (Number lit, r')
          | None => None
          end
      end
  end
with parse_members (fuel : nat) (s : list byte)
                   (acc : list (list byte * (value * list byte))) {struct fuel}
  : option (value * list byte) :=
  match fuel with
  | O => None
  | S f =>
      match skip_ws s with
      | x22 :: r =>
          match parse_string r [] with
          | Some (k, r1) =>
              match skip_ws r1 with
              | x3a :: r2 =>
                  match parse_value f r2 with
                  | Some (v, r3) =>
                      let raw := consumed (skip_ws r2) r3 in
                      match skip_ws r3 with
                      | x2c :: r4 => parse_members f r4 ((k, (v, raw)) :: acc)
                      | x7d :: r4 => Some (Object (rev ((k, (v, raw)) :: acc)), r4)
                      | _ => None
                      end
                  | None => None
                  end
              | _ => None
              end
          | None => None
          end
      | _ => None
      end
  end
with parse_elems (fuel : nat) (s : list byte) (acc : list value) {struct fuel}
  : option (value * list byte) :=
  match fuel with
  | O => None
  | S f =>
      match parse_value f s with
      | Some (v, r1) =>
          match skip_ws r1 with
          | x2c :: r2 => parse_elems f r2 (v :: acc)
          | x5d :: r2 => Some (Array (rev (v :: acc)), r2)
          | _ => None
          end
      | None => None
      end
  end.

(** A whole document: one value and only white space after it. *)
Definition parse (s : list byte) : option value :=
  match parse_value (S (List.length s)) s with
  | Some (v, r) => match skip_ws r with [] => Some v | _ => None end
  | None => None
  end.

Definition lower (b : byte) : byte :=
  let n := Z.of_N (Byte.to_N b) in
  if (65 <=? n) && (n <=? 90) then byte_of_Z (n + 32) else b.

(** Member names match a field exactly or, failing that, without regard
    to ASCII case; the names of [APIError] are lower case already. *)
Definition names (k : list byte) (field : string) : bool :=
  String.eqb (string_of_list_byte (map lower k)) field.

(** The integer an [int] field takes from a number literal, if any: the
    literal must be a decimal integer within [int]. *)
Definition int_of_literal (lit : list byte) : option Z :=
  Atoi (string_of_list_byte lit).

Definition set_member (e : APIError) (kv : list byte * (value * list byte)) : APIError :=
  let '(k, (v, raw)) := kv in
  if names k "status" then
    match v with
    | Number lit =>
        match int_of_literal lit with
        | Some n => mkAPIError n (Message e) (Details e)
        | None => e
        end
    | _ => e
    end
  else if names k "message" then
    match v with
    | Str s => mkAPIError (Status e) (string_of_list_byte s) (Details e)
    | _ => e
    end
  else if names k "details" then mkAPIError (Status e) (Message e) raw
  else e.

(** [json.Unmarshal(b, e)] for [e : *APIError]: nothing is stored unless
    [b] is one valid JSON text; the members of an object are stored in
    their order; a member of the wrong type is skipped. *)
Definition Unmarshal_APIError (b : list byte) (e : APIError) : APIError :=
  match parse b with
  | Some (Object m) => fold_left set_member m e
  | _ => e
  end.

(** [Decode] into a [BalanceResponse]: the first JSON value of the
    stream.  Number literals with a fraction or an exponent are not
    covered and are reported as errors. *)
Definition set_balance (r : result BalanceResponse)
           (kv : list byte * (value * list byte)) : result BalanceResponse :=
  let '(k, (v, _)) := kv in
  if names k "balance" then
    match v with
    | Number lit =>
        match int_of_literal lit with
        | Some n => match r with
                    | Ok _ => Ok (mkBalanceResponse (Float64.of_Z n))
                    | Err e => Err e
                    end
        | None => Err (ErrJSON "json: number literal not covered")
        end
    | Null => r
    | _ => match r with
           | Ok _ => Err (ErrJSON "json: cannot unmarshal into Go struct field BalanceResponse.balance of type float64")
           | Err e => Err e
           end
    end
  else r.

Definition Decode_Balance (b : BodyReader) : result BalanceResponse :=
  match parse_value (S (List.length (body_data b))) (body_data b) with
  | Some (Object m, _) =>
      fold_left set_balance m (Ok (mkBalanceResponse (S754_zero false)))
  | Some (Null, _) => Ok (mkBalanceResponse (S754_zero false))
  | Some (_, _) => Err (ErrJSON "json: cannot unmarshal into Go value of type linkup.BalanceResponse")
  | None =>
      match body_err b with
      | Some e => Err e
      | None => Err (ErrJSON "json: syntax error or unexpected EOF")
      end
  end.

(** Encoding of a string: quotes, with the escapes encoding/json writes
    for ASCII text. *)
Definition hex_digit (n : Z) : byte :=
  if n <? 10 then byte_of_Z (48 + n) else byte_of_Z (87 + n).

Definition escape (b : byte) : list byte :=
  let n := Z.of_N (Byte.to_N b) in
  match b with
  | x22 => [x5c; x22]
  | x5c => [x5c; x5c]
  | x0a => [x5c; x6e]
  | x0d => [x5c; x72]
  | x09 => [x5c; x74]
  | _ =>
      if (n <? 32) || (n =? 60) || (n =? 62) || (n =? 38)
      then [x5c; x75; x30; x30; hex_digit (n / 16); hex_digit (n mod 16)]
      else [b]
  end.

Definition quote (s : string) : list byte :=
  x22 :: flat_map escape (list_byte_of_string s) ++ [x22].

Definition member (name : string) (v : list byte) : list byte :=
  quote name ++ x3a :: v.

Fixpoint join (l : list (list byte)) : list byte :=
  match l with
  | [] => []
  | [x] => x
  | x :: r => x ++ x2c :: join r
  end.

Definition object (members : list (list byte)) : list byte :=
  x7b :: join members ++ [x7d].

Definition array (l : list string) : list byte :=
  x5b :: join (map quote l) ++ [x5d].

Definition lit_true : list byte := [x74; x72; x75; x65].

Definition omitempty (present : bool) (m : list byte) : list (list byte) :=
  if present then [m] else [].

Definition Marshal_Search (r : SearchRequest) : result (list byte) :=
  Ok (object
        ([member "q" (quote (Q r));
          member "depth" (quote (SDepth r));
          member "outputType" (quote (SOutputType r))]
         ++ omitempty (IncludeImages r) (member "includeImages" lit_true)
         ++ omitempty (negb (String.eqb (FromDate r) "")) (member "fromDate" (quote (FromDate r)))
         ++ omitempty (negb (String.eqb (ToDate r) "")) (member "toDate" (quote (ToDate r)))
         ++ omitempty (negb (Nat.eqb (List.length (ExcludeDomains r)) 0))
                      (member "excludeDomains" (array (ExcludeDomains r)))
         ++ omitempty (negb (Nat.eqb (List.length (IncludeDomains r)) 0))
                      (member "includeDomains" (array (IncludeDomains r)))
         ++ omitempty (IncludeInlineCitations r) (member "includeInlineCitations" lit_true)
         ++ match StructuredOutputSchema r with
            | Some sc => [member "structuredOutputSchema" (quote sc)]
            | None => []
            end
         ++ omitempty (IncludeSources r) (member "includeSources" lit_true))).

Definition Marshal_Fetch (r : FetchRequest) : result (list byte) :=
  Ok (object
        ([member "url" (quote (FURL r))]
         ++ omitempty (IncludeRawHTML r) (member "includeRawHtml" lit_true)
         ++ omitempty (RenderJS r) (member "renderJs" lit_true)
         ++ omitempty (ExtractImages r) (member "extractImages" lit_true))).

End JSON.

(** The reference platform accepts every URL. *)
Definition refPlatform : Platform :=
  mkPlatform JSON.Marshal_Search JSON.Marshal_Fetch (fun _ => None)
             JSON.Unmarshal_APIError JSON.Decode_Balance.

(** ** Observations on a trace *)

Definition is_Do (e : Event) : bool :=
  match e with EvDo _ _ => true | _ => false end.

Definition is_Sleep (e : Event) : bool :=
  match e with EvSleep _ => true | _ => false end.

Definition is_Read (e : Event) : bool :=
  match e with EvRead _ _ => true | _ => false end.

(** The number of transport attempts, of sleeps and of body reads among
    the events [t]. *)
Definition count_Do (t : list Event) : nat := List.length (filter is_Do t).
Definition count_Sleep (t : list Event) : nat := List.length (filter is_Sleep t).
Definition count_Read (t : list Event) : nat := List.length (filter is_Read t).

(** The answer of the client's transport to attempt [k] of a call that
    starts in world [w]. *)
Definition answer (c : Client) (w : World) (k : nat) : RoundTrip :=
  roundTrip (http c) (calls w + k)%nat.

(** The classification of an answer that lets the loop of [Search] go on:
    a transport error, or a response with status 429 or 5xx. *)
Definition retryable (rt : RoundTrip) : bool :=
  match rt with
  | TransportErr _ => true
  | Responded res => shouldRetry (StatusCode res)
  end.

(** The errors of the taxonomy's configuration class: the two the calls
    return before they build a request. *)
Definition ConfigurationError (e : error) : Prop :=
  e = ErrEmptyKey \/ e = ErrEmptyFetchURL.

(** ** The loop, one iteration at a time *)

(** The request every attempt of [Search] sends. *)
Definition searchRequest (c : Client) (url : string) (body : list byte) : Request :=
  Header_Set
    (Header_Set
       (Header_Set (mkRequest "POST" url [] body)
                   "Authorization" ("Bearer " ++ apiKey c))
       "Content-Type" "application/json")
    "User-Agent" (ua c).

(** One iteration of the loop of [Search], with the rest of the loop as
    [k]: [searchLoop (S fuel)] is [searchStep] over [searchLoop fuel]. *)
Definition searchStep (P : Platform) (c : Client) (url : string) (body : list byte)
           (k : Z -> M (outcome SearchResponse)) (attempt : Z)
  : M (outcome SearchResponse) :=
  match NewRequestWithContext P "POST" url body with
  | Err e => ret (Return (Err e))
  | Ok httpReq =>
      nr <- Do c (Header_Set
                    (Header_Set
                       (Header_Set httpReq "Authorization" ("Bearer " ++ apiKey c))
                       "Content-Type" "application/json")
                    "User-Agent" (ua c)) ;;
      match snd nr with
      | TransportErr msg =>
          if attempt <? maxRetries c then
            ok <- sleepBackoff c attempt ;;
            if ok : bool then k (Int64.add attempt 1) else ret Panic
          else ret (Return (Err (ErrTransport msg)))
      | Responded res =>
          deferClose (fst nr) ;;;
          if (StatusCode res <? 200) || (StatusCode res >=? 300) then
            be <- readBody (fst nr) (Some (2 ^ 20)) (Body res) ;;
            if shouldRetry (StatusCode res) && (attempt <? maxRetries c) then
              ok <- sleepRetryAfter c attempt res ;;
              if ok : bool then k (Int64.add attempt 1) else ret Panic
            else ret (Return (Err (statusError (StatusCode res)
                                     (json_Unmarshal_APIError P (fst be)
                                        (mkAPIError (StatusCode res) EmptyString [])))))
          else
            be <- readBody (fst nr) None (Body res) ;;
            match snd be with
            | Some e => ret (Return (Err e))
            | None => ret (Return (Ok (mkSearchResponse (fst be))))
            end
      end
  end.

(** What the loop returns, read off the answer to its last attempt. *)
Definition lastAnswerResult (P : Platform) (rt : RoundTrip) : result SearchResponse :=
  match rt with
  | TransportErr msg => Err (ErrTransport msg)
  | Responded res =>
      if (StatusCode res <? 200) || (StatusCode res >=? 300) then
        Err (statusError (StatusCode res)
               (json_Unmarshal_APIError P
                  (fst (ReadAll (LimitReader (Body res) (2 ^ 20))))
                  (mkAPIError (StatusCode res) EmptyString [])))
      else
        match body_err (Body res) with
        | Some e => Err e
        | None => Ok (mkSearchResponse (body_data (Body res)))
        end
  end.

(** The body read of the last attempt [n]. *)
Definition lastRead (rt : RoundTrip) (n : nat) : list Event :=
  match rt with
  | TransportErr _ => []
  | Responded res =>
      [EvRead n (if (StatusCode res <? 200) || (StatusCode res >=? 300)
                 then Some (2 ^ 20) else None)]
  end.

(** ** Reading the jitter *)

(** The value of a positive finite double [S754_finite false M e] is
    [M * 2^e].  [in_jitter_range f]: the value of [f] lies between 0.8 and
    1.2. *)
Definition in_jitter_range (f : Float64.float64) : Prop :=
  exists M e, f = S754_finite false M e /\ e <= 0 /\
              8 * 2 ^ (- e) <= 10 * Zpos M <= 12 * 2 ^ (- e).

(** The check every jitter factor passes: a normal double whose value lies
    between 0.8 and 1.19997. *)
Definition jitter_ok (f : Float64.float64) : bool :=
  match f with
  | S754_finite false M e =>
      (Zpos (digits2_pos M) =? 53) && (-53 <=? e) && (e <=? -52)
      && (8 * 2 ^ (- e) <=? 10 * Zpos M)
      && (100000 * Zpos M <=? 119997 * 2 ^ (- e))
  | _ => false
  end.

(** The integers from [s], [n] of them. *)
Fixpoint Zseq (s : Z) (n : nat) : list Z :=
  match n with
  | O => []
  | S n' => s :: Zseq (s + 1) n'
  end.

(** A world whose next [randFloat] draws the residue 0. *)
Definition world_residue_0 : World := mkWorld 17295553536498714127 0 [] [].

(** ** Inputs for the examples *)

Definition script (l : list RoundTrip) : Transport :=
  fun n => nth n l (TransportErr "connection refused").

Definition respond (code : Z) (hdr : list (string * string)) (body : list byte) : RoundTrip :=
  Responded (mkResponse code hdr (mkBody body None)).

Definition world0 : World := mkWorld 1 0 [] [].

Definition exampleSearch : SearchRequest :=
  mkSearchRequest "x" DepthStandard OutputSearchResults false "" "" [] [] false None false.

Definition exampleFetch : FetchRequest :=
  mkFetchRequest "https://example.com" false false false.

(** The client of the package's tests. *)
Definition testClient (net : Transport) : Client :=
  NewClient net "test-key" [WithRetry 2 (1 * Millisecond) (5 * Millisecond)].

(** The body [{"message":"bad param"}], and the same with a status member
    in front. *)
Definition body_bad_param : list byte :=
  JSON.object [JSON.member "message" (JSON.quote "bad param")].

Definition body_status_bad_param : list byte :=
  JSON.object [JSON.member "status" [x34; x30; x30];
               JSON.member "message" (JSON.quote "bad param")].

Definition body_nope : list byte := [x6e; x6f; x70; x65].

Definition net_unauthorized : Transport := fun _ => respond 401 [] body_nope.

Definition net_gateway_down : Transport :=
  script [respond 502 [] []; respond 502 [] []; respond 502 [] []].

Definition net_retry_after_huge : Transport :=
  script [respond 429 [("Retry-After", "9223372037")%string] [];
          respond 200 [] body_bad_param].

Definition net_ok : Transport := script [respond 200 [] body_bad_param].

Definition net_unprocessable : Transport := script [respond 422 [] body_bad_param].

Definition net_unprocessable_status : Transport :=
  script [respond 422 [] body_status_bad_param].

Definition emptyKeyClient : Client := NewClient net_ok "" [].

Definition net_unavailable : Transport :=
  fun _ => respond 503 [("Retry-After", "1")%string] [].

(** ** Further observations on a trace *)

Definition is_Close (e : Event) : bool :=
  match e with EvClose _ => true | _ => false end.

(** Call number [k] of the client's transport drew a response. *)
Definition responded (c : Client) (k : nat) : bool :=
  match roundTrip (http c) k with
  | Responded _ => true
  | TransportErr _ => false
  end.

(** The transport calls [a], [a+1], ... of a run that made [m] of them. *)
Definition attempts (a m : nat) : list nat := seq a m.

(** The events of the attempts [ks], the latest first: the requests sent,
    the body reads, and the deferred closes in the order they run. *)
Definition sent (rq : Request) (ks : list nat) : list Event :=
  rev (map (fun k => EvDo k rq) ks).

Definition bodyReads (c : Client) (ks : list nat) : list Event :=
  rev (flat_map (fun k => lastRead (roundTrip (http c) k) k) ks).

Definition bodyCloses (c : Client) (ks : list nat) : list Event :=
  map EvClose (filter (responded c) ks).

(** What a run of the loop of [Search] from world [w] to world [w'] with
    outcome [o] has added: the events [t], which hold one request per
    transport call, always [rq], one read of each response and no close;
    one deferred close per response; and, when the loop returned, at least
    one attempt and one sleep between two attempts. *)
Definition loop_events (c : Client) (rq : Request) (w : World)
           (o : outcome SearchResponse) (w' : World) : Prop :=
  (calls w <= calls w')%nat /\
  exists t,
    trace w' = (t ++ trace w)%list /\
    filter is_Do t = sent rq (attempts (calls w) (calls w' - calls w)) /\
    filter is_Read t = bodyReads c (attempts (calls w) (calls w' - calls w)) /\
    filter is_Close t = [] /\
    defers w' = (rev (filter (responded c) (attempts (calls w) (calls w' - calls w)))
                   ++ defers w)%list /\
    (forall r, o = Return r ->
               (calls w < calls w')%nat /\
               count_Sleep t = (calls w' - calls w - 1)%nat).

(** The seconds a retryable answer asks the client to wait: the value of a
    Retry-After header that [strconv.Atoi] reads as a positive integer. *)
Definition retryAfterSeconds (rt : RoundTrip) : option Z :=
  match rt with
  | Responded res =>
      match Atoi (Header_Get (Header res) "Retry-After") with
      | Some s => if s >? 0 then Some s else None
      | None => None
      end
  | TransportErr _ => None
  end.

(** [d] is a wait the loop can take after the answer [rt] to attempt [n]:
    the seconds the answer asks for, as a [time.Duration], or else a value
    of [backoff] at some state of the random source. *)
Definition waitAfter (c : Client) (n : Z) (rt : RoundTrip) (d : Duration) : Prop :=
  match retryAfterSeconds rt with
  | Some s => d = Int64.mul s Second
  | None => exists w0, fst (backoff n (minBackoff c) (maxBackoff c) w0) = Some d
  end.

(** The waits [ds], in the order they were taken, follow the answers to
    the transport calls [k], [k+1], ...; the first belongs to attempt
    [n]. *)
Fixpoint waits_ok (c : Client) (n : Z) (k : nat) (ds : list Duration) : Prop :=
  match ds with
  | [] => True
  | d :: ds' =>
      waitAfter c n (roundTrip (http c) k) d /\ waits_ok c (Int64.add n 1) (S k) ds'
  end.

Definition sleep_duration (e : Event) : Duration :=
  match e with EvSleep d => d | _ => 0 end.

(** The durations of the sleeps among the events [t], the earliest
    first. *)
Definition waits (t : list Event) : list Duration :=
  rev (map sleep_duration (filter is_Sleep t)).

(** The body read [Fetch] and [GetBalance] make of the answer to call
    [n]: none on a transport error and none on a 401 or 403, which they
    answer with the sentinel before they look at the body. *)
Definition sentinelFirstRead (rt : RoundTrip) (n : nat) : list Event :=
  match rt with
  | Responded res =>
      if (StatusCode res =? StatusUnauthorized) || (StatusCode res =? StatusForbidden)
      then []
      else lastRead rt n
  | TransportErr _ => []
  end.

(** ** [SearchResponse.DecodeInto] and [SearchStructured] *)

(** [json.Unmarshal(b, &v)] for a value of the caller's type [T]: the
    value after the call, and the error of the call. *)
Definition Unmarshal (T : Type) : Type := list byte -> T -> T * option error.

(** [SearchResponse.DecodeInto]. *)
Definition DecodeInto {T} (unmarshal : Unmarshal T) (r : SearchResponse) (v : T)
  : T * option error :=
  unmarshal (Raw r) v.

(** What a generic function of type [(T, error)] hands back: Go returns
    the value beside the error. *)
Inductive outcomeOf (T : Type) :=
| Returns (v : T) (e : option error)
| Panics
| NoFuel.
Arguments Returns {T} v e.
Arguments Panics {T}.
Arguments NoFuel {T}.

(** [SearchStructured[T]]; [zero] is the zero value of [T].  The variable
    that [json.Unmarshal] wrote into is returned also when decoding
    failed. *)
Definition SearchStructured {T} (P : Platform) (unmarshal : Unmarshal T) (zero : T)
           (fuel : nat) (c : Client) (req : SearchRequest) : M (outcomeOf T) :=
  o <- Search P fuel c req ;;
  match o with
  | Return (Err e) => ret (Returns zero (Some e))
  | Return (Ok resp) =>
      let (v, e) := unmarshal (Raw resp) zero in
      ret (Returns v e)
  | Panic => ret Panics
  | OutOfFuel => ret NoFuel
  end.

(** A decoder for the examples: the target is a [json.RawMessage], which
    takes the bytes of any valid JSON text. *)
Definition Unmarshal_RawMessage : Unmarshal (list byte) :=
  fun b v =>
    match JSON.parse b with
    | Some _ => (b, None)
    | None => (v, Some (ErrJSON "invalid character"))
    end.

(** ** Observations on a client *)

(** The string ends in a slash. *)
Fixpoint ends_with_slash (s : string) : bool :=
  match s with
  | EmptyString => false
  | String ch EmptyString => Ascii.eqb ch "/"
  | String _ s' => ends_with_slash s'
  end.

(** [k] slashes. *)
Fixpoint slashes (k : nat) : string :=
  match k with
  | O => EmptyString
  | S k' => String "/" (slashes k')
  end.

(** The value the last of the calls [os] that carries one leaves, [d]
    when none does. *)
Fixpoint last_call {A} (f : OptionCall -> option A) (os : list OptionCall) (d : A) : A :=
  match os with
  | [] => d
  | o :: os' => last_call f os' (match f o with Some a => a | None => d end)
  end.

Definition baseURL_of (o : OptionCall) : option string :=
  match o with CallWithBaseURL u => Some (TrimRight_slash u) | _ => None end.

Definition ua_of (o : OptionCall) : option string :=
  match o with CallWithUserAgent u => Some u | _ => None end.

Definition http_of (o : OptionCall) : option HTTPClient :=
  match o with CallWithHTTPClient h => Some h | _ => None end.

(** The back-off arguments of an option call are in order: a minimum that
    [WithRetry] ignores, or one that is not above the maximum. *)
Definition ordered_args (o : OptionCall) : Prop :=
  match o with
  | CallWithRetry _ mn mx => mn <= 0 \/ mn <= mx
  | _ => True
  end.

(** ** Reading the value of [randFloat] *)

(** [f] is the double nearest to [k / 10000] closely enough to tell [k]:
    zero for [k = 0], else a positive finite double [M * 2^e] with
    [|M * 2^e - k / 10000| < 1 / 20000]. *)
Definition near_residue (k : Z) (f : Float64.float64) : bool :=
  match f with
  | S754_zero false => k =? 0
  | S754_finite false M e =>
      (e <? 0) && ((2 * k - 1) * 2 ^ (- e) <? 20000 * Zpos M)
      && (20000 * Zpos M <? (2 * k + 1) * 2 ^ (- e))
  | _ => false
  end.

(** [f] is a double in [0, 1). *)
Definition in_unit_interval (f : Float64.float64) : Prop :=
  f = S754_zero false \/
  exists M e, f = S754_finite false M e /\ e < 0 /\ Zpos M < 2 ^ (- e).

(** ** The command line *)

(** The client [cmdSearch], [cmdFetch] and [cmdBalance] build from the
    environment's key and the flags [-base] and [-ua]; [cmdSearch] alone
    starts the options with [WithRetry(3, 250ms, 4s)]. *)
Definition cliOptions (withRetry : bool) (base ua : string) : list OptionCall :=
  ((if withRetry
    then [CallWithRetry 3 (250 * Millisecond) (4 * Second)]
    else [])
   ++ (if negb (String.eqb base "") then [CallWithBaseURL base] else [])
   ++ (if negb (String.eqb ua "") then [CallWithUserAgent ua] else []))%list.

Definition cliClient (net : Transport) (withRetry : bool) (key base ua : string) : Client :=
  NewClient net key (map option_of (cliOptions withRetry base ua)).

(** [strings.Split(s, ",")]: the pieces between the commas, one more than
    there are commas. *)
Fixpoint Split_comma (s : string) : list string :=
  match s with
  | EmptyString => [EmptyString]
  | String ch s' =>
      if Ascii.eqb ch ","
      then EmptyString :: Split_comma s'
      else match Split_comma s' with
           | p :: ps => String ch p :: ps
           | [] => [String ch EmptyString]
           end
  end.

(** The UTF-8 encodings of the characters [unicode.IsSpace] accepts: the
    six of ASCII, U+0085, U+00A0, U+1680, U+2000 to U+200A, U+2028,
    U+2029, U+202F, U+205F and U+3000. *)
Definition rune (codes : list nat) : list ascii := map ascii_of_nat codes.

Definition space_runes : list (list ascii) :=
  map rune
    [[9]; [10]; [11]; [12]; [13]; [32];
     [194; 133]; [194; 160];
     [225; 154; 128];
     [226; 128; 128]; [226; 128; 129]; [226; 128; 130]; [226; 128; 131];
     [226; 128; 132]; [226; 128; 133]; [226; 128; 134]; [226; 128; 135];
     [226; 128; 136]; [226; 128; 137]; [226; 128; 138];
     [226; 128; 168]; [226; 128; 169]; [226; 128; 175];
     [226; 129; 159];
     [227; 128; 128]]%nat.

(** [s] without the prefix [p], when it has that prefix. *)
Fixpoint drop_prefix (p s : list ascii) : option (list ascii) :=
  match p, s with
  | [], _ => Some s
  | a :: p', b :: s' => if Ascii.eqb a b then drop_prefix p' s' else None
  | _ :: _, [] => None
  end.

(** [s] without the first of the sequences [rs] it starts with. *)
Fixpoint strip (rs : list (list ascii)) (s : list ascii) : option (list ascii) :=
  match rs with
  | [] => None
  | r :: rs' =>
      match drop_prefix r s with
      | Some t => Some t
      | None => strip rs' s
      end
  end.

(** [s] without the sequences of [rs] it starts with, one after the
    other; [fuel] bounds their number. *)
Fixpoint trim (rs : list (list ascii)) (fuel : nat) (s : list ascii) : list ascii :=
  match fuel with
  | O => s
  | S f =>
      match strip rs s with
      | Some t => trim rs f t
      | None => s
      end
  end.

(** [strings.TrimSpace]: the string without the white space of Unicode at
    its two ends.  A character is decoded at the front of the string and
    at its back; a sequence that is not the encoding of a space, valid or
    not, stops the cut. *)
Definition TrimSpace (s : string) : string :=
  let l := list_ascii_of_string s in
  let l1 := trim space_runes (List.length l) l in
  string_of_list_ascii
    (rev (trim (map (@rev ascii) space_runes) (List.length l1) (rev l1))).

(** [splitCSV]: the pieces of [s] between commas, trimmed, the empty ones
    left out. *)
Definition splitCSV (s : string) : list string :=
  if String.eqb s "" then []
  else
    fold_left
      (fun out p =>
         let p := TrimSpace p in
         if negb (String.eqb p "") then (out ++ [p])%list else out)
      (Split_comma s) [].

(** [strings.Join(l, ",")]. *)
Fixpoint Join_comma (l : list string) : string :=
  match l with
  | [] => EmptyString
  | [x] => x
  | x :: r => (x ++ "," ++ Join_comma r)%string
  end.

Fixpoint has_comma (s : string) : bool :=
  match s with
  | EmptyString => false
  | String ch s' => Ascii.eqb ch "," || has_comma s'
  end.

(** An entry of a comma-separated list: not empty, no comma, no white
    space at its ends. *)
Definition csv_entry (x : string) : Prop :=
  x <> EmptyString /\ has_comma x = false /\ TrimSpace x = x.

(** ** [APIError.Error] *)

(** The verb [%d] of [fmt] on an [int]: decimal digits, with a minus
    sign for a negative number. *)
Definition format_int (n : Z) : string := DecimalString.NilEmpty.string_of_int (Z.to_int n).

(** [APIError.Error]; [None] is the nil receiver. *)
Definition APIError_Error (e : option APIError) : string :=
  match e with
  | None => "<nil>"
  | Some e =>
      if negb (String.eqb (Message e) "")
      then "linkup api error: " ++ Message e ++ " (status=" ++ format_int (Status e) ++ ")"
      else "linkup api error (status=" ++ format_int (Status e) ++ ")"
  end.

(** The events of the attempts of a run of the loop of [Search], the
    earliest first: for every attempt the request and, when a response
    came, the read of its body; between two attempts the wait.  [k] is
    the transport call of the first attempt and [ds] are the waits. *)
Fixpoint loopTrace (c : Client) (rq : Request) (k : nat) (ds : list Duration)
  : list Event :=
  match ds with
  | [] => EvDo k rq :: lastRead (roundTrip (http c) k) k
  | d :: ds' =>
      (EvDo k rq :: lastRead (roundTrip (http c) k) k)
        ++ EvSleep d :: loopTrace c rq (S k) ds'
  end.

(** The step of the counter behind [randFloat]. *)
Definition lcg_next (l : Z) : Z :=
  Uint64.wrap (l * 2862933555777941757 + 3037000493).

(** The number of waits after the transport calls [k], ..., [k+m-1] that
    no Retry-After header dictates. *)
Definition backoffWaits (c : Client) (k m : nat) : nat :=
  List.length
    (filter (fun j => match retryAfterSeconds (roundTrip (http c) j) with
                      | None => true
                      | Some _ => false
                      end)
            (seq k m)).

(** Two 502 answers, then a 200: the retry test of the package. *)
Definition net_flaky : Transport :=
  script [respond 502 [] []; respond 502 [] []; respond 200 [] body_bad_param].

(** A 429 that asks for two seconds, then a 200. *)
Definition net_retry_after_2 : Transport :=
  script [respond 429 [("Retry-After", "2")%string] []; respond 200 [] body_bad_param].

(** The body [{"balance":12}]. *)
Definition body_balance : list byte :=
  JSON.object [JSON.member "balance" [x31; x32]].

Definition net_balance : Transport := script [respond 200 [] body_balance].

(** * Properties *)

(** ** Proof automation *)

Ltac count_tac :=
  unfold count_Do in *; cbn [filter is_Do List.length] in *; lia.

(** The facts about a run that ends in the iteration that consulted answer
    [calls w]. *)
Ltac leaf_tac Hans :=
  cbn [calls trace];
  match goal with
  | |- context [(S (calls ?w) - 1)%nat] =>
      replace (S (calls w) - 1)%nat with (calls w) by lia
  end;
  rewrite Hans; cbn [retryable];
  (split; [lia|]); (split; [lia|]); (split; [count_tac|]);
  (split; [intros k Hk'; lia|]);
  (split; [|split; [|intros resp Hresp; try discriminate Hresp]]).

Ltac count_all :=
  unfold count_Do, count_Sleep, count_Read;
  cbn [filter is_Do is_Sleep is_Read List.length];
  repeat split; intros; lia.

(** ** Machine integers *)

Lemma Int64_wrap_in_range z : Int64.in_range z -> Int64.wrap z = z.
Proof.
  unfold Int64.in_range, Int64.wrap, Int64.min_int, Int64.max_int,
    Int64.modulus, Int64.half.
  intros H. rewrite Z.mod_small; lia.
Qed.

(** Reduction lands in [int64]. *)
Lemma Int64_wrap_range z : Int64.in_range (Int64.wrap z).
Proof.
  unfold Int64.in_range, Int64.wrap, Int64.min_int, Int64.max_int,
    Int64.modulus, Int64.half.
  pose proof (Z.mod_pos_bound (z + 2 ^ 63) (2 ^ 64) ltac:(lia)). lia.
Qed.

(** The product is the exact number of nanoseconds as long as it fits a
    [time.Duration], that is up to 9223372036 seconds. *)
Lemma Int64_mul_seconds s :
  0 < s <= 9223372036 -> Int64.mul s Second = s * Second.
Proof.
  intros H. unfold Int64.mul. apply Int64_wrap_in_range.
  unfold Int64.in_range, Int64.min_int, Int64.max_int, Int64.half, Second. lia.
Qed.

(** ** Construction *)

Lemma WithRetry_maxRetries r mn mx c :
  0 <= maxRetries c -> 0 <= maxRetries (WithRetry r mn mx c).
Proof.
  intros H. unfold WithRetry.
  destruct (r >=? 0) eqn:Hr; destruct (mn >? 0); cbn [minBackoff maxRetries];
    match goal with |- context [if ?b then _ else _] => destruct b end;
    cbn [maxRetries]; lia.
Qed.

Lemma option_of_maxRetries o c :
  0 <= maxRetries c -> 0 <= maxRetries (option_of o c).
Proof.
  destruct o; cbn [option_of]; try (intros H; exact H).
  apply WithRetry_maxRetries.
Qed.

Lemma fold_options_maxRetries os c :
  0 <= maxRetries c ->
  0 <= maxRetries (fold_left (fun c o => o c) (map option_of os) c).
Proof.
  revert c. induction os as [|o os IH]; intros c H; cbn [map fold_left].
  - exact H.
  - apply IH, option_of_maxRetries, H.
Qed.

(** Whatever the options, the retry count of a new client is not negative. *)
Lemma NewClient_maxRetries_nonneg net key os :
  0 <= maxRetries (NewClient net key (map option_of os)).
Proof.
  unfold NewClient. apply fold_options_maxRetries. cbn [maxRetries]. lia.
Qed.



(** C8: [WithRetry 0 10s 5s] on the defaults raises the minimum back-off
    to 10s and, because 5s is below it, leaves the maximum at the default
    4s: the new client has its maximum back-off below its minimum. *)
Theorem NewClient_backoff_order_broken net :
  let c := NewClient net "k" [WithRetry 0 (10 * Second) (5 * Second)] in
  maxRetries c = 0 /\ minBackoff c = 10 * Second /\ maxBackoff c = 4 * Second /\
  maxBackoff c < minBackoff c.
Proof. cbv. repeat split. Qed.

(** ** The reference decoder *)

Lemma set_member_status e kv :
  Status (JSON.set_member e kv) <> Status e -> JSON.names (fst kv) "status" = true.
Proof.
  destruct kv as [k [v raw]]. cbn [JSON.set_member fst].
  destruct (JSON.names k "status"); [reflexivity|].
  destruct (JSON.names k "message").
  - destruct v; cbn [Status]; congruence.
  - destruct (JSON.names k "details"); cbn [Status]; congruence.
Qed.

Lemma fold_set_member_status m : forall e,
  Status (fold_left JSON.set_member m e) <> Status e ->
  exists kv, In kv m /\ JSON.names (fst kv) "status" = true.
Proof.
  induction m as [|a m IH]; intros e H; cbn [fold_left] in H; [congruence|].
  destruct (Z.eq_dec (Status (JSON.set_member e a)) (Status e)) as [E|E].
  - rewrite <- E in H. destruct (IH _ H) as (kv & Hin & Hn).
    exists kv. split; [right; exact Hin|exact Hn].
  - exists a. split; [left; reflexivity|apply (set_member_status e), E].
Qed.

(** The reference decoder changes the status only when the body is a JSON
    object with a member named status. *)
Lemma Unmarshal_APIError_status b e :
  Status (JSON.Unmarshal_APIError b e) <> Status e ->
  exists m kv, JSON.parse b = Some (JSON.Object m) /\ In kv m /\
               JSON.names (fst kv) "status" = true.
Proof.
  unfold JSON.Unmarshal_APIError.
  destruct (JSON.parse b) as [[| | | | |m]|]; try congruence.
  intros H. destruct (fold_set_member_status m e H) as (kv & Hin & Hn).
  exists m, kv. auto.
Qed.

(** ** Floating point: rounding of [float64] operations *)

Lemma digits2_pos_size p : digits2_pos p = Pos.size p.
Proof. induction p as [p IH|p IH|]; cbn; congruence. Qed.

Lemma digits2_pos_bounds p :
  2 ^ (Zpos (digits2_pos p) - 1) <= Zpos p < 2 ^ Zpos (digits2_pos p).
Proof.
  rewrite digits2_pos_size. split.
  - pose proof (Pos.size_le p) as H.
    assert (H' : 2 ^ Zpos (Pos.size p) <= Zpos p~0).
    { rewrite <- Pos2Z.inj_pow. exact H. }
    replace (Zpos (Pos.size p)) with (Z.succ (Zpos (Pos.size p) - 1)) in H' by lia.
    rewrite Z.pow_succ_r in H' by lia. lia.
  - pose proof (Pos.size_gt p) as H.
    rewrite <- Pos2Z.inj_pow. exact H.
Qed.

Lemma digits2_pos_unique p k :
  2 ^ (k - 1) <= Zpos p < 2 ^ k -> Zpos (digits2_pos p) = k.
Proof.
  intros [H1 H2]. pose proof (digits2_pos_bounds p) as [H3 H4].
  assert (0 < k).
  { destruct (Z.ltb_spec 0 k) as [|Hk]; [assumption|].
    assert (2 ^ k <= 2 ^ 0) by (apply Z.pow_le_mono_r; lia). lia. }
  destruct (Z.lt_trichotomy (Zpos (digits2_pos p)) k) as [Hlt|[Heq|Hgt]]; [|exact Heq|].
  - assert (2 ^ Zpos (digits2_pos p) <= 2 ^ (k - 1)) by (apply Z.pow_le_mono_r; lia). lia.
  - assert (2 ^ k <= 2 ^ (Zpos (digits2_pos p) - 1)) by (apply Z.pow_le_mono_r; lia). lia.
Qed.

(** One right shift halves the mantissa. *)
Lemma shr_1_m x : 0 <= shr_m x -> shr_m (shr_1 x) = shr_m x / 2.
Proof.
  destruct x as [m r s]. cbn [shr_m shr_1]. intros H.
  destruct m as [|[p|p|]|p]; cbn [shr_m]; try lia.
  - reflexivity.
  - apply Z.div_unique with 1; lia.
  - apply Z.div_unique with 0; lia.
  - reflexivity.
Qed.

Lemma shr_1_nonneg x : 0 <= shr_m x -> 0 <= shr_m (shr_1 x).
Proof. intros H. rewrite shr_1_m by exact H. apply Z.div_pos; lia. Qed.

(** [p] right shifts divide the mantissa by [2^p]. *)
Lemma iter_shr_m p : forall x,
  0 <= shr_m x ->
  shr_m (iter_pos shr_1 p x) = shr_m x / 2 ^ Zpos p /\ 0 <= shr_m (iter_pos shr_1 p x).
Proof.
  induction p as [p IH|p IH|]; intros x Hx; cbn [iter_pos].
  - destruct (IH (shr_1 x) (shr_1_nonneg x Hx)) as [E1 N1].
    destruct (IH _ N1) as [E2 N2]. split; [|exact N2].
    rewrite E2, E1, shr_1_m by exact Hx.
    rewrite !Z.div_div by (try apply Z.pow_pos_nonneg; lia).
    f_equal.
    assert (Hp : Zpos p~1 = 1 + Zpos p + Zpos p) by lia.
    rewrite Hp, !Z.pow_add_r by lia. lia.
  - destruct (IH x Hx) as [E1 N1]. destruct (IH _ N1) as [E2 N2]. split; [|exact N2].
    rewrite E2, E1. rewrite !Z.div_div by (try apply Z.pow_pos_nonneg; lia).
    f_equal.
    assert (Hp : Zpos p~0 = Zpos p + Zpos p) by lia.
    rewrite Hp, !Z.pow_add_r by lia. lia.
  - split; [|apply shr_1_nonneg, Hx]. rewrite shr_1_m by exact Hx. reflexivity.
Qed.

(** Rounding keeps the mantissa or adds one. *)
Lemma round_nearest_even_bracket m l :
  m <= round_nearest_even m l <= m + 1.
Proof.
  unfold round_nearest_even. destruct l as [|[| |]]; try lia.
  destruct (Z.even m); lia.
Qed.

(** [d] left shifts multiply by [2^d]. *)
Lemma iter_xO_value d : forall m,
  Zpos (Pos.iter xO m d) = Zpos m * 2 ^ Zpos d.
Proof.
  induction d as [|d IH] using Pos.peano_ind; intros m.
  - cbn [Pos.iter]. rewrite Pos2Z.inj_xO. lia.
  - rewrite Pos.iter_succ, Pos2Z.inj_xO, IH, Pos2Z.inj_succ, Z.pow_succ_r by lia. lia.
Qed.

Lemma fexp_normal k : -1074 <= k - 53 -> fexp 53 1024 k = k - 53.
Proof. intros H. unfold fexp, emin. lia. Qed.

Lemma shr_fexp_noshift m e l :
  Zdigits2 m = 53 -> -1074 <= e ->
  shr_fexp 53 1024 m e l = (shr_record_of_loc m l, e).
Proof.
  intros Hd He. unfold shr_fexp. rewrite Hd, fexp_normal by lia.
  replace (53 + e - 53 - e) with 0 by lia. reflexivity.
Qed.

Lemma shr_fexp_shift m e l n :
  Zdigits2 m = 53 + Zpos n -> -1074 <= e + Zpos n ->
  shr_fexp 53 1024 m e l = (iter_pos shr_1 n (shr_record_of_loc m l), e + Zpos n).
Proof.
  intros Hd He. unfold shr_fexp. rewrite Hd, fexp_normal by lia.
  replace (53 + Zpos n + e - 53 - e) with (Zpos n) by lia. reflexivity.
Qed.

(** A mantissa of exactly 53 digits within the exponent range is kept. *)
Lemma binary_round_aux_exact sx m e :
  Zpos (digits2_pos m) = 53 -> -1074 <= e <= 971 ->
  binary_round_aux 53 1024 sx (Zpos m) e loc_Exact = S754_finite sx m e.
Proof.
  intros Hd He. unfold binary_round_aux.
  rewrite shr_fexp_noshift by (cbn [Zdigits2]; lia).
  cbn [shr_record_of_loc shr_m loc_of_shr_record round_nearest_even].
  rewrite shr_fexp_noshift by (cbn [Zdigits2]; lia).
  cbn [shr_record_of_loc shr_m].
  destruct (e <=? 1024 - 53) eqn:E; [reflexivity|].
  apply Z.leb_gt in E. lia.
Qed.

(** A longer mantissa is cut to 53 digits: the result is the quotient by
    the power of two cut off, or one more. *)
Lemma binary_round_aux_cut p E n :
  Zpos (digits2_pos p) = 53 + Zpos n ->
  -1074 <= E + Zpos n < 971 ->
  exists m3 e3 m2,
    binary_round_aux 53 1024 false (Zpos p) E loc_Exact = S754_finite false m3 e3 /\
    Zpos p / 2 ^ Zpos n <= m2 <= Zpos p / 2 ^ Zpos n + 1 /\
    2 ^ 52 <= m2 <= 2 ^ 53 /\
    Z.shiftl (Zpos m3) e3 = Z.shiftl m2 (E + Zpos n).
Proof.
  intros Hd HE. unfold binary_round_aux.
  rewrite (shr_fexp_shift _ _ _ n) by (cbn [Zdigits2]; lia).
  destruct (iter_shr_m n (shr_record_of_loc (Zpos p) loc_Exact)) as [Hm1 _];
    [cbn; lia|].
  set (mrs := iter_pos shr_1 n (shr_record_of_loc (Zpos p) loc_Exact)) in *.
  cbn [shr_record_of_loc shr_m] in Hm1.
  pose proof (round_nearest_even_bracket (shr_m mrs) (loc_of_shr_record mrs)) as Hb.
  set (m2 := round_nearest_even (shr_m mrs) (loc_of_shr_record mrs)) in *.
  rewrite Hm1 in Hb.
  pose proof (digits2_pos_bounds p) as [Hlo Hhi]. rewrite Hd in Hlo, Hhi.
  assert (Hpow : 0 < 2 ^ Zpos n) by (apply Z.pow_pos_nonneg; lia).
  assert (H52 : 2 ^ 52 <= Zpos p / 2 ^ Zpos n).
  { apply Z.div_le_lower_bound; [lia|].
    replace (53 + Zpos n - 1) with (Zpos n + 52) in Hlo by lia.
    rewrite Z.pow_add_r in Hlo by lia. lia. }
  assert (H53 : Zpos p / 2 ^ Zpos n < 2 ^ 53).
  { apply Z.div_lt_upper_bound; [lia|].
    rewrite Z.pow_add_r in Hhi by lia. lia. }
  assert (Hm2 : 2 ^ 52 <= m2 <= 2 ^ 53) by lia.
  destruct m2 as [|q|q] eqn:Eq; [lia| |lia].
  destruct (Z.eq_dec (Zpos q) (2 ^ 53)) as [Etop|Hne].
  - (* the rounding carried into a 54th digit *)
    assert (Hdq : Zdigits2 (Zpos q) = 53 + 1).
    { cbn [Zdigits2]. apply digits2_pos_unique. rewrite Etop. cbn. lia. }
    rewrite (shr_fexp_shift _ _ _ 1%positive) by (rewrite ?Hdq; lia).
    cbn [iter_pos shr_record_of_loc].
    assert (Hq : shr_m (shr_1 {| shr_m := Zpos q; shr_r := false; shr_s := false |})
                 = 2 ^ 52).
    { rewrite shr_1_m by (cbn; lia). cbn [shr_m]. rewrite Etop. reflexivity. }
    rewrite Hq. change (2 ^ 52) with (Zpos 4503599627370496).
    cbv iota beta.
    destruct (E + Zpos n + 1 <=? 1024 - 53) eqn:Ele; [|apply Z.leb_gt in Ele; lia].
    exists 4503599627370496%positive, (E + Zpos n + 1), (Zpos q).
    split; [reflexivity|]. split; [lia|]. split; [lia|].
    rewrite Etop. change (2 ^ 53) with (Z.shiftl 4503599627370496 1).
    rewrite Z.shiftl_shiftl by lia. f_equal. lia.
  - assert (Hdq : Zdigits2 (Zpos q) = 53).
    { cbn [Zdigits2]. apply digits2_pos_unique. lia. }
    rewrite shr_fexp_noshift by (rewrite ?Hdq; lia).
    cbn [shr_record_of_loc shr_m]. cbv iota beta.
    destruct (E + Zpos n <=? 1024 - 53) eqn:Ele; [|apply Z.leb_gt in Ele; lia].
    exists q, (E + Zpos n), (Zpos q).
    split; [reflexivity|]. split; [lia|]. split; [lia|reflexivity].
Qed.

(** Integers below 2^53 convert exactly. *)
Lemma of_Z_exact d :
  0 < d < 2 ^ 53 ->
  exists md ed,
    Float64.of_Z d = S754_finite false md ed /\
    Zpos (digits2_pos md) = 53 /\
    -52 <= ed <= 0 /\
    Zpos md = d * 2 ^ (- ed).
Proof.
  intros Hd. destruct d as [|dp|dp]; [lia| |lia].
  unfold Float64.of_Z, Float64.prec, Float64.emax, binary_normalize, binary_round.
  pose proof (digits2_pos_bounds dp) as [Hlo Hhi].
  set (k := Zpos (digits2_pos dp)) in *.
  assert (Hk : 1 <= k <= 53).
  { split; [subst k; lia|].
    destruct (Z.leb_spec k 53) as [|Hgt]; [assumption|].
    assert (2 ^ 53 <= 2 ^ (k - 1)) by (apply Z.pow_le_mono_r; lia). lia. }
  rewrite fexp_normal by lia. unfold shl_align.
  replace (k + 0 - 53 - 0) with (k - 53) by lia.
  destruct (k - 53) as [|s|s] eqn:Es; [| lia |].
  - (* already 53 digits *)
    rewrite binary_round_aux_exact by (fold k; lia).
    exists dp, 0. repeat split; try lia.
  - assert (Hs : Zpos s = 53 - k) by lia.
    assert (Hv : Zpos (Pos.iter xO dp s) = Zpos dp * 2 ^ Zpos s) by apply iter_xO_value.
    assert (Hdig : Zpos (digits2_pos (Pos.iter xO dp s)) = 53).
    { apply digits2_pos_unique. rewrite Hv.
      assert (E1 : 2 ^ (53 - 1) = 2 ^ (k - 1) * 2 ^ Zpos s)
        by (rewrite <- Z.pow_add_r by lia; f_equal; lia).
      assert (E2 : 2 ^ 53 = 2 ^ k * 2 ^ Zpos s)
        by (rewrite <- Z.pow_add_r by lia; f_equal; lia).
      rewrite E1, E2.
      assert (0 < 2 ^ Zpos s) by (apply Z.pow_pos_nonneg; lia).
      split; [apply Z.mul_le_mono_nonneg_r; lia|].
      apply Z.mul_lt_mono_pos_r; lia. }
    replace (k + 0 - 53) with (Zneg s) by lia.
    rewrite binary_round_aux_exact by (rewrite ?Hdig; lia).
    exists (Pos.iter xO dp s), (Zneg s). repeat split; try lia.
    rewrite Hv. reflexivity.
Qed.

(** The truncated product of a delay up to 2^52 ns and a jitter factor. *)
Lemma mul_truncated_bounds d M e :
  0 < d <= 2 ^ 52 ->
  jitter_ok (S754_finite false M e) = true ->
  let B := Float64.to_int64 (Float64.mul (Float64.of_Z d) (S754_finite false M e)) in
  8 * d < 10 * (B + 1) /\ 10 * B <= 12 * d /\ 0 <= B.
Proof.
  intros Hd Hok. cbn [jitter_ok] in Hok.
  repeat (apply andb_true_iff in Hok; destruct Hok as [Hok ?]).
  apply Z.eqb_eq in Hok.
  repeat match goal with H : (_ <=? _) = true |- _ => apply Z.leb_le in H end.
  destruct (of_Z_exact d ltac:(lia)) as (md & ed & Hof & Hdm & Hed & Hmd).
  rewrite Hof. unfold Float64.mul, SFmul, Float64.prec, Float64.emax. cbn [xorb].
  (* sizes of the factors and of the product *)
  pose proof (digits2_pos_bounds md) as [Hmd1 Hmd2]. rewrite Hdm in Hmd1, Hmd2.
  pose proof (digits2_pos_bounds M) as [HM1 HM2]. rewrite Hok in HM1, HM2.
  change (53 - 1) with 52 in *.
  set (a := 2 ^ (- ed)) in *. set (b := 2 ^ (- e)) in *.
  assert (Ha : 0 < a) by (apply Z.pow_pos_nonneg; lia).
  assert (Hb : 0 < b) by (apply Z.pow_pos_nonneg; lia).
  pose proof (digits2_pos_bounds (md * M)) as [HP1 HP2].
  rewrite Pos2Z.inj_mul in HP1, HP2.
  set (P := Zpos md * Zpos M) in *.
  set (dg := Zpos (digits2_pos (md * M))) in *.
  assert (HPlo : 2 ^ 104 <= P).
  { change (2 ^ 104) with (2 ^ 52 * 2 ^ 52). subst P.
    apply Z.mul_le_mono_nonneg; lia. }
  assert (HPhi : P < 2 ^ 106).
  { change (2 ^ 106) with (2 ^ 53 * 2 ^ 53). subst P.
    apply Z.mul_lt_mono_nonneg; lia. }
  assert (Hdg : 105 <= dg <= 106).
  { split.
    - destruct (Z.leb_spec 105 dg) as [|Hlt]; [assumption|].
      assert (2 ^ dg <= 2 ^ 104) by (apply Z.pow_le_mono_r; lia). lia.
    - destruct (Z.leb_spec dg 106) as [|Hgt]; [assumption|].
      assert (2 ^ 106 <= 2 ^ (dg - 1)) by (apply Z.pow_le_mono_r; lia). lia. }
  destruct (dg - 53) as [|n|n] eqn:En; [lia| |lia].
  assert (Hn : Zpos n = dg - 53) by lia.
  (* the product stays below 2^53 *)
  assert (Hab : 2 ^ (- (ed + e)) = a * b).
  { subst a b. rewrite <- Z.pow_add_r by lia. f_equal. lia. }
  assert (HPd : P = d * a * Zpos M) by (subst P; rewrite Hmd; reflexivity).
  assert (HPsmall : P < 2 ^ 53 * (a * b)).
  { rewrite HPd.
    assert (10 * (d * a * Zpos M) <= 12 * (2 ^ 52 * a * b)).
    { assert (10 * Zpos M <= 12 * b) by lia.
      assert (d * a <= 2 ^ 52 * a) by (apply Z.mul_le_mono_nonneg_r; lia).
      assert (d * a * (10 * Zpos M) <= 2 ^ 52 * a * (12 * b))
        by (apply Z.mul_le_mono_nonneg; lia).
      lia. }
    assert (0 < a * b) by lia.
    change (2 ^ 53) with (2 * 2 ^ 52). lia. }
  assert (He' : ed + e + Zpos n <= 0).
  { rewrite <- Hab in HPsmall. rewrite <- Z.pow_add_r in HPsmall by lia.
    assert (Hlt : 2 ^ (dg - 1) < 2 ^ (53 + - (ed + e))) by lia.
    apply Z.pow_lt_mono_r_iff in Hlt; lia. }
  destruct (binary_round_aux_cut (md * M) (ed + e) n) as
      (m3 & e3 & m2 & Hres & Hbr & Hm2 & Hsh); [fold dg; lia|lia|].
  rewrite Hres. rewrite Pos2Z.inj_mul in Hbr. fold P in Hbr.
  unfold Float64.to_int64. rewrite Hsh.
  set (e' := ed + e + Zpos n) in *.
  set (T := 2 ^ (- e')).
  assert (HT : 0 < T) by (apply Z.pow_pos_nonneg; lia).
  assert (HB : Z.shiftl m2 e' = m2 / T).
  { subst T. apply Z.shiftl_div_pow2. lia. }
  rewrite HB. set (B := m2 / T).
  set (N := 2 ^ Zpos n) in *.
  assert (HN : 0 < N) by (apply Z.pow_pos_nonneg; lia).
  assert (HTN : T * N = a * b).
  { subst T N. rewrite <- Z.pow_add_r, <- Hab by lia. f_equal. lia. }
  pose proof (Z.mul_div_le P N HN) as Hq1.
  pose proof (Z.mul_succ_div_gt P N HN) as Hq2.
  pose proof (Z.mul_div_le m2 T HT) as Hb1.
  pose proof (Z.mul_succ_div_gt m2 T HT) as Hb2.
  fold B in Hb1, Hb2.
  set (m1 := P / N) in *.
  assert (Hm1 : 2 ^ 52 <= m1).
  { apply Z.div_le_lower_bound; [lia|].
    assert (2 ^ (dg - 1) = N * 2 ^ 52).
    { subst N. rewrite <- Z.pow_add_r by lia. f_equal. lia. }
    rewrite Z.mul_comm. lia. }
  assert (HB0 : 0 <= B) by (apply Z.div_pos; lia).
  assert (HBhi : B <= 2 ^ 53).
  { apply Z.div_le_upper_bound; [lia|]. nia. }
  assert (Hrange : (Int64.min_int <=? B) && (B <=? Int64.max_int) = true).
  { apply andb_true_iff. split; apply Z.leb_le;
      unfold Int64.min_int, Int64.max_int, Int64.half; lia. }
  rewrite Hrange.
  split; [|split; [|exact HB0]].
  - (* the lower bound *)
    assert (G1 : (m1 + 1) * N <= (B + 1) * T * N).
    { apply Z.mul_le_mono_nonneg_r; [lia|].
      assert (m2 < (B + 1) * T) by lia. lia. }
    assert (G2 : d * a * Zpos M < (B + 1) * (a * b)).
    { rewrite <- HPd, <- HTN. lia. }
    assert (G3 : d * Zpos M < (B + 1) * b).
    { apply (Z.mul_lt_mono_pos_l a); [exact Ha|]. lia. }
    assert (G4 : 8 * d * b <= 10 * (d * Zpos M)).
    { assert (d * (8 * b) <= d * (10 * Zpos M))
        by (apply Z.mul_le_mono_nonneg_l; lia). lia. }
    assert (G5 : 8 * d * b < 10 * (B + 1) * b) by lia.
    apply (Z.mul_lt_mono_pos_r b); [exact Hb|]. lia.
  - (* the upper bound *)
    assert (G1 : B * T * N <= (m1 + 1) * N).
    { apply Z.mul_le_mono_nonneg_r; lia. }
    assert (G2 : 2 ^ 52 * N <= P).
    { assert (2 ^ 52 * N <= m1 * N) by (apply Z.mul_le_mono_nonneg_r; lia). lia. }
    assert (G3 : 2 ^ 52 * (B * (a * b)) <= (2 ^ 52 + 1) * (d * a * Zpos M)).
    { rewrite <- HPd, <- HTN. lia. }
    assert (G4 : 2 ^ 52 * (B * b) <= (2 ^ 52 + 1) * (d * Zpos M)).
    { apply (Z.mul_le_mono_pos_l _ _ a); [exact Ha|]. lia. }
    assert (G5 : d * (100000 * Zpos M) <= d * (119997 * b))
      by (apply Z.mul_le_mono_nonneg_l; lia).
    assert (G6 : 2 ^ 52 * 100000 * B * b <= 2 ^ 52 * 120000 * d * b).
    { assert (100000 * (2 ^ 52 * (B * b)) <= (2 ^ 52 + 1) * (119997 * d * b)) by lia.
      assert ((2 ^ 52 + 1) * 119997 <= 2 ^ 52 * 120000) by (cbn; lia).
      assert ((2 ^ 52 + 1) * 119997 * (d * b) <= 2 ^ 52 * 120000 * (d * b))
        by (apply Z.mul_le_mono_nonneg_r; lia).
      lia. }
    assert (G7 : 2 ^ 52 * 100000 * B <= 2 ^ 52 * 120000 * d).
    { apply (Z.mul_le_mono_pos_r _ _ b); [exact Hb|]. lia. }
    lia.
Qed.

(** ** Back-off *)

Lemma In_Zseq n : forall s k, s <= k < s + Z.of_nat n -> In k (Zseq s n).
Proof.
  induction n as [|n IH]; intros s k Hk; [lia|].
  cbn [Zseq In]. destruct (Z.eq_dec s k) as [->|Hne]; [left; reflexivity|].
  right. apply IH. lia.
Qed.

(** The jitter factor of each of the 10000 residues [randFloat] can draw. *)
Lemma jitter_table :
  forallb (fun k => jitter_ok (jitter (Float64.div (Float64.of_Z k) Float64.c10000)))
          (Zseq 0 (Z.to_nat 10000)) = true.
Proof. vm_compute. reflexivity. Qed.

Lemma jitter_of_residue k :
  0 <= k < 10000 ->
  jitter_ok (jitter (Float64.div (Float64.of_Z k) Float64.c10000)) = true.
Proof.
  intros Hk. pose proof jitter_table as H. rewrite forallb_forall in H.
  apply H. apply In_Zseq. rewrite Z2Nat.id; lia.
Qed.

Lemma randFloat_jitter_ok w : jitter_ok (jitter (fst (randFloat w))) = true.
Proof.
  unfold randFloat. cbn [fst]. apply jitter_of_residue.
  apply Z.mod_pos_bound. lia.
Qed.

Lemma jitter_ok_in_range f : jitter_ok f = true -> in_jitter_range f.
Proof.
  destruct f as [| | |[|] M e]; try discriminate. cbn [jitter_ok]. intros Hok.
  repeat (apply andb_true_iff in Hok; destruct Hok as [Hok ?]).
  repeat match goal with H : (_ <=? _) = true |- _ => apply Z.leb_le in H end.
  exists M, e. split; [reflexivity|]. split; [lia|].
  assert (0 < 2 ^ (- e)) by (apply Z.pow_pos_nonneg; lia). lia.
Qed.

(** Without overflow the delay before the jitter is the clamped power. *)
Lemma backoff_base_exact n mn mx :
  0 <= n -> 0 <= mn -> mn * 2 ^ n <= Int64.max_int ->
  backoff_base n mn mx = Some (Z.min (mn * 2 ^ n) mx).
Proof.
  intros Hn Hmn Hov. unfold backoff_base, Int64.shl.
  destruct (n <? 0) eqn:E; [apply Z.ltb_lt in E; lia|].
  rewrite Z.shiftl_1_l. f_equal.
  assert (Hpow : 0 < 2 ^ n) by (apply Z.pow_pos_nonneg; lia).
  assert (Hd : Int64.mul mn (Int64.wrap (2 ^ n)) = mn * 2 ^ n).
  { destruct (Z.eq_dec mn 0) as [->|Hne].
    - unfold Int64.mul. rewrite !Z.mul_0_l. reflexivity.
    - assert (2 ^ n <= mn * 2 ^ n) by nia.
      unfold Int64.mul.
      rewrite (Int64_wrap_in_range (2 ^ n))
        by (unfold Int64.in_range, Int64.min_int, Int64.max_int, Int64.half in *; lia).
      apply Int64_wrap_in_range.
      unfold Int64.in_range, Int64.min_int, Int64.max_int, Int64.half in *. nia. }
  rewrite Hd. destruct (mn * 2 ^ n >? mx) eqn:Egt.
  - rewrite Z.gtb_ltb in Egt. apply Z.ltb_lt in Egt. lia.
  - rewrite Z.gtb_ltb in Egt. apply Z.ltb_ge in Egt. lia.
Qed.

(** C4 (amended): for an attempt [n >= 0] and bounds [0 <= min <= max]
    such that [min * 2^n] fits an [int64] and [base = min (min*2^n) max]
    is at most 2^52 ns, [backoff] computes [base] before the jitter, the
    jitter factor lies in [0.8, 1.2] whatever the state of the random
    source, and the delay returned is a whole number [B] of nanoseconds
    with [floor (0.8*base) <= B <= 1.2*base]; so it is neither negative
    nor above [1.2*max]. *)
Theorem backoff_within_jitter_bounds n mn mx w :
  0 <= n -> 0 <= mn -> mn <= mx ->
  mn * 2 ^ n <= Int64.max_int ->
  Z.min (mn * 2 ^ n) mx <= 2 ^ 52 ->
  let base := Z.min (mn * 2 ^ n) mx in
  backoff_base n mn mx = Some base /\
  in_jitter_range (jitter (fst (randFloat w))) /\
  exists B,
    fst (backoff n mn mx w) = Some B /\
    8 * base < 10 * (B + 1) /\ 10 * B <= 12 * base /\ 0 <= B.
Proof.
  intros Hn Hmn Hle Hov Hsmall base.
  pose proof (backoff_base_exact n mn mx Hn Hmn Hov) as Hbase. fold base in Hbase.
  pose proof (randFloat_jitter_ok w) as Hj.
  split; [exact Hbase|]. split; [apply jitter_ok_in_range, Hj|].
  unfold backoff. rewrite Hbase. cbv beta delta [bind ret].
  destruct (randFloat w) as [r w1]. cbn [fst] in *.
  assert (Hb0 : 0 <= base).
  { subst base. assert (0 <= mn * 2 ^ n) by (apply Z.mul_nonneg_nonneg; lia). lia. }
  destruct (jitter r) as [| | |[|] M e] eqn:Ej; try discriminate Hj.
  eexists. split; [reflexivity|].
  destruct (Z.eq_dec base 0) as [E0|Hne].
  - rewrite E0. cbn. lia.
  - apply mul_truncated_bounds; [fold base in Hsmall; lia|exact Hj].
Qed.

(** The amended C4 at the third attempt with the default bounds. *)
Lemma backoff_within_jitter_bounds_witness :
  let base := Z.min (250 * Millisecond * 2 ^ 2) (4 * Second) in
  (0 <= 2 /\ 0 <= 250 * Millisecond /\ 250 * Millisecond <= 4 * Second /\
   250 * Millisecond * 2 ^ 2 <= Int64.max_int /\ base <= 2 ^ 52) /\
  backoff_base 2 (250 * Millisecond) (4 * Second) = Some base /\
  in_jitter_range (jitter (fst (randFloat world0))) /\
  exists B,
    fst (backoff 2 (250 * Millisecond) (4 * Second) world0) = Some B /\
    8 * base < 10 * (B + 1) /\ 10 * B <= 12 * base /\ 0 <= B.
Proof.
  intros base.
  assert (H : 0 <= 2 /\ 0 <= 250 * Millisecond /\ 250 * Millisecond <= 4 * Second /\
              250 * Millisecond * 2 ^ 2 <= Int64.max_int /\ base <= 2 ^ 52)
    by (vm_compute; repeat split; discriminate).
  split; [exact H|].
  destruct H as (H1 & H2 & H3 & H4 & H5).
  exact (backoff_within_jitter_bounds 2 (250 * Millisecond) (4 * Second) world0
           H1 H2 H3 H4 H5).
Defined.

(** C4, as stated, fails in three ways.  The delay is truncated to whole
    nanoseconds: [backoff 0 1ns 1ns] is 0, below 0.8.  The product
    [min * (1 << n)] overflows: with the default bounds [backoff 36] is
    negative.  And above 2^53 ns the conversions round: a base of
    903785878769165607 ns with the smallest jitter gives 5 ns less than
    [floor (0.8*base)]. *)
Lemma backoff_outside_jitter_interval :
  (fst (backoff 0 1 1 world0) = Some 0 /\
   10 * 0 < 8 * Z.min (1 * 2 ^ 0) 1) /\
  (fst (backoff 36 (250 * Millisecond) (4 * Second) world0)
     = Some (-1127518651841500928) /\
   Z.min (250 * Millisecond * 2 ^ 36) (4 * Second) = 4 * Second) /\
  (fst (backoff 0 903785878769165607 903785878769165607 world_residue_0)
     = Some 723028703015332480 /\
   10 * 723028703015332480 < 8 * Z.min (903785878769165607 * 2 ^ 0) 903785878769165607 - 10).
Proof. vm_compute. repeat split. Qed.

(** A shift by a count that is not negative does not panic. *)
Lemma shl_nonneg n : 0 <= n -> exists p, Int64.shl 1 n = Some p.
Proof.
  intros H. unfold Int64.shl. destruct (n <? 0) eqn:E; [lia|]. eauto.
Qed.

(** [backoff] on an attempt that is not negative returns a delay and
    advances the random source by one step. *)
Lemma backoff_no_panic n mn mx w :
  0 <= n ->
  exists d, backoff n mn mx w =
            (Some d, mkWorld (Uint64.wrap (lcg w * 2862933555777941757 + 3037000493))
                             (calls w) (defers w) (trace w)).
Proof.
  intros H. unfold backoff, backoff_base.
  destruct (shl_nonneg n H) as [p ->].
  unfold bind, randFloat, ret. eauto.
Qed.

(** ** The wait before a retry *)

Lemma sleepBackoff_run c n w :
  0 <= n ->
  exists d,
    fst (backoff n (minBackoff c) (maxBackoff c) w) = Some d /\
    sleepBackoff c n w =
    (true, mkWorld (Uint64.wrap (lcg w * 2862933555777941757 + 3037000493))
                   (calls w) (defers w) (EvSleep d :: trace w)).
Proof.
  intros H. destruct (backoff_no_panic n (minBackoff c) (maxBackoff c) w H) as [d Hd].
  exists d. rewrite Hd. split; [reflexivity|].
  unfold sleepBackoff, bind. rewrite Hd. reflexivity.
Qed.

(** The waits make no transport call and defer nothing. *)
Lemma sleepBackoff_calls c n w :
  calls (snd (sleepBackoff c n w)) = calls w /\
  defers (snd (sleepBackoff c n w)) = defers w /\
  count_Do (trace (snd (sleepBackoff c n w))) = count_Do (trace w).
Proof.
  unfold sleepBackoff, backoff. cbv beta delta [bind].
  destruct (backoff_base n (minBackoff c) (maxBackoff c)); cbn; auto.
Qed.

Lemma Atoi_empty : Atoi EmptyString = None.
Proof. reflexivity. Qed.

(** A [Retry-After] value that [strconv.Atoi] reads as a positive integer
    [s] makes the retry wait [time.Duration(s) * time.Second], computed in
    [int64]. *)
Lemma sleepRetryAfter_seconds c n res w s :
  Atoi (Header_Get (Header res) "Retry-After") = Some s ->
  0 < s ->
  sleepRetryAfter c n res w =
  (true, mkWorld (lcg w) (calls w) (defers w)
                 (EvSleep (Int64.mul s Second) :: trace w)).
Proof.
  intros Hs Hpos. unfold sleepRetryAfter.
  destruct (Header_Get (Header res) "Retry-After") as [|a ra] eqn:Hra.
  - rewrite Atoi_empty in Hs. discriminate Hs.
  - cbn [String.eqb negb]. rewrite Hs.
    destruct (s >? 0) eqn:E; [reflexivity|].
    rewrite Z.gtb_ltb in E. apply Z.ltb_ge in E. lia.
Qed.

(** Without the header, or with a value that is no integer, zero or
    negative, the wait is the computed back-off. *)
Lemma sleepRetryAfter_backoff c n res w :
  Atoi (Header_Get (Header res) "Retry-After") = None \/
  (exists s, Atoi (Header_Get (Header res) "Retry-After") = Some s /\ s <= 0) ->
  sleepRetryAfter c n res w = sleepBackoff c n w.
Proof.
  intros H. unfold sleepRetryAfter.
  destruct (negb _); [|reflexivity].
  destruct H as [-> | (s & -> & Hs)]; [reflexivity|].
  destruct (s >? 0) eqn:E; [|reflexivity].
  rewrite Z.gtb_ltb in E. apply Z.ltb_lt in E. lia.
Qed.

(** The wait before a retry is one sleep. *)
Lemma sleepRetryAfter_run c n res w :
  0 <= n ->
  exists l d,
    sleepRetryAfter c n res w =
    (true, mkWorld l (calls w) (defers w) (EvSleep d :: trace w)).
Proof.
  intros H. unfold sleepRetryAfter.
  destruct (sleepBackoff_run c n w H) as [d [_ Hd]].
  destruct (negb _); [|eauto].
  destruct (Atoi _) as [secs|]; [|eauto].
  destruct (secs >? 0); [|eauto].
  unfold bind, Sleep, emit, ret. cbn. eauto.
Qed.

Lemma sleepRetryAfter_calls c n res w :
  calls (snd (sleepRetryAfter c n res w)) = calls w /\
  defers (snd (sleepRetryAfter c n res w)) = defers w /\
  count_Do (trace (snd (sleepRetryAfter c n res w))) = count_Do (trace w).
Proof.
  unfold sleepRetryAfter.
  destruct (negb _); [|apply sleepBackoff_calls].
  destruct (Atoi _) as [secs|]; [|apply sleepBackoff_calls].
  destruct (secs >? 0); [|apply sleepBackoff_calls].
  cbn. auto.
Qed.

(** ** The attempt loop *)

Lemma shouldRetry_2xx code : 200 <= code < 300 -> shouldRetry code = false.
Proof.
  intros H. unfold shouldRetry, StatusTooManyRequests.
  destruct (code =? 429) eqn:E1; [lia|].
  destruct (code >=? 500) eqn:E2; [lia|]. reflexivity.
Qed.

Lemma shouldRetry_401_403 code :
  code = 401 \/ code = 403 -> shouldRetry code = false.
Proof. intros [->| ->]; reflexivity. Qed.

(** The loop unfolds into its step. *)
Lemma searchLoop_S P f c url body n :
  searchLoop P (S f) c url body n =
  searchStep P c url body (searchLoop P f c url body) n.
Proof. reflexivity. Qed.

(** A response outside 2xx that is not retried ends the loop: its body is
    read through the 1 MiB limit, decoded, and the status decides the
    error.  No sleep takes place. *)
Lemma searchStep_terminal P c url body k n w res :
  url_error P url = None ->
  roundTrip (http c) (calls w) = Responded res ->
  (StatusCode res <? 200) || (StatusCode res >=? 300) = true ->
  shouldRetry (StatusCode res) && (n <? maxRetries c) = false ->
  searchStep P c url body k n w =
  (Return (Err (statusError (StatusCode res)
                  (json_Unmarshal_APIError P
                     (fst (ReadAll (LimitReader (Body res) (2 ^ 20))))
                     (mkAPIError (StatusCode res) EmptyString [])))),
   mkWorld (lcg w) (S (calls w)) (calls w :: defers w)
           (EvRead (calls w) (Some (2 ^ 20))
              :: EvDo (calls w) (searchRequest c url body) :: trace w)).
Proof.
  intros Hurl Hans Hnon Hre. unfold searchStep, NewRequestWithContext.
  rewrite Hurl. cbv beta delta [bind]. unfold Do at 1. cbn [fst snd].
  rewrite Hans. unfold deferClose at 1. rewrite Hnon.
  unfold readBody. cbv beta delta [bind emit ret].
  cbn [fst snd lcg calls defers trace]. rewrite Hre. reflexivity.
Qed.

(** A 429 or 5xx response to an attempt below the retry count: the body is
    read, the wait follows, and the loop goes on with the next attempt. *)
Lemma searchStep_retry P c url body k n w res :
  url_error P url = None ->
  roundTrip (http c) (calls w) = Responded res ->
  shouldRetry (StatusCode res) = true ->
  n < maxRetries c ->
  searchStep P c url body k n w =
  (ok <- sleepRetryAfter c n res ;;
   if ok : bool then k (Int64.add n 1) else ret Panic)
    (mkWorld (lcg w) (S (calls w)) (calls w :: defers w)
             (EvRead (calls w) (Some (2 ^ 20))
                :: EvDo (calls w) (searchRequest c url body) :: trace w)).
Proof.
  intros Hurl Hans Hsr Hn. unfold searchStep, NewRequestWithContext.
  rewrite Hurl. cbv beta delta [bind]. unfold Do at 1. cbn [fst snd].
  rewrite Hans. unfold deferClose at 1.
  assert (Hnon : (StatusCode res <? 200) || (StatusCode res >=? 300) = true).
  { destruct ((StatusCode res <? 200) || (StatusCode res >=? 300)) eqn:E;
      [reflexivity|].
    apply orb_false_iff in E. destruct E as [E1 E2].
    apply Z.ltb_ge in E1. rewrite Z.geb_leb in E2. apply Z.leb_gt in E2.
    rewrite (shouldRetry_2xx _ (conj E1 E2)) in Hsr. discriminate Hsr. }
  rewrite Hnon. unfold readBody. cbv beta delta [bind emit ret].
  cbn [fst snd lcg calls defers trace]. rewrite Hsr.
  apply Z.ltb_lt in Hn. rewrite Hn. reflexivity.
Qed.

(** More fuel does not change a result. *)
Lemma searchStep_mono P c url body (k1 k2 : Z -> M (outcome SearchResponse)) n w o w' :
  (forall n w o w', k1 n w = (o, w') -> o <> OutOfFuel -> k2 n w = (o, w')) ->
  searchStep P c url body k1 n w = (o, w') -> o <> OutOfFuel ->
  searchStep P c url body k2 n w = (o, w').
Proof.
  intros Hk. unfold searchStep.
  destruct (NewRequestWithContext P "POST" url body) as [rq|e]; [|exact (fun H _ => H)].
  cbv beta delta [bind]. destruct (Do c _ w) as [nr w1].
  destruct (snd nr) as [msg|res].
  - destruct (n <? maxRetries c); [|exact (fun H _ => H)].
    destruct (sleepBackoff c n w1) as [[|] w2]; [|exact (fun H _ => H)].
    apply Hk.
  - destruct (deferClose (fst nr) w1) as [u w2].
    destruct ((StatusCode res <? 200) || (StatusCode res >=? 300));
      [|exact (fun H _ => H)].
    destruct (readBody (fst nr) (Some (2 ^ 20)) (Body res) w2) as [be w3].
    destruct (shouldRetry (StatusCode res) && (n <? maxRetries c));
      [|exact (fun H _ => H)].
    destruct (sleepRetryAfter c n res w3) as [[|] w4]; [|exact (fun H _ => H)].
    apply Hk.
Qed.

Lemma searchLoop_fuel_mono P c url body f : forall n w o w',
  searchLoop P f c url body n w = (o, w') -> o <> OutOfFuel ->
  searchLoop P (S f) c url body n w = (o, w').
Proof.
  induction f as [|f IH]; intros n w o w' Hrun Hne.
  - cbn in Hrun. injection Hrun as <- <-. congruence.
  - rewrite searchLoop_S in Hrun. rewrite searchLoop_S.
    exact (searchStep_mono _ _ _ _ _ _ _ _ _ _ IH Hrun Hne).
Qed.

Lemma searchLoop_fuel_le P c url body f f' n w o w' :
  searchLoop P f c url body n w = (o, w') -> o <> OutOfFuel ->
  (f <= f')%nat ->
  searchLoop P f' c url body n w = (o, w').
Proof.
  intros Hrun Hne Hle. induction Hle as [|m Hle IH]; [exact Hrun|].
  apply searchLoop_fuel_mono; assumption.
Qed.

(** The loop over a valid URL, for a retry count within [int]. *)
Section Loop.
Variable P : Platform.
Variable c : Client.
Variable url : string.
Variable body : list byte.
Hypothesis Hurl : url_error P url = None.
Hypothesis HR : maxRetries c <= Int64.max_int.

(** From attempt [n] the loop returns within [maxRetries - n + 1]
    attempts, given that much fuel: every attempt but the last drew a
    retryable failure, and the last drew something else or was attempt
    [maxRetries]. *)
Lemma searchLoop_run fuel : forall n w,
  0 <= n <= maxRetries c ->
  (Z.to_nat (maxRetries c - n) < fuel)%nat ->
  exists r w',
    searchLoop P fuel c url body n w = (Return r, w') /\
    (calls w < calls w')%nat /\
    Z.of_nat (calls w' - calls w) <= maxRetries c - n + 1 /\
    count_Do (trace w') = (count_Do (trace w) + (calls w' - calls w))%nat /\
    (forall k, (calls w <= k < calls w' - 1)%nat ->
               retryable (roundTrip (http c) k) = true) /\
    (retryable (roundTrip (http c) (calls w' - 1)%nat) = false \/
     Z.of_nat (calls w' - calls w) = maxRetries c - n + 1) /\
    (retryable (roundTrip (http c) (calls w' - 1)%nat) = true -> exists e, r = Err e) /\
    (forall resp, r = Ok resp ->
       exists res, roundTrip (http c) (calls w' - 1)%nat = Responded res /\
                   200 <= StatusCode res < 300 /\
                   Raw resp = body_data (Body res) /\
                   body_err (Body res) = None).
Proof.
  induction fuel as [|f IH]; intros n w Hn Hf; [lia|].
  cbn [searchLoop]. unfold NewRequestWithContext. rewrite Hurl.
  unfold bind at 1. unfold Do at 1. cbn [snd fst].
  destruct (roundTrip (http c) (calls w)) as [msg|res] eqn:Hans.
  - (* transport error *)
    destruct (n <? maxRetries c) eqn:Hlt.
    + apply Z.ltb_lt in Hlt.
      unfold bind at 1.
      match goal with |- context [sleepBackoff c n ?w1] =>
        destruct (sleepBackoff_run c n w1 ltac:(lia)) as [d [_ ->]]
      end.
      unfold Int64.add; rewrite (Int64_wrap_in_range (n + 1))
        by (unfold Int64.in_range, Int64.min_int, Int64.max_int, Int64.half in *; lia).
      match goal with |- context [searchLoop P f c url body (n + 1) ?w2] =>
        destruct (IH (n + 1) w2 ltac:(lia) ltac:(lia))
          as (r & w' & Hrun & Hc & Hb & Hd & Hk & Hl & He & Hok)
      end.
      cbn [calls trace] in *.
      exists r, w'. rewrite Hrun.
      split; [reflexivity|]. split; [lia|]. split; [lia|].
      split; [count_tac|].
      split; [|split; [|split; assumption]].
      * intros k Hk'. destruct (Nat.eq_dec k (calls w)) as [->|Hne].
        -- rewrite Hans. reflexivity.
        -- apply Hk. lia.
      * destruct Hl as [Hl|Hl]; [left; exact Hl|right; lia].
    + apply Z.ltb_ge in Hlt. unfold ret.
      eexists _, _. split; [reflexivity|]. leaf_tac Hans.
      * right. lia.
      * eauto.
  - (* a response *)
    unfold bind at 1. unfold deferClose at 1.
    destruct ((StatusCode res <? 200) || (StatusCode res >=? 300)) eqn:Hnon.
    + unfold bind at 1. unfold readBody at 1. unfold bind at 1, emit at 1, ret at 1.
      cbn [fst snd lcg calls defers trace].
      destruct (shouldRetry (StatusCode res) && (n <? maxRetries c)) eqn:Hre.
      * apply andb_true_iff in Hre. destruct Hre as [Hsr Hlt].
        apply Z.ltb_lt in Hlt.
        unfold bind at 1.
        match goal with |- context [sleepRetryAfter c n res ?w1] =>
          destruct (sleepRetryAfter_run c n res w1 ltac:(lia)) as [l [d ->]]
        end.
        unfold Int64.add; rewrite (Int64_wrap_in_range (n + 1))
          by (unfold Int64.in_range, Int64.min_int, Int64.max_int, Int64.half in *; lia).
        match goal with |- context [searchLoop P f c url body (n + 1) ?w2] =>
          destruct (IH (n + 1) w2 ltac:(lia) ltac:(lia))
            as (r & w' & Hrun & Hc & Hb & Hd & Hk & Hl & He & Hok)
        end.
        cbn [calls trace] in *.
        exists r, w'. rewrite Hrun.
        split; [reflexivity|]. split; [lia|]. split; [lia|].
        split; [count_tac|].
        split; [|split; [|split; assumption]].
        -- intros k Hk'. destruct (Nat.eq_dec k (calls w)) as [->|Hne].
           ++ rewrite Hans. exact Hsr.
           ++ apply Hk. lia.
        -- destruct Hl as [Hl|Hl]; [left; exact Hl|right; lia].
      * unfold ret. eexists _, _. split; [reflexivity|]. leaf_tac Hans.
        -- apply andb_false_iff in Hre. destruct Hre as [Hre|Hre];
             [left; exact Hre|right; apply Z.ltb_ge in Hre; lia].
        -- eauto.
    + apply orb_false_iff in Hnon. destruct Hnon as [H1 H2].
      apply Z.ltb_ge in H1. rewrite Z.geb_leb in H2. apply Z.leb_gt in H2.
      unfold bind at 1. unfold readBody at 1. unfold bind at 1, emit at 1, ret at 1.
      cbn [fst snd lcg calls defers trace ReadAll].
      destruct (body_err (Body res)) as [e|] eqn:Herr; unfold ret;
        (eexists _, _; split; [reflexivity|]); leaf_tac Hans;
        rewrite ?(shouldRetry_2xx _ (conj H1 H2)); try (left; reflexivity);
        try (intros H; discriminate H).
      injection Hresp as <-. exists res. cbn [Raw]. auto.
Qed.
End Loop.

(** Two returns are equal when their results and worlds are. *)
Lemma returned_inv {A} (r1 r2 : result A) (w1 w2 : World) :
  (Return r1, w1) = (Return r2, w2) -> r2 = r1 /\ w2 = w1.
Proof.
  intros H. split.
  - pose proof (f_equal fst H) as H1. cbn [fst] in H1. congruence.
  - exact (eq_sym (f_equal snd H)).
Qed.

(** What a run of the loop that returns has done: at least one attempt,
    one [EvDo] per attempt, and a result that is read off the answer to
    the last attempt, whose body it has read. *)
Lemma searchLoop_inv P c url body :
  url_error P url = None ->
  forall fuel n w r w',
    searchLoop P fuel c url body n w = (Return r, w') ->
    (calls w < calls w')%nat /\
    count_Do (trace w') = (count_Do (trace w) + (calls w' - calls w))%nat /\
    r = lastAnswerResult P (roundTrip (http c) (calls w' - 1)%nat) /\
    (forall e, In e (lastRead (roundTrip (http c) (calls w' - 1)%nat) (calls w' - 1)%nat) ->
               In e (trace w')).
Proof.
  intros Hurl. induction fuel as [|f IH]; intros n w r w' Hrun; [discriminate Hrun|].
  rewrite searchLoop_S in Hrun. unfold searchStep, NewRequestWithContext in Hrun.
  rewrite Hurl in Hrun. cbv beta delta [bind] in Hrun.
  unfold Do at 1 in Hrun. cbn [fst snd] in Hrun.
  destruct (roundTrip (http c) (calls w)) as [msg|res] eqn:Hans.
  - destruct (n <? maxRetries c).
    + match type of Hrun with context [sleepBackoff c n ?w1] =>
        pose proof (sleepBackoff_calls c n w1) as (Hc & _ & Hd);
        destruct (sleepBackoff c n w1) as [[|] w2]; [|discriminate Hrun]
      end.
      cbn [snd calls trace] in Hc, Hd.
      apply IH in Hrun. destruct Hrun as (H1 & H2 & H3 & H4).
      repeat split; try assumption; try lia.
      rewrite H2, Hd. unfold count_Do. cbn [filter is_Do List.length]. lia.
    + unfold ret in Hrun. apply returned_inv in Hrun. destruct Hrun as [-> ->].
      cbn [calls trace].
      replace (S (calls w) - 1)%nat with (calls w) by lia. rewrite Hans.
      repeat split; try lia.
      * unfold count_Do. cbn [filter is_Do List.length]. lia.
      * intros e [].
  - unfold deferClose at 1 in Hrun.
    destruct ((StatusCode res <? 200) || (StatusCode res >=? 300)) eqn:Hnon.
    + unfold readBody in Hrun. cbv beta delta [bind emit ret] in Hrun.
      cbn [fst snd lcg calls defers trace] in Hrun.
      destruct (shouldRetry (StatusCode res) && (n <? maxRetries c)).
      * match type of Hrun with context [sleepRetryAfter c n res ?w1] =>
          pose proof (sleepRetryAfter_calls c n res w1) as (Hc & _ & Hd);
          destruct (sleepRetryAfter c n res w1) as [[|] w2]; [|discriminate Hrun]
        end.
        cbn [snd calls trace] in Hc, Hd.
        apply IH in Hrun. destruct Hrun as (H1 & H2 & H3 & H4).
        repeat split; try assumption; try lia.
        rewrite H2, Hd. unfold count_Do. cbn [filter is_Do List.length]. lia.
      * apply returned_inv in Hrun. destruct Hrun as [-> ->]. cbn [calls trace].
        replace (S (calls w) - 1)%nat with (calls w) by lia. rewrite Hans.
        cbn [lastAnswerResult lastRead]. rewrite Hnon.
        repeat split; try lia.
        -- unfold count_Do. cbn [filter is_Do List.length]. lia.
        -- intros e [<-|[]]. left. reflexivity.
    + unfold readBody in Hrun. cbv beta delta [bind emit ret] in Hrun.
      cbn [fst snd lcg calls defers trace ReadAll] in Hrun.
      assert (Hres : r = lastAnswerResult P (Responded res) /\
                     w' = mkWorld (lcg w) (S (calls w)) (calls w :: defers w)
                            (EvRead (calls w) None :: EvDo (calls w)
                               (Header_Set
                                  (Header_Set
                                     (Header_Set (mkRequest "POST" url [] body)
                                        "Authorization" ("Bearer " ++ apiKey c))
                                     "Content-Type" "application/json")
                                  "User-Agent" (ua c)) :: trace w)).
      { cbn [lastAnswerResult]. rewrite Hnon.
        destruct (body_err (Body res)); apply returned_inv in Hrun;
          destruct Hrun as [-> ->]; auto. }
      destruct Hres as [-> ->]. cbn [calls trace].
      replace (S (calls w) - 1)%nat with (calls w) by lia. rewrite Hans.
      cbn [lastRead]. rewrite Hnon.
      repeat split; try lia.
      * unfold count_Do. cbn [filter is_Do List.length]. lia.
      * intros e [<-|[]]. left. reflexivity.
Qed.

(** ** [Search] *)

Lemma filter_closes (f : Event -> bool) l :
  (forall n, f (EvClose n) = false) ->
  filter f (rev (map EvClose l)) = [].
Proof.
  intros Hf. induction l as [|a l IH]; [reflexivity|].
  cbn [map rev]. rewrite filter_app, IH. cbn [filter app]. rewrite Hf. reflexivity.
Qed.

Lemma count_Do_closes l t : count_Do (rev (map EvClose l) ++ t) = count_Do t.
Proof.
  unfold count_Do. rewrite filter_app, filter_closes; reflexivity.
Qed.

Lemma count_Sleep_closes l t : count_Sleep (rev (map EvClose l) ++ t) = count_Sleep t.
Proof.
  unfold count_Sleep. rewrite filter_app, filter_closes; reflexivity.
Qed.

Lemma count_Read_closes l t : count_Read (rev (map EvClose l) ++ t) = count_Read t.
Proof.
  unfold count_Read. rewrite filter_app, filter_closes; reflexivity.
Qed.

(** The world after a function body with deferred calls. *)
Lemma frame_eq {A} (m : M A) w a w1 :
  m (mkWorld (lcg w) (calls w) [] (trace w)) = (a, w1) ->
  frame m w = (a, mkWorld (lcg w1) (calls w1) (defers w)
                          (rev (map EvClose (defers w1)) ++ trace w1)).
Proof. intros H. unfold frame. rewrite H. reflexivity. Qed.

(** [searchLoop_inv] for [Search]. *)
Lemma Search_returned_inv P c req w fuel r w' :
  Search P fuel c req w = (Return r, w') ->
  (calls w < calls w')%nat ->
  r = lastAnswerResult P (roundTrip (http c) (calls w' - 1)%nat) /\
  (forall e, In e (lastRead (roundTrip (http c) (calls w' - 1)%nat) (calls w' - 1)%nat) ->
             In e (trace w')).
Proof.
  unfold Search.
  destruct (String.eqb (apiKey c) "").
  { intros H Hc. apply returned_inv in H. destruct H as [_ ->]. lia. }
  destruct (json_Marshal_Search P req) as [body|e].
  2:{ intros H Hc. apply returned_inv in H. destruct H as [_ ->]. lia. }
  unfold frame.
  destruct (searchLoop P fuel c (baseURL c ++ "/search") body 0
              (mkWorld (lcg w) (calls w) [] (trace w))) as [o w1] eqn:Hrun.
  intros H Hc.
  assert (Ho : o = Return r) by exact (f_equal fst H).
  assert (Hw : w' = mkWorld (lcg w1) (calls w1) (defers w)
                            (rev (map EvClose (defers w1)) ++ trace w1))
    by exact (eq_sym (f_equal snd H)).
  subst o w'. cbn [calls trace] in *.
  destruct (url_error P (baseURL c ++ "/search")) as [e|] eqn:Hurl.
  - destruct fuel as [|f]; [discriminate Hrun|].
    rewrite searchLoop_S in Hrun. unfold searchStep, NewRequestWithContext in Hrun.
    rewrite Hurl in Hrun. apply returned_inv in Hrun. destruct Hrun as [_ ->].
    cbn [calls] in Hc. lia.
  - destruct (searchLoop_inv P c _ body Hurl _ _ _ _ _ Hrun) as (_ & _ & Hr & Hin).
    split; [exact Hr|]. intros e He. apply in_or_app. right. apply Hin, He.
Qed.

(** With a retry count that is a non-negative [int], [Search] returns, and
    the same result for every fuel above the retry count. *)
Lemma Search_total P c req w :
  0 <= maxRetries c <= Int64.max_int ->
  exists r w',
    forall fuel, (Z.to_nat (maxRetries c) < fuel)%nat ->
                 Search P fuel c req w = (Return r, w').
Proof.
  intros Hrange. unfold Search.
  destruct (String.eqb (apiKey c) ""); [eexists _, _; reflexivity|].
  destruct (json_Marshal_Search P req) as [body|e]; [|eexists _, _; reflexivity].
  destruct (url_error P (baseURL c ++ "/search")) as [e|] eqn:Hurl.
  - exists (Err e), (mkWorld (lcg w) (calls w) (defers w) (trace w)).
    intros [|f] Hf; [lia|]. unfold frame.
    rewrite searchLoop_S. unfold searchStep, NewRequestWithContext.
    rewrite Hurl. reflexivity.
  - destruct (searchLoop_run P c (baseURL c ++ "/search") body Hurl (proj2 Hrange)
                (S (Z.to_nat (maxRetries c))) 0
                (mkWorld (lcg w) (calls w) [] (trace w)) ltac:(lia) ltac:(lia))
      as (r & w1 & Hrun & _).
    exists r, (mkWorld (lcg w1) (calls w1) (defers w)
                       (rev (map EvClose (defers w1)) ++ trace w1)).
    intros fuel Hf. apply frame_eq.
    apply (searchLoop_fuel_le P c _ body (S (Z.to_nat (maxRetries c))) fuel);
      [exact Hrun|discriminate|lia].
Qed.

(** C1: every [Search] call returns, and the same result for every fuel
    above the retry count.  It makes at most [maxRetries+1] transport
    attempts; every attempt but the last drew a retryable failure (a
    transport error, 429 or 5xx); the last attempt drew a success or a
    terminal failure, or it was attempt number [maxRetries]; and a call
    whose last attempt drew a retryable failure returns an error.  With a
    credential, an encodable request and a valid URL there is at least one
    attempt. *)
Theorem Search_terminates_within_retry_budget P c req w :
  0 <= maxRetries c <= Int64.max_int ->
  exists r w',
    (forall fuel, (Z.to_nat (maxRetries c) < fuel)%nat ->
                  Search P fuel c req w = (Return r, w')) /\
    (calls w <= calls w')%nat /\
    count_Do (trace w') = (count_Do (trace w) + (calls w' - calls w))%nat /\
    Z.of_nat (calls w' - calls w) <= maxRetries c + 1 /\
    (forall k, (S k < calls w' - calls w)%nat -> retryable (answer c w k) = true) /\
    (forall k, S k = (calls w' - calls w)%nat ->
               retryable (answer c w k) = false \/ Z.of_nat k = maxRetries c) /\
    (forall k, S k = (calls w' - calls w)%nat ->
               retryable (answer c w k) = true -> exists e, r = Err e) /\
    (apiKey c <> EmptyString ->
     (exists b, json_Marshal_Search P req = Ok b) ->
     url_error P (baseURL c ++ "/search") = None ->
     (calls w < calls w')%nat).
Proof.
  intros Hrange. unfold Search.
  destruct (String.eqb (apiKey c) "") eqn:Hkey.
  { apply String.eqb_eq in Hkey. exists (Err ErrEmptyKey), w.
    split; [reflexivity|]. rewrite Nat.sub_diag.
    repeat split; try lia; intros; try lia; try discriminate; congruence. }
  destruct (json_Marshal_Search P req) as [body|e] eqn:Hm.
  2:{ exists (Err e), w. split; [reflexivity|]. rewrite Nat.sub_diag.
      repeat split; try lia; intros; try lia; try discriminate.
      match goal with H : exists _, _ |- _ => destruct H; discriminate end. }
  destruct (url_error P (baseURL c ++ "/search")) as [e|] eqn:Hurl.
  - exists (Err e), (mkWorld (lcg w) (calls w) (defers w) (trace w)).
    split.
    + intros [|f] Hf; [lia|]. unfold frame.
      rewrite searchLoop_S. unfold searchStep, NewRequestWithContext.
      rewrite Hurl. reflexivity.
    + cbn [calls trace]. rewrite Nat.sub_diag.
      repeat split; try lia; intros; try lia; try discriminate.
  - destruct (searchLoop_run P c (baseURL c ++ "/search") body Hurl (proj2 Hrange)
                (S (Z.to_nat (maxRetries c))) 0
                (mkWorld (lcg w) (calls w) [] (trace w)) ltac:(lia) ltac:(lia))
      as (r & w1 & Hrun & Hc & Hb & Hd & Hk & Hl & He & Hok).
    cbn [calls trace] in *.
    exists r, (mkWorld (lcg w1) (calls w1) (defers w)
                       (rev (map EvClose (defers w1)) ++ trace w1)).
    split.
    + intros fuel Hf. apply frame_eq.
      apply (searchLoop_fuel_le P c _ body (S (Z.to_nat (maxRetries c))) fuel);
        [exact Hrun|discriminate|lia].
    + cbn [calls trace]. rewrite count_Do_closes.
      repeat split; try lia.
      * intros k Hk'. unfold answer. apply Hk. lia.
      * intros k Hk'. unfold answer.
        replace (calls w + k)%nat with (calls w1 - 1)%nat by lia.
        destruct Hl as [Hl|Hl]; [left; exact Hl|right; lia].
      * intros k Hk'. unfold answer.
        replace (calls w + k)%nat with (calls w1 - 1)%nat by lia. exact He.
Qed.

(** C1 at a transport that answers 502 three times, retry count 2. *)
Lemma Search_terminates_within_retry_budget_witness :
  let c := testClient net_gateway_down in
  0 <= maxRetries c <= Int64.max_int /\
  exists r w',
    (forall fuel, (Z.to_nat (maxRetries c) < fuel)%nat ->
                  Search refPlatform fuel c exampleSearch world0 = (Return r, w')) /\
    (calls world0 <= calls w')%nat /\
    count_Do (trace w') = (count_Do (trace world0) + (calls w' - calls world0))%nat /\
    Z.of_nat (calls w' - calls world0) <= maxRetries c + 1 /\
    (forall k, (S k < calls w' - calls world0)%nat -> retryable (answer c world0 k) = true) /\
    (forall k, S k = (calls w' - calls world0)%nat ->
               retryable (answer c world0 k) = false \/ Z.of_nat k = maxRetries c) /\
    (forall k, S k = (calls w' - calls world0)%nat ->
               retryable (answer c world0 k) = true -> exists e, r = Err e) /\
    (apiKey c <> EmptyString ->
     (exists b, json_Marshal_Search refPlatform exampleSearch = Ok b) ->
     url_error refPlatform (baseURL c ++ "/search") = None ->
     (calls world0 < calls w')%nat).
Proof.
  intros c.
  assert (H : 0 <= maxRetries c <= Int64.max_int) by (vm_compute; split; discriminate).
  split; [exact H|].
  exact (Search_terminates_within_retry_budget refPlatform c exampleSearch world0 H).
Defined.

(** C2: when the transport answers every attempt with 401, [Search]
    returns [ErrUnauthorized] after exactly one transport attempt and no
    sleep, whatever the retry count; with 403 it returns [ErrForbidden] in
    the same way. *)
Theorem Search_unauthorized_forbidden_once P c req w fuel body code :
  apiKey c <> EmptyString ->
  json_Marshal_Search P req = Ok body ->
  url_error P (baseURL c ++ "/search") = None ->
  (0 < fuel)%nat ->
  code = 401 \/ code = 403 ->
  (forall n, exists res, roundTrip (http c) n = Responded res /\ StatusCode res = code) ->
  fst (Search P fuel c req w) =
    Return (Err (if code =? 401 then ErrUnauthorized else ErrForbidden)) /\
  calls (snd (Search P fuel c req w)) = S (calls w) /\
  count_Do (trace (snd (Search P fuel c req w))) = S (count_Do (trace w)) /\
  count_Sleep (trace (snd (Search P fuel c req w))) = count_Sleep (trace w).
Proof.
  intros Hkey Hm Hurl Hf Hcode Hall.
  destruct (Hall (calls w)) as (res & Hans & Hst).
  destruct fuel as [|f]; [lia|].
  unfold Search. apply String.eqb_neq in Hkey. rewrite Hkey, Hm.
  unfold frame. rewrite searchLoop_S.
  rewrite (searchStep_terminal P c _ body _ 0
             (mkWorld (lcg w) (calls w) [] (trace w)) res Hurl Hans).
  - cbn [fst snd calls trace lcg defers map rev app].
    rewrite Hst. unfold statusError, StatusUnauthorized, StatusForbidden.
    split; [destruct Hcode as [-> | ->]; reflexivity|].
    split; [reflexivity|]. split; reflexivity.
  - rewrite Hst. destruct Hcode as [-> | ->]; reflexivity.
  - rewrite Hst, (shouldRetry_401_403 _ Hcode). reflexivity.
Qed.

(** C2 at a transport that always answers 401. *)
Lemma Search_unauthorized_forbidden_once_witness :
  let c := testClient net_unauthorized in
  let run := Search refPlatform 1 c exampleSearch world0 in
  (forall n, exists res, roundTrip (http c) n = Responded res /\ StatusCode res = 401) /\
  fst run = Return (Err (if 401 =? 401 then ErrUnauthorized else ErrForbidden)) /\
  calls (snd run) = S (calls world0) /\
  count_Do (trace (snd run)) = S (count_Do (trace world0)) /\
  count_Sleep (trace (snd run)) = count_Sleep (trace world0).
Proof.
  intros c run.
  assert (Hall : forall n, exists res,
             roundTrip (http c) n = Responded res /\ StatusCode res = 401).
  { intros n. eexists. split; reflexivity. }
  split; [exact Hall|].
  apply (Search_unauthorized_forbidden_once refPlatform c exampleSearch world0 1%nat
           (JSON.object
              [JSON.member "q" (JSON.quote "x");
               JSON.member "depth" (JSON.quote DepthStandard);
               JSON.member "outputType" (JSON.quote OutputSearchResults)])
           401).
  - vm_compute. discriminate.
  - vm_compute. reflexivity.
  - reflexivity.
  - lia.
  - left. reflexivity.
  - exact Hall.
Defined.

(** C3: a 429 response with [Retry-After: 9223372037] to attempt 0 of a
    client with retry count 2.  The header reads as the positive integer
    9223372037, the product with [time.Second] wraps around in [int64], and
    the call sleeps a negative duration instead of 9223372037 seconds. *)
Theorem Search_retry_after_overflows :
  let c := testClient net_retry_after_huge in
  let w' := snd (Search refPlatform 3 c exampleSearch world0) in
  answer c world0 0 = respond 429 [("Retry-After", "9223372037")%string] [] /\
  Atoi "9223372037" = Some 9223372037 /\
  0 < maxRetries c /\
  filter is_Sleep (trace w') = [EvSleep (-9223372036709551616)] /\
  9223372037 * Second <> -9223372036709551616 /\
  count_Do (trace w') = 2%nat.
Proof. vm_compute. repeat split; discriminate. Qed.

(** C6: every payload [Search] returns is the body of the 2xx response to
    its last attempt, byte for byte, read to its end without an error;
    and a 2xx response to the first attempt, read without an error, is
    returned as it is. *)
Theorem Search_success_payload_verbatim P c req w fuel :
  (forall resp w',
     Search P fuel c req w = (Return (Ok resp), w') ->
     (calls w < calls w')%nat /\
     exists res,
       roundTrip (http c) (calls w' - 1)%nat = Responded res /\
       200 <= StatusCode res < 300 /\
       body_err (Body res) = None /\
       RawJSON resp = body_data (Body res)) /\
  (forall res body,
     apiKey c <> EmptyString ->
     json_Marshal_Search P req = Ok body ->
     url_error P (baseURL c ++ "/search") = None ->
     (0 < fuel)%nat ->
     answer c w 0 = Responded res ->
     200 <= StatusCode res < 300 ->
     body_err (Body res) = None ->
     fst (Search P fuel c req w) = Return (Ok (mkSearchResponse (body_data (Body res))))).
Proof.
  split.
  - intros resp w' Hrun.
    assert (Hc : (calls w < calls w')%nat).
    { revert Hrun. unfold Search.
      destruct (String.eqb (apiKey c) ""); [discriminate|].
      destruct (json_Marshal_Search P req) as [body|e]; [|discriminate].
      unfold frame.
      destruct (searchLoop P fuel c (baseURL c ++ "/search") body 0
                  (mkWorld (lcg w) (calls w) [] (trace w))) as [o w1] eqn:Hl.
      intros H.
      assert (Ho : o = Return (Ok resp)) by exact (f_equal fst H).
      assert (Hw : w' = mkWorld (lcg w1) (calls w1) (defers w)
                                (rev (map EvClose (defers w1)) ++ trace w1))
        by exact (eq_sym (f_equal snd H)).
      subst o w'. cbn [calls].
      destruct (url_error P (baseURL c ++ "/search")) as [e|] eqn:Hurl.
      - destruct fuel as [|f]; [discriminate Hl|].
        rewrite searchLoop_S in Hl. unfold searchStep, NewRequestWithContext in Hl.
        rewrite Hurl in Hl. apply returned_inv in Hl. destruct Hl as [Hl _].
        discriminate Hl.
      - destruct (searchLoop_inv P c _ body Hurl _ _ _ _ _ Hl) as (H1 & _).
        exact H1. }
    split; [exact Hc|].
    destruct (Search_returned_inv P c req w fuel _ _ Hrun Hc) as [Hr _].
    destruct (roundTrip (http c) (calls w' - 1)%nat) as [msg|res]; [discriminate Hr|].
    cbn [lastAnswerResult] in Hr.
    destruct ((StatusCode res <? 200) || (StatusCode res >=? 300)) eqn:Hnon;
      [discriminate Hr|].
    destruct (body_err (Body res)) eqn:Herr; [discriminate Hr|].
    exists res. apply orb_false_iff in Hnon. destruct Hnon as [H1 H2].
    apply Z.ltb_ge in H1. rewrite Z.geb_leb in H2. apply Z.leb_gt in H2.
    repeat split; try assumption.
    assert (resp = mkSearchResponse (body_data (Body res))) by congruence.
    subst resp. reflexivity.
  - intros res body Hkey Hm Hurl Hf Hans [H1 H2] Herr.
    destruct fuel as [|f]; [lia|].
    unfold Search. apply String.eqb_neq in Hkey. rewrite Hkey, Hm.
    unfold frame. rewrite searchLoop_S. unfold searchStep, NewRequestWithContext.
    rewrite Hurl. cbv beta delta [bind Do deferClose readBody emit ret].
    cbn [fst snd calls lcg trace defers ReadAll].
    unfold answer in Hans. rewrite Nat.add_0_r in Hans. rewrite Hans.
    replace ((StatusCode res <? 200) || (StatusCode res >=? 300)) with false.
    + rewrite Herr. reflexivity.
    + symmetry. apply orb_false_iff. split; [apply Z.ltb_ge; lia|].
      rewrite Z.geb_leb. apply Z.leb_gt. lia.
Qed.

(** C6 at a transport that answers 200 with a body. *)
Lemma Search_success_payload_verbatim_witness :
  let c := testClient net_ok in
  let res := mkResponse 200 [] (mkBody body_bad_param None) in
  answer c world0 0 = Responded res /\
  fst (Search refPlatform 1 c exampleSearch world0)
    = Return (Ok (mkSearchResponse body_bad_param)) /\
  (forall resp w',
     Search refPlatform 1 c exampleSearch world0 = (Return (Ok resp), w') ->
     (calls world0 < calls w')%nat /\
     exists res',
       roundTrip (http c) (calls w' - 1)%nat = Responded res' /\
       200 <= StatusCode res' < 300 /\
       body_err (Body res') = None /\
       RawJSON resp = body_data (Body res')).
Proof.
  intros c res.
  destruct (Search_success_payload_verbatim refPlatform c exampleSearch world0 1%nat)
    as [Hback Hfwd].
  split; [reflexivity|]. split; [|exact Hback].
  apply (Hfwd res (JSON.object
                     [JSON.member "q" (JSON.quote "x");
                      JSON.member "depth" (JSON.quote DepthStandard);
                      JSON.member "outputType" (JSON.quote OutputSearchResults)])).
  - vm_compute. discriminate.
  - vm_compute. reflexivity.
  - reflexivity.
  - lia.
  - reflexivity.
  - cbn [StatusCode res]. lia.
  - reflexivity.
Defined.

(** C7 (amended): [Search] returns, and when its last attempt drew a
    response outside 2xx other than 401 and 403, the call has read the body
    through a 1 MiB limit and decoded that prefix into an [APIError] whose
    status starts as the HTTP status.  It returns the decoded [APIError]
    (with the decoded message and status) when the decoded message is not
    empty, and the plain HTTP status error otherwise. *)
Theorem Search_terminal_error_from_body P c req w :
  0 <= maxRetries c <= Int64.max_int ->
  exists r w',
    (forall fuel, (Z.to_nat (maxRetries c) < fuel)%nat ->
                  Search P fuel c req w = (Return r, w')) /\
    forall res,
      (calls w < calls w')%nat ->
      roundTrip (http c) (calls w' - 1)%nat = Responded res ->
      StatusCode res < 200 \/ 300 <= StatusCode res ->
      StatusCode res <> 401 -> StatusCode res <> 403 ->
      let b := fst (ReadAll (LimitReader (Body res) (2 ^ 20))) in
      let apiErr :=
        json_Unmarshal_APIError P b (mkAPIError (StatusCode res) EmptyString []) in
      b = firstn (Z.to_nat (2 ^ 20)) (body_data (Body res)) /\
      Z.of_nat (List.length b) <= 2 ^ 20 /\
      In (EvRead (calls w' - 1)%nat (Some (2 ^ 20))) (trace w') /\
      (Message apiErr <> EmptyString -> r = Err (ErrAPI apiErr)) /\
      (Message apiErr = EmptyString -> r = Err (ErrHTTP (StatusCode res))).
Proof.
  intros Hrange. destruct (Search_total P c req w Hrange) as (r & w' & Hall).
  exists r, w'. split; [exact Hall|].
  intros res Hc Hans Hst H401 H403 b apiErr.
  pose proof (Hall (S (Z.to_nat (maxRetries c))) ltac:(lia)) as Hrun.
  destruct (Search_returned_inv P c req w _ r w' Hrun Hc) as [Hr Hin].
  rewrite Hans in Hr, Hin. cbn [lastAnswerResult lastRead] in Hr, Hin.
  assert (Hnon : (StatusCode res <? 200) || (StatusCode res >=? 300) = true).
  { apply orb_true_iff. destruct Hst as [Hst|Hst];
      [left; apply Z.ltb_lt; lia|right; rewrite Z.geb_leb; apply Z.leb_le; lia]. }
  rewrite Hnon in Hr, Hin.
  split; [reflexivity|]. split.
  { subst b. cbn [ReadAll LimitReader fst body_data].
    pose proof (firstn_le_length (Z.to_nat (2 ^ 20)) (body_data (Body res))) as Hl.
    apply Nat2Z.inj_le in Hl. rewrite Z2Nat.id in Hl by (apply Z.pow_nonneg; lia).
    exact Hl. }
  split; [apply Hin; left; reflexivity|].
  fold b in Hr. fold apiErr in Hr. unfold statusError in Hr.
  unfold StatusUnauthorized, StatusForbidden in Hr.
  destruct (StatusCode res =? 401) eqn:E1; [apply Z.eqb_eq in E1; contradiction|].
  destruct (StatusCode res =? 403) eqn:E2; [apply Z.eqb_eq in E2; contradiction|].
  split; intros Hmsg.
  - apply String.eqb_neq in Hmsg. rewrite Hmsg in Hr. exact Hr.
  - apply String.eqb_eq in Hmsg. rewrite Hmsg in Hr. exact Hr.
Qed.

(** The amended C7 at the 422 response with body
    [{"message":"bad param"}]: message "bad param", status 422. *)
Lemma Search_terminal_error_from_body_witness :
  let c := testClient net_unprocessable in
  0 <= maxRetries c <= Int64.max_int /\
  answer c world0 0 = respond 422 [] body_bad_param /\
  forall fuel, (2 < fuel)%nat ->
    fst (Search refPlatform fuel c exampleSearch world0)
      = Return (Err (ErrAPI (mkAPIError 422 "bad param" []))).
Proof.
  intros c.
  assert (Hrange : 0 <= maxRetries c <= Int64.max_int)
    by (vm_compute; split; discriminate).
  split; [exact Hrange|]. split; [reflexivity|].
  destruct (Search_terminal_error_from_body refPlatform c exampleSearch world0 Hrange)
    as (r & w' & Hall & Hbody).
  assert (H3 : Search refPlatform 3 c exampleSearch world0 = (Return r, w'))
    by (apply Hall; vm_compute; lia).
  assert (Hw : w' = snd (Search refPlatform 3 c exampleSearch world0))
    by (rewrite H3; reflexivity).
  destruct (Hbody (mkResponse 422 [] (mkBody body_bad_param None)))
    as (_ & _ & _ & Hmsg & _).
  - rewrite Hw. vm_compute. lia.
  - rewrite Hw. vm_compute. reflexivity.
  - right. cbn [StatusCode]. lia.
  - cbn [StatusCode]. lia.
  - cbn [StatusCode]. lia.
  - intros fuel Hf. rewrite (Hall fuel) by (vm_compute; lia). cbn [fst].
    rewrite Hmsg by (vm_compute; discriminate).
    vm_compute. reflexivity.
Defined.

(** C7, as stated, fails: a 422 response whose body is
    [{"status":400,"message":"bad param"}] yields an [APIError] with
    status 400, not the 422 of the response. *)
Lemma Search_error_status_from_body :
  answer (testClient net_unprocessable_status) world0 0
    = respond 422 [] body_status_bad_param /\
  fst (Search refPlatform 1 (testClient net_unprocessable_status) exampleSearch world0)
    = Return (Err (ErrAPI (mkAPIError 400 "bad param" []))) /\
  400 <> 422.
Proof. split; [reflexivity|]. split; [vm_compute; reflexivity|lia]. Qed.

(** C9: on a 401 response [Search] reads the body (through the 1 MiB
    limit) before it returns the sentinel, while [Fetch] returns the same
    sentinel without a read. *)
Theorem Search_reads_body_before_sentinel :
  let c := testClient net_unauthorized in
  let ws := snd (Search refPlatform 1 c exampleSearch world0) in
  let wf := snd (Fetch refPlatform c exampleFetch world0) in
  answer c world0 0 = respond 401 [] body_nope /\
  fst (Search refPlatform 1 c exampleSearch world0) = Return (Err ErrUnauthorized) /\
  trace ws = [EvClose 0; EvRead 0 (Some (2 ^ 20));
              EvDo 0 (searchRequest c (baseURL c ++ "/search")
                        (JSON.object
                           [JSON.member "q" (JSON.quote "x");
                            JSON.member "depth" (JSON.quote DepthStandard);
                            JSON.member "outputType" (JSON.quote OutputSearchResults)]))] /\
  count_Read (trace ws) = 1%nat /\
  fst (Fetch refPlatform c exampleFetch world0) = Err ErrUnauthorized /\
  count_Read (trace wf) = 0%nat.
Proof. vm_compute. repeat split. Qed.

(** ** Calls without a credential; [Fetch] and [GetBalance] *)

(** C5: with an empty credential [Search], [Fetch] and [GetBalance] return
    the configuration error at once and leave the world as it was (no
    transport call, no event); [Fetch] does the same for an empty URL. *)
Theorem empty_credential_is_configuration_error P c fuel sreq freq w :
  (apiKey c = EmptyString ->
   Search P fuel c sreq w = (Return (Err ErrEmptyKey), w) /\
   Fetch P c freq w = (Err ErrEmptyKey, w) /\
   GetBalance P c w = (Err ErrEmptyKey, w) /\
   ConfigurationError ErrEmptyKey) /\
  (FURL freq = EmptyString ->
   exists e, Fetch P c freq w = (Err e, w) /\ ConfigurationError e).
Proof.
  split.
  - intros Hkey. unfold Search, Fetch, GetBalance. rewrite Hkey. cbn [String.eqb].
    repeat split. left. reflexivity.
  - intros Hurl. unfold Fetch. rewrite Hurl.
    destruct (String.eqb (apiKey c) "").
    + exists ErrEmptyKey. split; [reflexivity|left; reflexivity].
    + exists ErrEmptyFetchURL. split; [reflexivity|right; reflexivity].
Qed.

(** C5 at a client without a key and at a fetch request without a URL. *)
Lemma empty_credential_is_configuration_error_witness :
  let freq := mkFetchRequest "" false false false in
  apiKey emptyKeyClient = EmptyString /\
  FURL freq = EmptyString /\
  Search refPlatform 1 emptyKeyClient exampleSearch world0
    = (Return (Err ErrEmptyKey), world0) /\
  Fetch refPlatform emptyKeyClient freq world0 = (Err ErrEmptyKey, world0) /\
  GetBalance refPlatform emptyKeyClient world0 = (Err ErrEmptyKey, world0) /\
  (exists e, Fetch refPlatform (testClient net_ok) freq world0 = (Err e, world0) /\
             ConfigurationError e).
Proof.
  intros freq.
  split; [reflexivity|]. split; [reflexivity|].
  destruct (empty_credential_is_configuration_error refPlatform emptyKeyClient 1%nat
              exampleSearch freq world0) as [Hkey _].
  destruct (Hkey eq_refl) as (H1 & H2 & H3 & _).
  split; [exact H1|]. split; [exact H2|]. split; [exact H3|].
  destruct (empty_credential_is_configuration_error refPlatform (testClient net_ok) 1%nat
              exampleSearch freq world0) as [_ Hurl].
  exact (Hurl eq_refl).
Defined.

(** [Fetch]: at most one transport call, no sleep. *)
Lemma Fetch_one_attempt P c freq w :
  let w' := snd (Fetch P c freq w) in
  (calls w' <= S (calls w))%nat /\
  (count_Do (trace w') <= S (count_Do (trace w)))%nat /\
  count_Sleep (trace w') = count_Sleep (trace w) /\
  (apiKey c <> EmptyString -> FURL freq <> EmptyString ->
   (exists b, json_Marshal_Fetch P freq = Ok b) ->
   url_error P (baseURL c ++ "/fetch") = None ->
   calls w' = S (calls w) /\ count_Do (trace w') = S (count_Do (trace w))).
Proof.
  cbv zeta. unfold Fetch.
  destruct (String.eqb (apiKey c) "") eqn:Hkey.
  { apply String.eqb_eq in Hkey. cbn. repeat split; intros; try lia; congruence. }
  destruct (String.eqb (FURL freq) "") eqn:Hfu.
  { apply String.eqb_eq in Hfu. cbn. repeat split; intros; try lia; congruence. }
  destruct (json_Marshal_Fetch P freq) as [body|e].
  2:{ cbn. repeat split; intros; try lia.
      all: match goal with H : exists _, _ |- _ => destruct H; discriminate end. }
  unfold NewRequestWithContext.
  destruct (url_error P (baseURL c ++ "/fetch")) as [e|].
  { cbn. repeat split; intros; try lia; discriminate. }
  unfold frame. cbv beta delta [bind Do deferClose readBody emit ret].
  cbn [fst snd calls lcg trace defers ReadAll].
  destruct (roundTrip (http c) (calls w)) as [msg|res].
  { cbn [fst snd calls lcg trace defers map rev app]. count_all. }
  destruct (StatusCode res =? StatusUnauthorized);
    [cbn [fst snd calls lcg trace defers map rev app]; count_all|].
  destruct (StatusCode res =? StatusForbidden);
    [cbn [fst snd calls lcg trace defers map rev app]; count_all|].
  destruct ((StatusCode res <? 200) || (StatusCode res >=? 300)).
  - destruct (negb _); cbn [fst snd calls lcg trace defers map rev app]; count_all.
  - destruct (body_err (Body res));
      cbn [fst snd calls lcg trace defers map rev app]; count_all.
Qed.

(** [GetBalance]: at most one transport call, no sleep. *)
Lemma GetBalance_one_attempt P c w :
  let w' := snd (GetBalance P c w) in
  (calls w' <= S (calls w))%nat /\
  (count_Do (trace w') <= S (count_Do (trace w)))%nat /\
  count_Sleep (trace w') = count_Sleep (trace w) /\
  (apiKey c <> EmptyString ->
   url_error P (baseURL c ++ "/credits/balance") = None ->
   calls w' = S (calls w) /\ count_Do (trace w') = S (count_Do (trace w))).
Proof.
  cbv zeta. unfold GetBalance.
  destruct (String.eqb (apiKey c) "") eqn:Hkey.
  { apply String.eqb_eq in Hkey. cbn. repeat split; intros; try lia; congruence. }
  unfold NewRequestWithContext.
  destruct (url_error P (baseURL c ++ "/credits/balance")) as [e|].
  { cbn. repeat split; intros; try lia; discriminate. }
  unfold frame. cbv beta delta [bind Do deferClose readBody emit ret].
  cbn [fst snd calls lcg trace defers ReadAll].
  destruct (roundTrip (http c) (calls w)) as [msg|res].
  { cbn [fst snd calls lcg trace defers map rev app]. count_all. }
  destruct (StatusCode res =? StatusUnauthorized);
    [cbn [fst snd calls lcg trace defers map rev app]; count_all|].
  destruct (StatusCode res =? StatusForbidden);
    [cbn [fst snd calls lcg trace defers map rev app]; count_all|].
  destruct ((StatusCode res <? 200) || (StatusCode res >=? 300)).
  - destruct (negb _); cbn [fst snd calls lcg trace defers map rev app]; count_all.
  - cbn [fst snd calls lcg trace defers map rev app]. count_all.
Qed.

(** C10: [Fetch] and [GetBalance] never sleep and make at most one
    transport attempt, whatever the transport answers (429 and 5xx
    included) and whatever the retry count of the client; they make
    exactly one when the credential, the URL and the request are in
    order. *)
Theorem Fetch_GetBalance_never_retry P c freq w :
  (let w' := snd (Fetch P c freq w) in
   (count_Do (trace w') <= S (count_Do (trace w)))%nat /\
   count_Sleep (trace w') = count_Sleep (trace w) /\
   (apiKey c <> EmptyString -> FURL freq <> EmptyString ->
    (exists b, json_Marshal_Fetch P freq = Ok b) ->
    url_error P (baseURL c ++ "/fetch") = None ->
    calls w' = S (calls w) /\ count_Do (trace w') = S (count_Do (trace w)))) /\
  (let w' := snd (GetBalance P c w) in
   (count_Do (trace w') <= S (count_Do (trace w)))%nat /\
   count_Sleep (trace w') = count_Sleep (trace w) /\
   (apiKey c <> EmptyString ->
    url_error P (baseURL c ++ "/credits/balance") = None ->
    calls w' = S (calls w) /\ count_Do (trace w') = S (count_Do (trace w)))).
Proof.
  split.
  - destruct (Fetch_one_attempt P c freq w) as (_ & H1 & H2 & H3). auto.
  - destruct (GetBalance_one_attempt P c w) as (_ & H1 & H2 & H3). auto.
Qed.

(** C10 at a transport that always answers 503 with [Retry-After: 1],
    retry count 2. *)
Lemma Fetch_GetBalance_never_retry_witness :
  let c := testClient net_unavailable in
  let wf := snd (Fetch refPlatform c exampleFetch world0) in
  let wb := snd (GetBalance refPlatform c world0) in
  maxRetries c = 2 /\
  answer c world0 0 = respond 503 [("Retry-After", "1")%string] [] /\
  (calls wf = 1%nat /\ count_Do (trace wf) = 1%nat /\ count_Sleep (trace wf) = 0%nat) /\
  (calls wb = 1%nat /\ count_Do (trace wb) = 1%nat /\ count_Sleep (trace wb) = 0%nat).
Proof.
  intros c wf wb.
  split; [reflexivity|]. split; [reflexivity|].
  destruct (Fetch_GetBalance_never_retry refPlatform c exampleFetch world0)
    as [(_ & Hs & Hf) (_ & Hs' & Hb)].
  split.
  - destruct Hf as [H1 H2].
    + vm_compute. discriminate.
    + vm_compute. discriminate.
    + eexists. vm_compute. reflexivity.
    + reflexivity.
    + split; [exact H1|]. split; [exact H2|exact Hs].
  - destruct Hb as [H1 H2].
    + vm_compute. discriminate.
    + reflexivity.
    + split; [exact H1|]. split; [exact H2|exact Hs'].
Defined.

(** * Further properties *)

(** ** The events of a run of the loop *)

(** What a wait does to the world: one sleep when it ends well, nothing
    when [backoff] panicked; no transport call and no deferred call. *)
Lemma sleepBackoff_effect c n w ok w1 :
  sleepBackoff c n w = (ok, w1) ->
  calls w1 = calls w /\ defers w1 = defers w /\
  exists d, trace w1 = ((if ok then [EvSleep d] else []) ++ trace w)%list.
Proof.
  unfold sleepBackoff, backoff. cbv beta delta [bind ret].
  destruct (backoff_base n (minBackoff c) (maxBackoff c)) as [d|].
  - unfold randFloat, Sleep, emit. cbn [fst snd]. intros H.
    pose proof (f_equal fst H) as H1. pose proof (f_equal snd H) as H2.
    cbn [fst snd] in H1, H2. subst ok w1. cbn [calls defers trace].
    split; [reflexivity|]. split; [reflexivity|]. eexists. reflexivity.
  - intros H.
    pose proof (f_equal fst H) as H1. pose proof (f_equal snd H) as H2.
    cbn [fst snd] in H1, H2. subst ok w1.
    split; [reflexivity|]. split; [reflexivity|]. exists 0. reflexivity.
Qed.

Lemma sleepRetryAfter_effect c n res w ok w1 :
  sleepRetryAfter c n res w = (ok, w1) ->
  calls w1 = calls w /\ defers w1 = defers w /\
  exists d, trace w1 = ((if ok then [EvSleep d] else []) ++ trace w)%list.
Proof.
  unfold sleepRetryAfter.
  destruct (negb (Header_Get (Header res) "Retry-After" =? "")%string);
    [|apply sleepBackoff_effect].
  destruct (Atoi (Header_Get (Header res) "Retry-After")) as [secs|];
    [|apply sleepBackoff_effect].
  destruct (secs >? 0); [|apply sleepBackoff_effect].
  unfold Sleep, emit. cbv beta delta [bind ret]. intros H.
  pose proof (f_equal fst H) as H1. pose proof (f_equal snd H) as H2.
  cbn [fst snd] in H1, H2. subst ok w1. cbn [calls defers trace].
  split; [reflexivity|]. split; [reflexivity|]. eexists. reflexivity.
Qed.

(** The last iteration of a run: the request, and the read of the
    response if there is one. *)
Lemma loop_events_last c rq w l r :
  loop_events c rq w (Return r)
    (mkWorld l (S (calls w))
       ((if responded c (calls w) then [calls w] else []) ++ defers w)
       (lastRead (roundTrip (http c) (calls w)) (calls w)
          ++ EvDo (calls w) rq :: trace w)).
Proof.
  unfold loop_events. cbn [calls trace defers]. split; [lia|].
  exists (lastRead (roundTrip (http c) (calls w)) (calls w) ++ [EvDo (calls w) rq])%list.
  replace (S (calls w) - calls w)%nat with 1%nat by lia.
  unfold attempts, sent, bodyReads, responded, count_Sleep.
  cbn [seq map flat_map rev app filter].
  rewrite !filter_app. cbn [filter is_Do is_Read is_Close is_Sleep].
  rewrite <- app_assoc.
  destruct (roundTrip (http c) (calls w)) as [msg|res]; cbn [lastRead];
    cbn [filter is_Do is_Read is_Close is_Sleep app rev List.length];
    repeat (split; [reflexivity|]); intros ? _; (split; [lia|reflexivity]).
Qed.

(** An iteration that goes on: the request, the read of the response if
    there is one, a sleep, and the rest of the run. *)
Lemma loop_events_step c rq w l d o w' :
  loop_events c rq
    (mkWorld l (S (calls w))
       ((if responded c (calls w) then [calls w] else []) ++ defers w)
       (EvSleep d :: lastRead (roundTrip (http c) (calls w)) (calls w)
          ++ EvDo (calls w) rq :: trace w)) o w' ->
  loop_events c rq w o w'.
Proof.
  unfold loop_events. cbn [calls trace defers].
  intros (Hle & t & Ht & HDo & HRd & HCl & Hdf & Hret).
  split; [lia|].
  exists (t ++ EvSleep d :: lastRead (roundTrip (http c) (calls w)) (calls w)
            ++ [EvDo (calls w) rq])%list.
  replace (calls w' - calls w)%nat with (S (calls w' - S (calls w))) by lia.
  unfold attempts in *. cbn [seq].
  set (ks := seq (S (calls w)) (calls w' - S (calls w))) in *.
  unfold sent, bodyReads, count_Sleep in *. cbn [map flat_map rev filter].
  rewrite !filter_app, HDo, HRd, HCl.
  split.
  { rewrite Ht. rewrite <- !app_assoc. cbn [app]. rewrite <- app_assoc. reflexivity. }
  unfold responded in *.
  destruct (roundTrip (http c) (calls w)) as [msg|res]; cbn [lastRead] in *;
    cbn [filter is_Do is_Read is_Close is_Sleep app rev List.length];
    rewrite ?app_nil_r, ?rev_app_distr.
  - repeat (split; [first [reflexivity | exact Hdf]|]).
    intros r Hr. destruct (Hret r Hr) as [Hlt Hs]. split; [lia|].
    rewrite length_app, Hs. cbn [List.length]. lia.
  - split; [reflexivity|]. split; [reflexivity|]. split; [reflexivity|].
    split; [rewrite Hdf, <- app_assoc; reflexivity|].
    intros r Hr. destruct (Hret r Hr) as [Hlt Hs]. split; [lia|].
    rewrite length_app, Hs. cbn [List.length]. lia.
Qed.

(** An iteration that ends in the panic of [backoff]. *)
Lemma loop_events_panic c rq w l :
  loop_events c rq w Panic
    (mkWorld l (S (calls w))
       ((if responded c (calls w) then [calls w] else []) ++ defers w)
       (lastRead (roundTrip (http c) (calls w)) (calls w)
          ++ EvDo (calls w) rq :: trace w)).
Proof.
  destruct (loop_events_last c rq w l (Err ErrEmptyKey)) as (Hle & t & H).
  split; [exact Hle|]. exists t.
  destruct H as (H1 & H2 & H3 & H4 & H5 & _).
  repeat (split; [assumption|]). intros r Hr. discriminate Hr.
Qed.

Lemma searchLoop_events P c url body :
  url_error P url = None ->
  forall fuel n w o w',
    searchLoop P fuel c url body n w = (o, w') ->
    loop_events c (searchRequest c url body) w o w'.
Proof.
  intros Hurl. induction fuel as [|f IH]; intros n w o w' Hrun.
  { cbn [searchLoop] in Hrun. unfold ret in Hrun.
    pose proof (f_equal fst Hrun) as H1. pose proof (f_equal snd Hrun) as H2.
    cbn [fst snd] in H1, H2. subst o w'. split; [lia|]. exists [].
    rewrite Nat.sub_diag. cbn.
    repeat (split; [reflexivity|]). intros r Hr. discriminate Hr. }
  rewrite searchLoop_S in Hrun. unfold searchStep, NewRequestWithContext in Hrun.
  rewrite Hurl in Hrun. cbv beta delta [bind] in Hrun.
  unfold Do at 1 in Hrun. cbn [fst snd] in Hrun.
  fold (searchRequest c url body) in Hrun.
  set (rq := searchRequest c url body) in *.
  pose proof (fun l => loop_events_last c rq w l) as Hlast.
  pose proof (loop_events_panic c rq w) as Hpanic.
  pose proof (fun l d => loop_events_step c rq w l d o w') as Hstep.
  assert (Hnext : forall (ok : bool) w2 tr ds,
            calls w2 = S (calls w) -> defers w2 = ds ->
            (exists d, trace w2 = ((if ok then [EvSleep d] else []) ++ tr)%list) ->
            (forall l d, loop_events c rq (mkWorld l (S (calls w)) ds (EvSleep d :: tr)) o w' ->
                         loop_events c rq w o w') ->
            (forall l, loop_events c rq w Panic (mkWorld l (S (calls w)) ds tr)) ->
            (if ok then searchLoop P f c url body (Int64.add n 1) else ret Panic) w2
              = (o, w') ->
            loop_events c rq w o w').
  { intros ok w2 tr ds Hc Hd [d Ht] Hs Hp H.
    destruct w2 as [l2 c2 d2 t2]. cbn [lcg calls defers trace] in *. subst c2 d2 t2.
    destruct ok.
    - apply IH in H. apply (Hs l2 d). exact H.
    - unfold ret in H.
      pose proof (f_equal fst H) as H1. pose proof (f_equal snd H) as H2.
      cbn [fst snd] in H1, H2. subst o w'. apply Hp. }
  unfold responded in Hlast, Hpanic, Hstep.
  destruct (roundTrip (http c) (calls w)) as [msg|res] eqn:Hans.
  - cbn [lastRead app] in Hlast, Hpanic, Hstep.
    destruct (n <? maxRetries c).
    + match type of Hrun with context [sleepBackoff c n ?w1] =>
        destruct (sleepBackoff c n w1) as [ok w2] eqn:Hs;
        apply sleepBackoff_effect in Hs; destruct Hs as (Hc & Hd & Ht)
      end.
      cbn [calls defers trace] in Hc, Hd, Ht.
      exact (Hnext ok w2 _ _ Hc Hd Ht Hstep Hpanic Hrun).
    + unfold ret in Hrun.
      pose proof (f_equal fst Hrun) as H1. pose proof (f_equal snd Hrun) as H2.
      cbn [fst snd] in H1, H2. subst o w'. apply Hlast.
  - unfold deferClose at 1 in Hrun. cbn [lastRead app] in Hlast, Hpanic, Hstep.
    destruct ((StatusCode res <? 200) || (StatusCode res >=? 300)) eqn:Hnon.
    + unfold readBody in Hrun. cbv beta delta [bind emit ret] in Hrun.
      cbn [fst snd lcg calls defers trace] in Hrun.
      destruct (shouldRetry (StatusCode res) && (n <? maxRetries c)).
      * match type of Hrun with context [sleepRetryAfter c n res ?w1] =>
          destruct (sleepRetryAfter c n res w1) as [ok w2] eqn:Hs;
          apply sleepRetryAfter_effect in Hs; destruct Hs as (Hc & Hd & Ht)
        end.
        cbn [calls defers trace] in Hc, Hd, Ht.
        exact (Hnext ok w2 _ _ Hc Hd Ht Hstep Hpanic Hrun).
      * pose proof (f_equal fst Hrun) as H1. pose proof (f_equal snd Hrun) as H2.
        cbn [fst snd] in H1, H2. subst o w'. apply Hlast.
    + unfold readBody in Hrun. cbv beta delta [bind emit ret] in Hrun.
      cbn [fst snd lcg calls defers trace ReadAll] in Hrun.
      destruct (body_err (Body res));
        pose proof (f_equal fst Hrun) as H1; pose proof (f_equal snd Hrun) as H2;
        cbn [fst snd] in H1, H2; subst o w'; apply Hlast.
Qed.

(** A wait is one sleep of a duration that fits the answer. *)
Lemma sleepBackoff_wait c n w w1 rt :
  retryAfterSeconds rt = None ->
  sleepBackoff c n w = (true, w1) ->
  exists d, trace w1 = EvSleep d :: trace w /\ waitAfter c n rt d.
Proof.
  intros Hra. unfold sleepBackoff. cbv beta delta [bind ret].
  destruct (backoff n (minBackoff c) (maxBackoff c) w) as [[d|] w2] eqn:Hb.
  - unfold Sleep, emit. intros H.
    pose proof (f_equal snd H) as H2. cbn [snd] in H2. subst w1.
    exists d. cbn [trace]. split.
    + f_equal. unfold backoff in Hb.
      destruct (backoff_base n (minBackoff c) (maxBackoff c)); cbv beta delta [bind ret] in Hb.
      * unfold randFloat in Hb. pose proof (f_equal snd Hb) as H2. cbn [snd] in H2.
        subst w2. reflexivity.
      * discriminate (f_equal fst Hb).
    + unfold waitAfter. rewrite Hra. exists w. rewrite Hb. reflexivity.
  - intros H. discriminate (f_equal fst H).
Qed.

Lemma sleepRetryAfter_wait c n res w w1 :
  sleepRetryAfter c n res w = (true, w1) ->
  exists d, trace w1 = EvSleep d :: trace w /\ waitAfter c n (Responded res) d.
Proof.
  unfold sleepRetryAfter.
  destruct (negb (Header_Get (Header res) "Retry-After" =? "")%string) eqn:Hne.
  2:{ apply sleepBackoff_wait. cbn [retryAfterSeconds].
      apply negb_false_iff, String.eqb_eq in Hne. rewrite Hne, Atoi_empty. reflexivity. }
  destruct (Atoi (Header_Get (Header res) "Retry-After")) as [secs|] eqn:Ha.
  2:{ apply sleepBackoff_wait. cbn [retryAfterSeconds]. rewrite Ha. reflexivity. }
  destruct (secs >? 0) eqn:Hpos.
  2:{ apply sleepBackoff_wait. cbn [retryAfterSeconds]. rewrite Ha, Hpos. reflexivity. }
  unfold Sleep, emit. cbv beta delta [bind ret]. intros H.
  pose proof (f_equal snd H) as H2. cbn [snd] in H2. subst w1. cbn [trace].
  eexists. split; [reflexivity|].
  unfold waitAfter. cbn [retryAfterSeconds]. rewrite Ha, Hpos. reflexivity.
Qed.

Lemma waits_app t1 t2 : waits (t1 ++ t2) = (waits t2 ++ waits t1)%list.
Proof. unfold waits. rewrite filter_app, map_app, rev_app_distr. reflexivity. Qed.

(** The waits of a run of the loop follow the answers it drew. *)
Lemma searchLoop_waits P c url body :
  url_error P url = None ->
  forall fuel n w o w',
    searchLoop P fuel c url body n w = (o, w') ->
    exists t, trace w' = (t ++ trace w)%list /\ waits_ok c n (calls w) (waits t).
Proof.
  intros Hurl. induction fuel as [|f IH]; intros n w o w' Hrun.
  { cbn [searchLoop] in Hrun. unfold ret in Hrun.
    pose proof (f_equal snd Hrun) as H2. cbn [snd] in H2. subst w'.
    exists []. split; [reflexivity|exact I]. }
  rewrite searchLoop_S in Hrun. unfold searchStep, NewRequestWithContext in Hrun.
  rewrite Hurl in Hrun. cbv beta delta [bind] in Hrun.
  unfold Do at 1 in Hrun. cbn [fst snd] in Hrun.
  fold (searchRequest c url body) in Hrun.
  set (rq := searchRequest c url body) in *.
  assert (Hlast : forall o1 l ds tr,
            filter is_Sleep tr = [] ->
            (o1, mkWorld l (S (calls w)) ds (tr ++ trace w)%list) = (o, w') ->
            exists t, trace w' = (t ++ trace w)%list /\ waits_ok c n (calls w) (waits t)).
  { intros o1 l ds tr Htr H. pose proof (f_equal snd H) as H2. cbn [snd] in H2. subst w'.
    exists tr. split; [reflexivity|]. unfold waits. rewrite Htr. exact I. }
  assert (Hnext : forall (ok : bool) w1 w2 tr,
            filter is_Sleep tr = [] ->
            calls w1 = S (calls w) -> trace w1 = (tr ++ trace w)%list ->
            calls w2 = calls w1 ->
            (exists d, trace w2 = ((if ok then [EvSleep d] else []) ++ trace w1)%list) ->
            (ok = true -> exists d, trace w2 = EvSleep d :: trace w1 /\
                                    waitAfter c n (roundTrip (http c) (calls w)) d) ->
            (if ok then searchLoop P f c url body (Int64.add n 1) else ret Panic) w2
              = (o, w') ->
            exists t, trace w' = (t ++ trace w)%list /\ waits_ok c n (calls w) (waits t)).
  { intros ok w1 w2 tr Htr Hc1 Ht1 Hc2 [d0 Ht0] Hw H. destruct ok.
    - destruct (Hw eq_refl) as (d & Ht2 & Hd).
      apply IH in H. destruct H as (t & Ht & Hok).
      exists (t ++ EvSleep d :: tr)%list. split.
      + rewrite Ht, Ht2, Ht1, <- app_assoc. reflexivity.
      + rewrite waits_app. unfold waits at 1. cbn [filter is_Sleep map sleep_duration].
        rewrite Htr. cbn [map rev app waits_ok]. split; [exact Hd|].
        rewrite Hc2, Hc1 in Hok. exact Hok.
    - unfold ret in H. pose proof (f_equal snd H) as H2. cbn [snd] in H2. subst w'.
      exists tr. split; [rewrite Ht0, Ht1; reflexivity|].
      unfold waits. rewrite Htr. exact I. }
  destruct (roundTrip (http c) (calls w)) as [msg|res] eqn:Hans.
  - destruct (n <? maxRetries c).
    + match type of Hrun with context [sleepBackoff c n ?w1] =>
        destruct (sleepBackoff c n w1) as [ok w2] eqn:Hs;
        pose proof (sleepBackoff_effect _ _ _ _ _ Hs) as (Hc & _ & Ht);
        apply (Hnext ok w1 w2 [EvDo (calls w) rq]); try assumption; try reflexivity
      end.
      intros ->. apply (sleepBackoff_wait _ _ _ _ (TransportErr msg)) in Hs;
        [exact Hs|reflexivity].
    + unfold ret in Hrun. apply (Hlast _ _ _ [EvDo (calls w) rq] eq_refl Hrun).
  - unfold deferClose at 1 in Hrun.
    destruct ((StatusCode res <? 200) || (StatusCode res >=? 300)) eqn:Hnon.
    + unfold readBody in Hrun. cbv beta delta [bind emit ret] in Hrun.
      cbn [fst snd lcg calls defers trace] in Hrun.
      destruct (shouldRetry (StatusCode res) && (n <? maxRetries c)).
      * match type of Hrun with context [sleepRetryAfter c n res ?w1] =>
          destruct (sleepRetryAfter c n res w1) as [ok w2] eqn:Hs;
          pose proof (sleepRetryAfter_effect _ _ _ _ _ _ Hs) as (Hc & _ & Ht);
          apply (Hnext ok w1 w2 [EvRead (calls w) (Some (2 ^ 20)); EvDo (calls w) rq]);
            try assumption; try reflexivity
        end.
        intros ->. apply sleepRetryAfter_wait in Hs. exact Hs.
      * apply (Hlast _ _ _ [EvRead (calls w) (Some (2 ^ 20)); EvDo (calls w) rq] eq_refl Hrun).
    + unfold readBody in Hrun. cbv beta delta [bind emit ret] in Hrun.
      cbn [fst snd lcg calls defers trace ReadAll] in Hrun.
      destruct (body_err (Body res));
        apply (Hlast _ _ _ [EvRead (calls w) None; EvDo (calls w) rq] eq_refl Hrun).
Qed.

(** ** The events of a [Search] call *)

(** Everything the development knows of a [Search] call with a retry count
    that is a non-negative [int]: it returns; [t] are the events of its
    loop, after which the deferred closes run. *)
Lemma Search_run P c req w :
  0 <= maxRetries c <= Int64.max_int ->
  exists r w' t,
    (forall fuel, (Z.to_nat (maxRetries c) < fuel)%nat ->
                  Search P fuel c req w = (Return r, w')) /\
    (calls w <= calls w')%nat /\
    defers w' = defers w /\
    trace w' = (bodyCloses c (attempts (calls w) (calls w' - calls w)) ++ t ++ trace w)%list /\
    filter is_Close t = [] /\
    filter is_Read t = bodyReads c (attempts (calls w) (calls w' - calls w)) /\
    (forall body, json_Marshal_Search P req = Ok body ->
       filter is_Do t = sent (searchRequest c (baseURL c ++ "/search") body)
                             (attempts (calls w) (calls w' - calls w))) /\
    count_Sleep t = (calls w' - calls w - 1)%nat /\
    waits_ok c 0 (calls w) (waits t) /\
    Z.of_nat (calls w' - calls w) <= maxRetries c + 1 /\
    (forall k, (S k < calls w' - calls w)%nat -> retryable (answer c w k) = true) /\
    (forall k, S k = (calls w' - calls w)%nat ->
               (retryable (answer c w k) = false \/ Z.of_nat k = maxRetries c) /\
               r = lastAnswerResult P (answer c w k)) /\
    (calls w' = calls w -> t = []) /\
    (apiKey c <> EmptyString ->
     (exists b, json_Marshal_Search P req = Ok b) ->
     url_error P (baseURL c ++ "/search") = None ->
     (calls w < calls w')%nat).
Proof.
  intros Hrange.
  assert (Hnone : forall e w0,
            calls w0 = calls w -> defers w0 = defers w -> trace w0 = trace w ->
            (forall fuel, (Z.to_nat (maxRetries c) < fuel)%nat ->
                          Search P fuel c req w = (Return (Err e), w0)) ->
            (apiKey c <> EmptyString ->
             (exists b, json_Marshal_Search P req = Ok b) ->
             url_error P (baseURL c ++ "/search") = None -> False) ->
            exists r w' t,
              (forall fuel, (Z.to_nat (maxRetries c) < fuel)%nat ->
                            Search P fuel c req w = (Return r, w')) /\
              (calls w <= calls w')%nat /\
              defers w' = defers w /\
              trace w' = (bodyCloses c (attempts (calls w) (calls w' - calls w)) ++ t ++ trace w)%list /\
              filter is_Close t = [] /\
              filter is_Read t = bodyReads c (attempts (calls w) (calls w' - calls w)) /\
              (forall body, json_Marshal_Search P req = Ok body ->
                 filter is_Do t = sent (searchRequest c (baseURL c ++ "/search") body)
                                       (attempts (calls w) (calls w' - calls w))) /\
              count_Sleep t = (calls w' - calls w - 1)%nat /\
              waits_ok c 0 (calls w) (waits t) /\
              Z.of_nat (calls w' - calls w) <= maxRetries c + 1 /\
              (forall k, (S k < calls w' - calls w)%nat -> retryable (answer c w k) = true) /\
              (forall k, S k = (calls w' - calls w)%nat ->
                         (retryable (answer c w k) = false \/ Z.of_nat k = maxRetries c) /\
                         r = lastAnswerResult P (answer c w k)) /\
              (calls w' = calls w -> t = []) /\
              (apiKey c <> EmptyString ->
               (exists b, json_Marshal_Search P req = Ok b) ->
               url_error P (baseURL c ++ "/search") = None ->
               (calls w < calls w')%nat)).
  { intros e w0 Hc Hd Ht Hall Hno. exists (Err e), w0, [].
    rewrite Hc, Hd, Ht, Nat.sub_diag. cbn.
    split; [exact Hall|].
    repeat split; try reflexivity; try lia; intros; try lia.
    exfalso. apply Hno; assumption. }
  destruct (String.eqb (apiKey c) "") eqn:Hkey.
  { apply String.eqb_eq in Hkey. apply (Hnone ErrEmptyKey w); try reflexivity.
    - intros fuel _. unfold Search. rewrite Hkey. reflexivity.
    - intros H _ _. apply H, Hkey. }
  destruct (json_Marshal_Search P req) as [body|e] eqn:Hm.
  2:{ apply (Hnone e w); try reflexivity.
      - intros fuel _. unfold Search. rewrite Hkey, Hm. reflexivity.
      - intros _ [b Hb] _. discriminate Hb. }
  destruct (url_error P (baseURL c ++ "/search")) as [e|] eqn:Hurl.
  { apply (Hnone e (mkWorld (lcg w) (calls w) (defers w) (trace w))); try reflexivity.
    - intros [|f] Hf; [lia|]. unfold Search. rewrite Hkey, Hm. unfold frame.
      rewrite searchLoop_S. unfold searchStep, NewRequestWithContext.
      rewrite Hurl. reflexivity.
    - intros _ _ H. discriminate H. }
  clear Hnone.
  destruct (searchLoop_run P c (baseURL c ++ "/search") body Hurl (proj2 Hrange)
              (S (Z.to_nat (maxRetries c))) 0
              (mkWorld (lcg w) (calls w) [] (trace w)) ltac:(lia) ltac:(lia))
    as (r & w1 & Hrun & Hc & Hb & _ & Hk & Hl & _).
  destruct (searchLoop_inv P c _ body Hurl _ _ _ _ _ Hrun) as (_ & _ & Hr & _).
  destruct (searchLoop_events P c _ body Hurl _ _ _ _ _ Hrun)
    as (_ & t & Ht & HDo & HRd & HCl & Hdf & Hret).
  destruct (searchLoop_waits P c _ body Hurl _ _ _ _ _ Hrun) as (t' & Ht' & Hw).
  assert (t' = t) by (apply (app_inv_tail (trace (mkWorld (lcg w) (calls w) [] (trace w))));
                      congruence).
  subst t'. destruct (Hret r eq_refl) as [_ Hs].
  cbn [calls trace defers] in *. rewrite app_nil_r in Hdf.
  exists r, (mkWorld (lcg w1) (calls w1) (defers w)
                     (rev (map EvClose (defers w1)) ++ trace w1)), t.
  cbn [calls trace defers].
  split.
  { intros fuel Hf. unfold Search. rewrite Hkey, Hm. apply frame_eq.
    apply (searchLoop_fuel_le P c _ body (S (Z.to_nat (maxRetries c))) fuel);
      [exact Hrun|discriminate|lia]. }
  split; [lia|]. split; [reflexivity|].
  split.
  { rewrite Ht, Hdf. unfold bodyCloses. rewrite map_rev, rev_involutive. reflexivity. }
  split; [exact HCl|]. split; [exact HRd|].
  split; [intros b0 Hb0; injection Hb0 as <-; exact HDo|].
  split; [exact Hs|]. split; [exact Hw|]. split; [lia|].
  split; [intros k Hk'; unfold answer; apply Hk; lia|].
  split.
  { intros k Hk'. unfold answer.
    replace (calls w + k)%nat with (calls w1 - 1)%nat by lia.
    split; [destruct Hl as [Hl|Hl]; [left; exact Hl|right; lia]|exact Hr]. }
  split; [intros; lia|]. intros; lia.
Qed.

Lemma length_sent rq ks : List.length (sent rq ks) = List.length ks.
Proof. unfold sent. rewrite length_rev, length_map. reflexivity. Qed.

Lemma filter_bodyCloses (f : Event -> bool) c ks :
  (forall n, f (EvClose n) = false) -> filter f (bodyCloses c ks) = [].
Proof.
  intros Hf. unfold bodyCloses. induction (filter (responded c) ks) as [|a l IH];
    [reflexivity|]. cbn [map filter]. rewrite Hf. exact IH.
Qed.

Lemma length_attempts a m : List.length (attempts a m) = m.
Proof. apply length_seq. Qed.

(** X1: the result of [Search] read off the script of the transport.  When
    the answers to the attempts before attempt [k] are retryable failures
    and the answer to attempt [k] is not, or [k] is the retry count, the
    call makes exactly [k+1] attempts, sleeps [k] times, and returns what
    the answer to attempt [k] gives: its body on a 2xx status, else the
    error of its status and body, or the transport error. *)
Theorem Search_result_of_script P c req w k :
  0 <= maxRetries c <= Int64.max_int ->
  apiKey c <> EmptyString ->
  (exists b, json_Marshal_Search P req = Ok b) ->
  url_error P (baseURL c ++ "/search") = None ->
  (forall j, (j < k)%nat -> retryable (answer c w j) = true) ->
  Z.of_nat k <= maxRetries c ->
  retryable (answer c w k) = false \/ Z.of_nat k = maxRetries c ->
  exists w',
    (forall fuel, (Z.to_nat (maxRetries c) < fuel)%nat ->
       Search P fuel c req w = (Return (lastAnswerResult P (answer c w k)), w')) /\
    calls w' = (calls w + S k)%nat /\
    count_Do (trace w') = (count_Do (trace w) + S k)%nat /\
    count_Sleep (trace w') = (count_Sleep (trace w) + k)%nat.
Proof.
  intros Hrange Hkey [b Hm] Hurl Hbefore Hk Hlast.
  destruct (Search_run P c req w Hrange)
    as (r & w' & t & Hall & Hle & _ & Ht & _ & _ & HDo & Hs & _ & Hb & Hre & Hl & _ & Hpos).
  specialize (Hpos Hkey (ex_intro _ b Hm) Hurl).
  specialize (HDo b Hm).
  assert (Hm' : (calls w' - calls w = S k)%nat).
  { destruct (Hl (calls w' - calls w - 1)%nat ltac:(lia)) as [Hl' _].
    destruct (Nat.lt_trichotomy (calls w' - calls w - 1) k) as [Hlt|[Heq|Hgt]]; [|lia|].
    - rewrite (Hbefore _ Hlt) in Hl'. destruct Hl' as [Hl'|Hl']; [discriminate|lia].
    - rewrite (Hre k ltac:(lia)) in Hlast. destruct Hlast as [Hlast|Hlast]; [discriminate|lia]. }
  destruct (Hl k ltac:(lia)) as [_ ->].
  exists w'. split; [exact Hall|]. split; [lia|].
  rewrite Ht. unfold count_Do, count_Sleep in *.
  rewrite !filter_app, !length_app, HDo, Hs.
  rewrite !filter_bodyCloses by reflexivity.
  rewrite length_sent, length_attempts. cbn [List.length]. lia.
Qed.

(** X1 at the package's retry test: 502, 502, then 200, retry count 2. *)
Lemma Search_result_of_script_witness :
  let c := testClient net_flaky in
  (forall j, (j < 2)%nat -> retryable (answer c world0 j) = true) /\
  retryable (answer c world0 2) = false /\
  exists w',
    (forall fuel, (Z.to_nat (maxRetries c) < fuel)%nat ->
       Search refPlatform fuel c exampleSearch world0
       = (Return (Ok (mkSearchResponse body_bad_param)), w')) /\
    calls w' = 3%nat /\ count_Do (trace w') = 3%nat /\ count_Sleep (trace w') = 2%nat.
Proof.
  intros c.
  assert (Hbefore : forall j, (j < 2)%nat -> retryable (answer c world0 j) = true).
  { intros [|[|j]] Hj; [reflexivity|reflexivity|lia]. }
  split; [exact Hbefore|]. split; [reflexivity|].
  assert (Hrange : 0 <= maxRetries c <= Int64.max_int) by (vm_compute; split; discriminate).
  assert (Hkey : apiKey c <> EmptyString) by discriminate.
  exact (Search_result_of_script refPlatform c exampleSearch world0 2 Hrange Hkey
           (ex_intro _ _ eq_refl) eq_refl Hbefore ltac:(vm_compute; discriminate)
           (or_introl eq_refl)).
Defined.

Lemma waits_sleeps t :
  filter is_Sleep t = rev (map EvSleep (waits t)).
Proof.
  unfold waits. rewrite map_rev, rev_involutive.
  induction t as [|e t IH]; [reflexivity|].
  destruct e; cbn [filter is_Sleep map sleep_duration]; rewrite <- ?IH; reflexivity.
Qed.

Lemma length_waits t : List.length (waits t) = count_Sleep t.
Proof. unfold waits, count_Sleep. rewrite length_rev, length_map. reflexivity. Qed.

(** The wait number [j] of a run belongs to attempt [n + j]. *)
Lemma waits_ok_nth c ds : forall n k j d,
  waits_ok c n k ds ->
  nth_error ds j = Some d ->
  0 <= n -> n + Z.of_nat j <= Int64.max_int ->
  waitAfter c (n + Z.of_nat j) (roundTrip (http c) (k + j)%nat) d.
Proof.
  induction ds as [|d0 ds IH]; intros n k j d Hok Hnth Hn Hmax.
  - destruct j; discriminate Hnth.
  - destruct Hok as [Hd Hok]. destruct j as [|j].
    + injection Hnth as <-. rewrite Z.add_0_r, Nat.add_0_r. exact Hd.
    + cbn [nth_error] in Hnth.
      unfold Int64.add in Hok. rewrite Int64_wrap_in_range in Hok
        by (unfold Int64.in_range, Int64.min_int, Int64.max_int, Int64.half in *; lia).
      replace (n + Z.of_nat (S j)) with (n + 1 + Z.of_nat j) by lia.
      replace (k + S j)%nat with (S k + j)%nat by lia.
      apply IH; [exact Hok|exact Hnth|lia|lia].
Qed.

(** X2: the sleeps of a [Search] call.  The call sleeps once between two
    consecutive attempts and never after the last one.  The wait after
    attempt [j] is the number of seconds of the answer's Retry-After
    header when [strconv.Atoi] reads it as a positive integer (exactly so
    up to 9223372036 seconds), and a value of [backoff j] otherwise: after
    a transport error, and when the header is absent, unreadable, zero
    or negative. *)
Theorem Search_waits P c req w :
  0 <= maxRetries c <= Int64.max_int ->
  exists r w' ds,
    (forall fuel, (Z.to_nat (maxRetries c) < fuel)%nat ->
                  Search P fuel c req w = (Return r, w')) /\
    filter is_Sleep (trace w') = (rev (map EvSleep ds) ++ filter is_Sleep (trace w))%list /\
    List.length ds = (calls w' - calls w - 1)%nat /\
    (forall j d, nth_error ds j = Some d ->
                 waitAfter c (Z.of_nat j) (answer c w j) d) /\
    (forall j d s, nth_error ds j = Some d ->
                   retryAfterSeconds (answer c w j) = Some s ->
                   s <= 9223372036 -> d = s * Second).
Proof.
  intros Hrange.
  destruct (Search_run P c req w Hrange)
    as (r & w' & t & Hall & Hle & _ & Ht & _ & _ & _ & Hs & Hw & Hb & _).
  exists r, w', (waits t). split; [exact Hall|].
  assert (Hnth : forall j d, nth_error (waits t) j = Some d ->
                             waitAfter c (Z.of_nat j) (answer c w j) d).
  { intros j d Hj.
    assert (Hlt : (j < List.length (waits t))%nat)
      by (apply nth_error_Some; rewrite Hj; discriminate).
    rewrite length_waits, Hs in Hlt.
    apply (waits_ok_nth c (waits t) 0 (calls w) j d Hw Hj); lia. }
  split.
  { rewrite Ht, !filter_app, filter_bodyCloses by reflexivity.
    rewrite waits_sleeps. reflexivity. }
  split; [rewrite length_waits; exact Hs|].
  split; [exact Hnth|].
  intros j d s Hj Hra Hs'. specialize (Hnth j d Hj).
  unfold waitAfter in Hnth. rewrite Hra in Hnth. rewrite Hnth.
  apply Int64_mul_seconds. split; [|exact Hs'].
  unfold retryAfterSeconds in Hra.
  destruct (answer c w j) as [|res]; [discriminate|].
  destruct (Atoi (Header_Get (Header res) "Retry-After")) as [s0|]; [|discriminate].
  destruct (s0 >? 0) eqn:E; [|discriminate]. injection Hra as <-. lia.
Qed.

(** X2 at a 429 answer that asks for two seconds: one sleep, of
    2000000000 ns. *)
Lemma Search_waits_witness :
  let c := testClient net_retry_after_2 in
  0 <= maxRetries c <= Int64.max_int /\
  retryAfterSeconds (answer c world0 0) = Some 2 /\
  exists r w' ds,
    (forall fuel, (Z.to_nat (maxRetries c) < fuel)%nat ->
                  Search refPlatform fuel c exampleSearch world0 = (Return r, w')) /\
    filter is_Sleep (trace w') = (rev (map EvSleep ds) ++ filter is_Sleep (trace world0))%list /\
    List.length ds = (calls w' - calls world0 - 1)%nat /\
    (forall j d, nth_error ds j = Some d ->
                 waitAfter c (Z.of_nat j) (answer c world0 j) d) /\
    (forall j d s, nth_error ds j = Some d ->
                   retryAfterSeconds (answer c world0 j) = Some s ->
                   s <= 9223372036 -> d = s * Second).
Proof.
  intros c.
  assert (H : 0 <= maxRetries c <= Int64.max_int) by (vm_compute; split; discriminate).
  split; [exact H|]. split; [reflexivity|].
  exact (Search_waits refPlatform c exampleSearch world0 H).
Defined.

(** The value of [backoff] without overflow, at any state of the random
    source: between [floor (0.8*base)] and [1.2*base]. *)
Lemma backoff_value_bounds n mn mx w0 d :
  0 <= n -> 0 <= mn -> 0 <= mx ->
  mn * 2 ^ n <= Int64.max_int ->
  Z.min (mn * 2 ^ n) mx <= 2 ^ 52 ->
  fst (backoff n mn mx w0) = Some d ->
  8 * Z.min (mn * 2 ^ n) mx < 10 * (d + 1) /\ 10 * d <= 12 * Z.min (mn * 2 ^ n) mx /\ 0 <= d.
Proof.
  intros Hn Hmn Hmx Hov Hsmall.
  pose proof (backoff_base_exact n mn mx Hn Hmn Hov) as Hbase.
  set (base := Z.min (mn * 2 ^ n) mx) in *.
  pose proof (randFloat_jitter_ok w0) as Hj.
  unfold backoff. rewrite Hbase. cbv beta delta [bind ret].
  destruct (randFloat w0) as [r w1]. cbn [fst] in *.
  assert (Hb0 : 0 <= base).
  { subst base. assert (0 <= mn * 2 ^ n) by (apply Z.mul_nonneg_nonneg; lia). lia. }
  destruct (jitter r) as [| | |[|] M e] eqn:Ej; try discriminate Hj.
  intros Hd. injection Hd as <-.
  destruct (Z.eq_dec base 0) as [E0|Hne].
  - rewrite E0. cbn. lia.
  - apply mul_truncated_bounds; [lia|exact Hj].
Qed.

(** X3: the length of the waits [Search] computes itself.  For a retry
    policy with [0 < minBackoff <= maxBackoff <= 2^52 ns] whose largest
    power [minBackoff * 2^maxRetries] fits a [time.Duration], every wait
    that is not dictated by a Retry-After header lies between
    [floor (0.8 * base)] and [1.2 * base] for
    [base = min (minBackoff * 2^j) maxBackoff]; so it is longer than
    [0.8 * minBackoff - 1 ns] and at most [1.2 * maxBackoff]. *)
Theorem Search_backoff_waits_bounded P c req w :
  0 <= maxRetries c <= Int64.max_int ->
  0 < minBackoff c <= maxBackoff c ->
  maxBackoff c <= 2 ^ 52 ->
  minBackoff c * 2 ^ maxRetries c <= Int64.max_int ->
  exists r w' ds,
    (forall fuel, (Z.to_nat (maxRetries c) < fuel)%nat ->
                  Search P fuel c req w = (Return r, w')) /\
    filter is_Sleep (trace w') = (rev (map EvSleep ds) ++ filter is_Sleep (trace w))%list /\
    (forall j d, nth_error ds j = Some d ->
                 retryAfterSeconds (answer c w j) = None ->
                 let base := Z.min (minBackoff c * 2 ^ Z.of_nat j) (maxBackoff c) in
                 (8 * base < 10 * (d + 1) /\ 10 * d <= 12 * base) /\
                 (8 * minBackoff c < 10 * (d + 1) /\ 10 * d <= 12 * maxBackoff c)).
Proof.
  intros Hrange Hmin Hmax Hov.
  destruct (Search_run P c req w Hrange)
    as (r & w' & t & Hall & Hle & _ & Ht & _ & _ & _ & Hs & Hw & Hb & _).
  exists r, w', (waits t). split; [exact Hall|].
  split.
  { rewrite Ht, !filter_app, filter_bodyCloses by reflexivity.
    rewrite waits_sleeps. reflexivity. }
  intros j d Hj Hra base.
  assert (Hlt : (j < List.length (waits t))%nat)
    by (apply nth_error_Some; rewrite Hj; discriminate).
  rewrite length_waits, Hs in Hlt.
  pose proof (waits_ok_nth c (waits t) 0 (calls w) j d Hw Hj ltac:(lia) ltac:(lia)) as Hd.
  unfold waitAfter in Hd. fold (answer c w j) in Hd. rewrite Hra in Hd.
  destruct Hd as [w0 Hd]. rewrite Z.add_0_l in Hd.
  assert (Hpow : minBackoff c * 2 ^ Z.of_nat j <= minBackoff c * 2 ^ maxRetries c).
  { apply Z.mul_le_mono_nonneg_l; [lia|]. apply Z.pow_le_mono_r; lia. }
  assert (H1 : 0 < 2 ^ Z.of_nat j) by (apply Z.pow_pos_nonneg; lia).
  assert (Hge : minBackoff c <= minBackoff c * 2 ^ Z.of_nat j) by nia.
  destruct (backoff_value_bounds (Z.of_nat j) (minBackoff c) (maxBackoff c) w0 d
              ltac:(lia) ltac:(lia) ltac:(lia) ltac:(lia) ltac:(lia) Hd)
    as (B1 & B2 & _).
  fold base in B1, B2. split; [split; assumption|].
  assert (minBackoff c <= base <= maxBackoff c) by (subst base; lia).
  lia.
Qed.

(** X3 at the defaults of [NewClient] (250 ms, 4 s, three retries) and a
    transport that always fails: every wait is longer than 199999999 ns
    and at most 4.8 s. *)
Lemma Search_backoff_waits_bounded_witness :
  let c := NewClient (script []) "test-key" [] in
  (0 <= maxRetries c <= Int64.max_int /\ 0 < minBackoff c <= maxBackoff c /\
   maxBackoff c <= 2 ^ 52 /\ minBackoff c * 2 ^ maxRetries c <= Int64.max_int) /\
  exists r w' ds,
    (forall fuel, (Z.to_nat (maxRetries c) < fuel)%nat ->
                  Search refPlatform fuel c exampleSearch world0 = (Return r, w')) /\
    filter is_Sleep (trace w') = (rev (map EvSleep ds) ++ filter is_Sleep (trace world0))%list /\
    (forall j d, nth_error ds j = Some d ->
                 retryAfterSeconds (answer c world0 j) = None ->
                 let base := Z.min (minBackoff c * 2 ^ Z.of_nat j) (maxBackoff c) in
                 (8 * base < 10 * (d + 1) /\ 10 * d <= 12 * base) /\
                 (8 * minBackoff c < 10 * (d + 1) /\ 10 * d <= 12 * maxBackoff c)).
Proof.
  intros c.
  assert (H1 : 0 <= maxRetries c <= Int64.max_int) by (vm_compute; split; discriminate).
  assert (H2 : 0 < minBackoff c <= maxBackoff c) by (vm_compute; split; [reflexivity|discriminate]).
  assert (H3 : maxBackoff c <= 2 ^ 52) by (vm_compute; discriminate).
  assert (H4 : minBackoff c * 2 ^ maxRetries c <= Int64.max_int) by (vm_compute; discriminate).
  split; [repeat split; first [apply H1|apply H2|exact H3|exact H4]|].
  exact (Search_backoff_waits_bounded refPlatform c exampleSearch world0 H1 H2 H3 H4).
Defined.

(** The request of [Search], header by header. *)
Lemma searchRequest_eq c url body :
  searchRequest c url body =
  mkRequest "POST" url
            [("Authorization", "Bearer " ++ apiKey c); ("Content-Type", "application/json");
             ("User-Agent", ua c)]%string
            body.
Proof. reflexivity. Qed.

(** X4: every attempt of a [Search] call sends the same request: a POST
    to [baseURL/search] whose headers are the bearer credential, the JSON
    content type and the user agent, and whose body is the encoding of the
    request; the attempts are the transport calls [calls w],
    [calls w + 1], ... in this order, one request each. *)
Theorem Search_requests_identical P c req w body :
  0 <= maxRetries c <= Int64.max_int ->
  json_Marshal_Search P req = Ok body ->
  exists r w',
    (forall fuel, (Z.to_nat (maxRetries c) < fuel)%nat ->
                  Search P fuel c req w = (Return r, w')) /\
    filter is_Do (trace w') =
      (sent (mkRequest "POST" (baseURL c ++ "/search")
               [("Authorization", "Bearer " ++ apiKey c);
                ("Content-Type", "application/json");
                ("User-Agent", ua c)]%string
               body)
            (attempts (calls w) (calls w' - calls w))
         ++ filter is_Do (trace w))%list.
Proof.
  intros Hrange Hm.
  destruct (Search_run P c req w Hrange)
    as (r & w' & t & Hall & _ & _ & Ht & _ & _ & HDo & _).
  exists r, w'. split; [exact Hall|].
  rewrite Ht, !filter_app, filter_bodyCloses by reflexivity.
  rewrite (HDo body Hm), searchRequest_eq. reflexivity.
Qed.

(** X4 at the package's retry test. *)
Lemma Search_requests_identical_witness :
  let c := testClient net_flaky in
  exists body,
    (0 <= maxRetries c <= Int64.max_int /\
     json_Marshal_Search refPlatform exampleSearch = Ok body) /\
    exists r w',
      (forall fuel, (Z.to_nat (maxRetries c) < fuel)%nat ->
                    Search refPlatform fuel c exampleSearch world0 = (Return r, w')) /\
      filter is_Do (trace w') =
        (sent (mkRequest "POST" (baseURL c ++ "/search")
                 [("Authorization", "Bearer " ++ apiKey c);
                  ("Content-Type", "application/json");
                  ("User-Agent", ua c)]%string
                 body)
              (attempts (calls world0) (calls w' - calls world0))
           ++ filter is_Do (trace world0))%list.
Proof.
  intros c.
  assert (H : 0 <= maxRetries c <= Int64.max_int) by (vm_compute; split; discriminate).
  eexists. split; [split; [exact H|reflexivity]|].
  exact (Search_requests_identical refPlatform c exampleSearch world0 _ H eq_refl).
Defined.

(** X5: the response bodies of a [Search] call.  The body of every
    response the call drew is read exactly once, through the 1 MiB limit
    when the status is outside [200, 300) and whole otherwise, and closed
    exactly once; a transport error leaves nothing to read or close.  The
    closes are deferred: they all run when the call returns, after every
    other event of the call, the body received last first; the bodies of
    the failed attempts stay open during the retries.  The deferred calls
    of the caller are left as they were. *)
Theorem Search_bodies_read_once_closed_at_return P c req w :
  0 <= maxRetries c <= Int64.max_int ->
  exists r w' t,
    (forall fuel, (Z.to_nat (maxRetries c) < fuel)%nat ->
                  Search P fuel c req w = (Return r, w')) /\
    trace w' = (bodyCloses c (attempts (calls w) (calls w' - calls w)) ++ t ++ trace w)%list /\
    filter is_Close t = [] /\
    filter is_Read t = bodyReads c (attempts (calls w) (calls w' - calls w)) /\
    defers w' = defers w.
Proof.
  intros Hrange.
  destruct (Search_run P c req w Hrange)
    as (r & w' & t & Hall & _ & Hd & Ht & HCl & HRd & _).
  exists r, w', t. auto.
Qed.

(** X5 at the package's retry test: three bodies read, then closed in
    reverse order. *)
Lemma Search_bodies_read_once_closed_at_return_witness :
  let c := testClient net_flaky in
  0 <= maxRetries c <= Int64.max_int /\
  filter (fun e => is_Read e || is_Close e)
         (trace (snd (Search refPlatform 3 c exampleSearch world0)))
    = [EvClose 0; EvClose 1; EvClose 2;
       EvRead 2 None; EvRead 1 (Some (2 ^ 20)); EvRead 0 (Some (2 ^ 20))] /\
  exists r w' t,
    (forall fuel, (Z.to_nat (maxRetries c) < fuel)%nat ->
                  Search refPlatform fuel c exampleSearch world0 = (Return r, w')) /\
    trace w' = (bodyCloses c (attempts (calls world0) (calls w' - calls world0))
                  ++ t ++ trace world0)%list /\
    filter is_Close t = [] /\
    filter is_Read t = bodyReads c (attempts (calls world0) (calls w' - calls world0)) /\
    defers w' = defers world0.
Proof.
  intros c.
  assert (H : 0 <= maxRetries c <= Int64.max_int) by (vm_compute; split; discriminate).
  split; [exact H|]. split; [vm_compute; reflexivity|].
  exact (Search_bodies_read_once_closed_at_return refPlatform c exampleSearch world0 H).
Defined.

(** ** [Fetch] and [GetBalance] *)

(** The last iteration of the loop of [Search]: with no retry left the
    result is read off the answer. *)
Lemma searchStep_last P c url body k n w :
  url_error P url = None ->
  maxRetries c <= n ->
  fst (searchStep P c url body k n w)
  = Return (lastAnswerResult P (roundTrip (http c) (calls w))).
Proof.
  intros Hurl Hn. unfold searchStep, NewRequestWithContext. rewrite Hurl.
  cbv beta delta [bind]. unfold Do at 1. cbn [fst snd].
  assert (Hlt : (n <? maxRetries c) = false) by (apply Z.ltb_ge; exact Hn).
  rewrite Hlt.
  destruct (roundTrip (http c) (calls w)) as [msg|res]; [reflexivity|].
  unfold deferClose at 1. cbn [lastAnswerResult].
  destruct ((StatusCode res <? 200) || (StatusCode res >=? 300)).
  - unfold readBody. cbv beta delta [bind emit ret]. cbn [fst snd].
    rewrite andb_false_r. reflexivity.
  - unfold readBody. cbv beta delta [bind emit ret]. cbn [fst snd ReadAll].
    destruct (body_err (Body res)); reflexivity.
Qed.

(** The error of a status and a decoded body, for a status that is not
    401 or 403. *)
Lemma statusError_other code apiErr :
  (code =? StatusUnauthorized) = false -> (code =? StatusForbidden) = false ->
  statusError code apiErr =
  if negb (String.eqb (Message apiErr) "") then ErrAPI apiErr else ErrHTTP code.
Proof. intros H1 H2. unfold statusError. rewrite H1, H2. reflexivity. Qed.

(** X6: [Fetch] classifies the answer to its one attempt as [Search]
    classifies the answer to its last attempt: the sentinels for 401 and
    403, the decoded API error or the plain status error for the other
    statuses outside [200, 300), the transport error as it is, the read
    error of a 2xx body, and else the body byte for byte.  A [Search]
    without retries returns what [Fetch] returns on the same answer. *)
Theorem Fetch_classifies_like_Search P c freq w body :
  apiKey c <> EmptyString ->
  FURL freq <> EmptyString ->
  json_Marshal_Fetch P freq = Ok body ->
  url_error P (baseURL c ++ "/fetch") = None ->
  fst (Fetch P c freq w) = lastAnswerResult P (answer c w 0) /\
  (forall sreq sbody fuel,
     maxRetries c <= 0 ->
     json_Marshal_Search P sreq = Ok sbody ->
     url_error P (baseURL c ++ "/search") = None ->
     (0 < fuel)%nat ->
     fst (Search P fuel c sreq w) = Return (fst (Fetch P c freq w))).
Proof.
  intros Hkey Hfurl Hm Hurl.
  apply String.eqb_neq in Hkey. apply String.eqb_neq in Hfurl.
  assert (HF : fst (Fetch P c freq w) = lastAnswerResult P (answer c w 0)).
  { unfold Fetch, NewRequestWithContext. rewrite Hkey, Hfurl, Hm, Hurl.
    unfold frame, answer. rewrite Nat.add_0_r.
    cbv beta delta [bind]. unfold Do at 1. cbn [fst snd calls].
    destruct (roundTrip (http c) (calls w)) as [msg|res]; [reflexivity|].
    unfold deferClose at 1. cbn [lastAnswerResult].
    destruct (StatusCode res =? StatusUnauthorized) eqn:E1.
    { apply Z.eqb_eq in E1. rewrite E1. reflexivity. }
    destruct (StatusCode res =? StatusForbidden) eqn:E2.
    { apply Z.eqb_eq in E2. rewrite E2. reflexivity. }
    rewrite (statusError_other _ _ E1 E2).
    destruct ((StatusCode res <? 200) || (StatusCode res >=? 300)).
    - unfold readBody. cbv beta delta [bind emit ret]. cbn [fst snd ReadAll].
      match goal with |- context [if ?b then _ else _] => destruct b end; reflexivity.
    - unfold readBody. cbv beta delta [bind emit ret]. cbn [fst snd ReadAll].
      destruct (body_err (Body res)); reflexivity. }
  split; [exact HF|].
  intros sreq sbody [|f] HR Hsm Hsurl Hf; [lia|].
  rewrite HF. unfold Search. rewrite Hkey, Hsm. unfold frame.
  rewrite searchLoop_S.
  pose proof (searchStep_last P c (baseURL c ++ "/search") sbody
                (searchLoop P f c (baseURL c ++ "/search") sbody) 0
                (mkWorld (lcg w) (calls w) [] (trace w)) Hsurl HR) as Hlast.
  destruct (searchStep P c (baseURL c ++ "/search") sbody
              (searchLoop P f c (baseURL c ++ "/search") sbody) 0
              (mkWorld (lcg w) (calls w) [] (trace w))) as [o w1].
  cbn [fst calls] in *. rewrite Hlast. unfold answer. rewrite Nat.add_0_r. reflexivity.
Qed.

(** X6 at a 422 answer with the body [{"message":"bad param"}]. *)
Lemma Fetch_classifies_like_Search_witness :
  let c := NewClient net_unprocessable "test-key" [WithRetry 0 0 0] in
  maxRetries c <= 0 /\
  fst (Fetch refPlatform c exampleFetch world0)
    = Err (ErrAPI (mkAPIError 422 "bad param" [])) /\
  fst (Search refPlatform 1 c exampleSearch world0)
    = Return (Err (ErrAPI (mkAPIError 422 "bad param" []))).
Proof.
  intros c.
  assert (Hkey : apiKey c <> EmptyString) by discriminate.
  assert (Hurl : FURL exampleFetch <> EmptyString) by discriminate.
  assert (HR : maxRetries c <= 0) by (vm_compute; discriminate).
  destruct (Fetch_classifies_like_Search refPlatform c exampleFetch world0 _
              Hkey Hurl eq_refl eq_refl) as [HF HS].
  split; [exact HR|]. split.
  - rewrite HF. vm_compute. reflexivity.
  - rewrite (HS exampleSearch _ 1%nat HR eq_refl eq_refl ltac:(lia)), HF.
    vm_compute. reflexivity.
Defined.

(** X7: the events of a [Fetch] call that reaches the transport: one
    POST to [baseURL/fetch] with the bearer credential, the JSON content
    type, the user agent and the encoded request; on a response, at most
    one read of the body (none on 401 and 403, bounded by 1 MiB on the
    other statuses outside [200, 300), whole on success) and then exactly
    one close; no sleep; the random source and the caller's deferred
    calls untouched. *)
Theorem Fetch_events P c freq w body :
  apiKey c <> EmptyString ->
  FURL freq <> EmptyString ->
  json_Marshal_Fetch P freq = Ok body ->
  url_error P (baseURL c ++ "/fetch") = None ->
  snd (Fetch P c freq w) =
  mkWorld (lcg w) (S (calls w)) (defers w)
    (bodyCloses c [calls w]
       ++ sentinelFirstRead (answer c w 0) (calls w)
       ++ EvDo (calls w)
            (mkRequest "POST" (baseURL c ++ "/fetch")
               [("Authorization", "Bearer " ++ apiKey c);
                ("Content-Type", "application/json");
                ("User-Agent", ua c)]%string
               body)
       :: trace w).
Proof.
  intros Hkey Hfurl Hm Hurl.
  apply String.eqb_neq in Hkey. apply String.eqb_neq in Hfurl.
  unfold Fetch, NewRequestWithContext. rewrite Hkey, Hfurl, Hm, Hurl.
  unfold frame, answer, bodyCloses, responded. rewrite Nat.add_0_r.
  cbv beta delta [bind]. unfold Do at 1. cbn [fst snd calls filter].
  destruct (roundTrip (http c) (calls w)) as [msg|res]; [reflexivity|].
  unfold deferClose at 1. cbn [sentinelFirstRead lastRead map].
  destruct (StatusCode res =? StatusUnauthorized); [reflexivity|].
  destruct (StatusCode res =? StatusForbidden); [reflexivity|].
  cbn [orb].
  destruct ((StatusCode res <? 200) || (StatusCode res >=? 300)).
  - unfold readBody. cbv beta delta [bind emit ret]. cbn [fst snd ReadAll].
    match goal with |- context [if ?b then _ else _] => destruct b end; reflexivity.
  - unfold readBody. cbv beta delta [bind emit ret]. cbn [fst snd ReadAll].
    destruct (body_err (Body res)); reflexivity.
Qed.

(** X7 at a 401 answer: the request and the close, no read. *)
Lemma Fetch_events_witness :
  let c := testClient net_unauthorized in
  answer c world0 0 = respond 401 [] body_nope /\
  filter (fun e => negb (is_Do e)) (trace (snd (Fetch refPlatform c exampleFetch world0)))
    = [EvClose 0].
Proof.
  intros c. split; [reflexivity|].
  assert (Hkey : apiKey c <> EmptyString) by discriminate.
  assert (Hurl : FURL exampleFetch <> EmptyString) by discriminate.
  rewrite (Fetch_events refPlatform c exampleFetch world0 _ Hkey Hurl eq_refl eq_refl).
  vm_compute. reflexivity.
Defined.

(** X8: [GetBalance] on a client with a credential and a valid URL.  It
    sends one GET to [baseURL/credits/balance] with the bearer credential
    and the user agent, no content type and no body.  A transport error is
    returned as it is; a status outside [200, 300) gives the error
    [Search] gives for it (the sentinels for 401 and 403, else the decoded
    API error or the plain status error); a 2xx status gives what the
    decoder makes of the body.  The body is read at most once (not on 401
    and 403) and closed exactly once; there is no sleep. *)
Theorem GetBalance_result_and_events P c w :
  apiKey c <> EmptyString ->
  url_error P (baseURL c ++ "/credits/balance") = None ->
  fst (GetBalance P c w) =
    match answer c w 0 with
    | TransportErr msg => Err (ErrTransport msg)
    | Responded res =>
        if (StatusCode res <? 200) || (StatusCode res >=? 300)
        then Err (statusError (StatusCode res)
                    (json_Unmarshal_APIError P
                       (fst (ReadAll (LimitReader (Body res) (2 ^ 20))))
                       (mkAPIError (StatusCode res) EmptyString [])))
        else json_Decode_Balance P (Body res)
    end /\
  snd (GetBalance P c w) =
  mkWorld (lcg w) (S (calls w)) (defers w)
    (bodyCloses c [calls w]
       ++ sentinelFirstRead (answer c w 0) (calls w)
       ++ EvDo (calls w)
            (mkRequest "GET" (baseURL c ++ "/credits/balance")
               [("Authorization", "Bearer " ++ apiKey c); ("User-Agent", ua c)]%string
               [])
       :: trace w).
Proof.
  intros Hkey Hurl. apply String.eqb_neq in Hkey.
  unfold GetBalance, NewRequestWithContext. rewrite Hkey, Hurl.
  unfold frame, answer, bodyCloses, responded. rewrite Nat.add_0_r.
  cbv beta delta [bind]. unfold Do. cbn [fst snd calls filter].
  destruct (roundTrip (http c) (calls w)) as [msg|res]; [split; reflexivity|].
  unfold deferClose. cbn [sentinelFirstRead lastRead map].
  destruct (StatusCode res =? StatusUnauthorized) eqn:E1.
  { apply Z.eqb_eq in E1. rewrite E1. split; reflexivity. }
  destruct (StatusCode res =? StatusForbidden) eqn:E2.
  { apply Z.eqb_eq in E2. rewrite E2. split; reflexivity. }
  rewrite (statusError_other _ _ E1 E2). cbn [orb].
  destruct ((StatusCode res <? 200) || (StatusCode res >=? 300)).
  - unfold readBody. cbv beta delta [bind emit ret]. cbn [fst snd ReadAll].
    match goal with |- context [if ?b then _ else _] => destruct b end; split; reflexivity.
  - unfold emit. cbv beta delta [bind ret]. cbn [fst snd]. split; reflexivity.
Qed.

(** X8 at a 200 answer with the body [{"balance":12}]: the balance 12. *)
Lemma GetBalance_result_and_events_witness :
  let c := testClient net_balance in
  answer c world0 0 = respond 200 [] body_balance /\
  fst (GetBalance refPlatform c world0) = Ok (mkBalanceResponse (Float64.of_Z 12)) /\
  filter (fun e => negb (is_Do e)) (trace (snd (GetBalance refPlatform c world0)))
    = [EvClose 0; EvRead 0 None].
Proof.
  intros c. split; [reflexivity|].
  assert (Hkey : apiKey c <> EmptyString) by discriminate.
  destruct (GetBalance_result_and_events refPlatform c world0 Hkey eq_refl) as [Hr Hw].
  split.
  - rewrite Hr. vm_compute. reflexivity.
  - rewrite Hw. vm_compute. reflexivity.
Defined.

(** ** [SearchStructured] *)

(** X9: [SearchStructured] is [Search] followed by [DecodeInto] on the
    zero value.  It makes the attempts and has the effects of [Search] and
    no other; it returns the error of [Search] with the zero value; and a
    value it returns without an error is what the decoder makes of the
    exact bytes of the 2xx response to the last attempt. *)
Theorem SearchStructured_decodes_last_body
        {T} P (unmarshal : Unmarshal T) (zero : T) c req w :
  0 <= maxRetries c <= Int64.max_int ->
  exists r w',
    (forall fuel, (Z.to_nat (maxRetries c) < fuel)%nat ->
       Search P fuel c req w = (Return r, w') /\
       SearchStructured P unmarshal zero fuel c req w =
         (match r with
          | Err e => Returns zero (Some e)
          | Ok resp => let (v, e) := DecodeInto unmarshal resp zero in Returns v e
          end, w')) /\
    (forall v fuel, (Z.to_nat (maxRetries c) < fuel)%nat ->
       fst (SearchStructured P unmarshal zero fuel c req w) = Returns v None ->
       (calls w < calls w')%nat /\
       exists res,
         roundTrip (http c) (calls w' - 1)%nat = Responded res /\
         200 <= StatusCode res < 300 /\
         body_err (Body res) = None /\
         unmarshal (body_data (Body res)) zero = (v, None)).
Proof.
  intros Hrange.
  destruct (Search_run P c req w Hrange)
    as (r & w' & t & Hall & Hle & _ & _ & _ & _ & _ & _ & _ & _ & _ & Hl & Hz & _).
  exists r, w'.
  assert (HS : forall fuel, (Z.to_nat (maxRetries c) < fuel)%nat ->
            SearchStructured P unmarshal zero fuel c req w =
            (match r with
             | Err e => Returns zero (Some e)
             | Ok resp => let (v, e) := DecodeInto unmarshal resp zero in Returns v e
             end, w')).
  { intros fuel Hf. unfold SearchStructured, DecodeInto. cbv beta delta [bind].
    rewrite (Hall fuel Hf). destruct r as [resp|e]; [|reflexivity].
    destruct (unmarshal (Raw resp) zero). reflexivity. }
  split; [intros fuel Hf; split; [apply Hall, Hf|apply HS, Hf]|].
  intros v fuel Hf Hv. rewrite (HS fuel Hf) in Hv. cbn [fst] in Hv.
  destruct r as [resp|e]; [|discriminate Hv].
  unfold DecodeInto in Hv.
  destruct (unmarshal (Raw resp) zero) as [v0 e0] eqn:Hu.
  injection Hv as -> ->.
  destruct (Nat.eq_dec (calls w') (calls w)) as [Heq|Hne].
  { exfalso. pose proof (Hall _ (Nat.lt_succ_diag_r _)) as Hrun.
    unfold Search in Hrun.
    destruct (String.eqb (apiKey c) ""); [discriminate (f_equal fst Hrun)|].
    destruct (json_Marshal_Search P req) as [body|e]; [|discriminate (f_equal fst Hrun)].
    destruct (url_error P (baseURL c ++ "/search")) as [e|] eqn:Hurl.
    - unfold frame in Hrun. rewrite searchLoop_S in Hrun.
      unfold searchStep, NewRequestWithContext in Hrun. rewrite Hurl in Hrun.
      discriminate (f_equal fst Hrun).
    - unfold frame in Hrun.
      destruct (searchLoop P (S (Z.to_nat (maxRetries c))) c (baseURL c ++ "/search") body 0
                  (mkWorld (lcg w) (calls w) [] (trace w))) as [o w1] eqn:Hloop.
      assert (Ho : o = Return (Ok resp)) by exact (f_equal fst Hrun).
      assert (Hw : w' = mkWorld (lcg w1) (calls w1) (defers w)
                          (rev (map EvClose (defers w1)) ++ trace w1))
        by exact (eq_sym (f_equal snd Hrun)).
      subst o. apply (searchLoop_inv P c _ body Hurl) in Hloop.
      destruct Hloop as (Hlt & _). rewrite Hw in Heq. cbn [calls] in *. lia. }
  split; [lia|].
  destruct (Hl (calls w' - calls w - 1)%nat ltac:(lia)) as [_ Hr].
  unfold answer in Hr.
  replace (calls w + (calls w' - calls w - 1))%nat with (calls w' - 1)%nat in Hr by lia.
  destruct (roundTrip (http c) (calls w' - 1)%nat) as [msg|res]; [discriminate Hr|].
  cbn [lastAnswerResult] in Hr.
  destruct ((StatusCode res <? 200) || (StatusCode res >=? 300)) eqn:Hnon;
    [discriminate Hr|].
  destruct (body_err (Body res)) as [e|] eqn:Herr; [discriminate Hr|].
  injection Hr as ->. cbn [Raw] in Hu.
  apply orb_false_iff in Hnon. destruct Hnon as [H1 H2].
  apply Z.ltb_ge in H1. rewrite Z.geb_leb in H2. apply Z.leb_gt in H2.
  exists res. repeat split; try assumption; lia.
Qed.

(** X9 at a 200 answer whose body is a JSON text, decoded into a
    [json.RawMessage]. *)
Lemma SearchStructured_decodes_last_body_witness :
  let c := testClient net_ok in
  0 <= maxRetries c <= Int64.max_int /\
  fst (SearchStructured refPlatform Unmarshal_RawMessage [] 3 c exampleSearch world0)
    = Returns body_bad_param None /\
  exists r w',
    (forall fuel, (Z.to_nat (maxRetries c) < fuel)%nat ->
       Search refPlatform fuel c exampleSearch world0 = (Return r, w') /\
       SearchStructured refPlatform Unmarshal_RawMessage [] fuel c exampleSearch world0 =
         (match r with
          | Err e => Returns [] (Some e)
          | Ok resp => let (v, e) := DecodeInto Unmarshal_RawMessage resp [] in Returns v e
          end, w')) /\
    (forall v fuel, (Z.to_nat (maxRetries c) < fuel)%nat ->
       fst (SearchStructured refPlatform Unmarshal_RawMessage [] fuel c exampleSearch world0)
         = Returns v None ->
       (calls world0 < calls w')%nat /\
       exists res,
         roundTrip (http c) (calls w' - 1)%nat = Responded res /\
         200 <= StatusCode res < 300 /\
         body_err (Body res) = None /\
         Unmarshal_RawMessage (body_data (Body res)) [] = (v, None)).
Proof.
  intros c.
  assert (H : 0 <= maxRetries c <= Int64.max_int) by (vm_compute; split; discriminate).
  split; [exact H|]. split; [vm_compute; reflexivity|].
  exact (SearchStructured_decodes_last_body refPlatform Unmarshal_RawMessage []
           c exampleSearch world0 H).
Defined.

(** ** Construction, further *)

Lemma TrimRight_slash_spec s :
  ends_with_slash (TrimRight_slash s) = false /\
  exists k, s = (TrimRight_slash s ++ slashes k)%string.
Proof.
  induction s as [|ch s [IH1 [k IH2]]]; [split; [reflexivity|exists O; reflexivity]|].
  cbn [TrimRight_slash].
  destruct (TrimRight_slash s) as [|a t] eqn:Ht.
  - destruct (Ascii.eqb ch "/") eqn:Hch.
    + apply Ascii.eqb_eq in Hch. subst ch. split; [reflexivity|].
      exists (S k). rewrite IH2 at 1. reflexivity.
    + split; [cbn [ends_with_slash]; exact Hch|].
      exists k. rewrite IH2 at 1. reflexivity.
  - split; [exact IH1|]. exists k. rewrite IH2 at 1. reflexivity.
Qed.

(** Appending what follows a string that ends in no slash does not
    change where the slashes are cut. *)
Lemma TrimRight_slash_fixed s :
  ends_with_slash s = false -> TrimRight_slash s = s.
Proof.
  induction s as [|ch s IH]; [reflexivity|]. intros H. cbn [TrimRight_slash].
  destruct s as [|a t].
  - cbn [TrimRight_slash]. cbn [ends_with_slash] in H. rewrite H. reflexivity.
  - rewrite IH by exact H. reflexivity.
Qed.

(** X10: [WithBaseURL u] stores [u] without its trailing slashes and
    nothing else of [u] is lost: [u] is the stored URL followed by
    slashes only, and the stored URL does not end in a slash.  No other
    field of the client changes, and applying the option to the stored URL
    again changes nothing. *)
Theorem WithBaseURL_strips_trailing_slashes u c :
  let c' := WithBaseURL u c in
  ends_with_slash (baseURL c') = false /\
  (exists k, u = (baseURL c' ++ slashes k)%string) /\
  WithBaseURL (baseURL c') c' = c' /\
  apiKey c' = apiKey c /\ ua c' = ua c /\ http c' = http c /\
  maxRetries c' = maxRetries c /\ minBackoff c' = minBackoff c /\
  maxBackoff c' = maxBackoff c.
Proof.
  cbn zeta. unfold WithBaseURL. cbn [baseURL apiKey ua http maxRetries minBackoff maxBackoff].
  destruct (TrimRight_slash_spec u) as [H1 H2].
  split; [exact H1|]. split; [exact H2|].
  split; [rewrite (TrimRight_slash_fixed _ H1); reflexivity|].
  repeat split.
Qed.

Lemma option_of_baseURL o c :
  ends_with_slash (baseURL c) = false ->
  ends_with_slash (baseURL (option_of o c)) = false.
Proof.
  destruct o as [u|h|u|r mn mx]; cbn [option_of]; intros H.
  - apply TrimRight_slash_spec.
  - exact H.
  - exact H.
  - unfold WithRetry.
    destruct (r >=? 0); destruct (mn >? 0); cbn [minBackoff];
      match goal with |- context [if ?b then _ else _] => destruct b end;
      cbn [baseURL]; exact H.
Qed.

(** X11: whatever options [NewClient] is given, the base URL of the
    client does not end in a slash, so the URLs of the three calls join it
    to their path with exactly one slash. *)
Theorem NewClient_baseURL_trimmed net key os :
  ends_with_slash (baseURL (NewClient net key (map option_of os))) = false.
Proof.
  unfold NewClient.
  set (c0 := mkClient key defaultBaseURL defaultUA _ _ _ _).
  assert (H0 : ends_with_slash (baseURL c0) = false) by reflexivity.
  clearbody c0. revert c0 H0.
  induction os as [|o os IH]; intros c0 H0; cbn [map fold_left].
  - exact H0.
  - apply IH, option_of_baseURL, H0.
Qed.

Lemma WithRetry_fields r mn mx c :
  apiKey (WithRetry r mn mx c) = apiKey c /\
  baseURL (WithRetry r mn mx c) = baseURL c /\
  ua (WithRetry r mn mx c) = ua c /\
  http (WithRetry r mn mx c) = http c.
Proof.
  unfold WithRetry.
  destruct (r >=? 0); destruct (mn >? 0); cbn [minBackoff];
    match goal with |- context [if ?b then _ else _] => destruct b end;
    cbn [apiKey baseURL ua http]; repeat split.
Qed.

Lemma fold_options_fields os : forall c,
  let c' := fold_left (fun c o => o c) (map option_of os) c in
  apiKey c' = apiKey c /\
  baseURL c' = last_call baseURL_of os (baseURL c) /\
  ua c' = last_call ua_of os (ua c) /\
  http c' = last_call http_of os (http c).
Proof.
  induction os as [|o os IH]; intros c; cbn [map fold_left last_call].
  - repeat split.
  - cbn zeta in IH. destruct (IH (option_of o c)) as (H1 & H2 & H3 & H4).
    rewrite H1, H2, H3, H4. clear.
    destruct o as [u|h|u|r mn mx]; cbn [option_of baseURL_of ua_of http_of];
      try (repeat split; fail).
    destruct (WithRetry_fields r mn mx c) as (-> & -> & -> & ->). repeat split.
Qed.

(** X12: what the options leave in a new client.  The credential is the
    one given to [NewClient], whatever the options; the base URL is that
    of the last [WithBaseURL], without its trailing slashes, or the
    default; the user agent is that of the last [WithUserAgent], or the
    default; the HTTP client is that of the last [WithHTTPClient], or the
    default one with its 30 s timeout.  [WithRetry] touches none of
    them. *)
Theorem NewClient_last_option_wins net key os :
  let c := NewClient net key (map option_of os) in
  apiKey c = key /\
  baseURL c = last_call baseURL_of os defaultBaseURL /\
  ua c = last_call ua_of os defaultUA /\
  http c = last_call http_of os (mkHTTPClient (30 * Second) net).
Proof. unfold NewClient. apply fold_options_fields. Qed.

Lemma option_of_ordered o c :
  ordered_args o ->
  minBackoff c <= maxBackoff c ->
  minBackoff (option_of o c) <= maxBackoff (option_of o c).
Proof.
  destruct o as [u|h|u|r mn mx]; cbn [option_of ordered_args]; try (intros _ H; exact H).
  intros Hargs Hc. unfold WithRetry.
  destruct (r >=? 0); destruct (mn >? 0) eqn:Em; cbn [minBackoff];
    match goal with |- context [if ?b then _ else _] => destruct b eqn:Ex end;
    cbn [minBackoff maxBackoff]; lia.
Qed.

(** X13: the order of the back-off bounds.  When every [WithRetry] call
    has a minimum that is not positive (and so ignored) or not above its
    maximum, the client [NewClient] builds has [minBackoff <= maxBackoff];
    the defaults, 250 ms and 4 s, are in order. *)
Theorem NewClient_backoff_ordered net key os :
  Forall ordered_args os ->
  let c := NewClient net key (map option_of os) in
  minBackoff c <= maxBackoff c.
Proof.
  intros Hos. cbn zeta. unfold NewClient.
  set (c0 := mkClient key defaultBaseURL defaultUA _ _ _ _).
  assert (H0 : minBackoff c0 <= maxBackoff c0) by (cbn; lia).
  clearbody c0. revert c0 H0.
  induction Hos as [|o os Ho Hos IH]; intros c0 H0; cbn [map fold_left].
  - exact H0.
  - apply IH, option_of_ordered; assumption.
Qed.

(** X13 at the client of the package's tests: 1 ms and 5 ms. *)
Lemma NewClient_backoff_ordered_witness :
  let os := [CallWithRetry 2 (1 * Millisecond) (5 * Millisecond)] in
  Forall ordered_args os /\
  NewClient net_ok "test-key" (map option_of os) = testClient net_ok /\
  minBackoff (testClient net_ok) <= maxBackoff (testClient net_ok).
Proof.
  intros os.
  assert (H : Forall ordered_args os).
  { constructor; [right; vm_compute; discriminate|constructor]. }
  split; [exact H|]. split; [reflexivity|].
  exact (NewClient_backoff_ordered net_ok "test-key" os H).
Defined.

(** [WithRetry] in closed form. *)
Lemma WithRetry_eq r mn mx c :
  WithRetry r mn mx c =
  mkClient (apiKey c) (baseURL c) (ua c) (http c)
           (if r >=? 0 then r else maxRetries c)
           (if mn >? 0 then mn else minBackoff c)
           (if mx >=? (if mn >? 0 then mn else minBackoff c) then mx else maxBackoff c).
Proof.
  destruct c as [k b u h r0 mn0 mx0]. unfold WithRetry.
  destruct (r >=? 0); destruct (mn >? 0);
    cbn [apiKey baseURL ua http maxRetries minBackoff maxBackoff];
    match goal with |- context [if ?b then _ else _] => destruct b end; reflexivity.
Qed.

(** X14: every option is idempotent: applied twice in a row it leaves
    the client it leaves when applied once. *)
Theorem option_idempotent o c :
  option_of o (option_of o c) = option_of o c.
Proof.
  destruct o as [u|h|u|r mn mx]; cbn [option_of]; try reflexivity.
  rewrite !WithRetry_eq. cbn [apiKey baseURL ua http maxRetries minBackoff maxBackoff].
  f_equal.
  - destruct (r >=? 0); reflexivity.
  - destruct (mn >? 0); reflexivity.
  - destruct (mn >? 0) eqn:Em; rewrite ?Em;
      match goal with |- context [mx >=? ?m] => destruct (mx >=? m) eqn:Ex end;
      reflexivity.
Qed.



(** ** The random source *)

Lemma residue_table :
  forallb (fun k => near_residue k (Float64.div (Float64.of_Z k) Float64.c10000))
          (Zseq 0 (Z.to_nat 10000)) = true.
Proof. vm_compute. reflexivity. Qed.

Lemma near_residue_of k :
  0 <= k < 10000 ->
  near_residue k (Float64.div (Float64.of_Z k) Float64.c10000) = true.
Proof.
  intros Hk. pose proof residue_table as H. rewrite forallb_forall in H.
  apply H, In_Zseq. rewrite Z2Nat.id; lia.
Qed.

(** The residue can be read back from the double. *)
Lemma near_residue_inj k1 k2 f :
  near_residue k1 f = true -> near_residue k2 f = true -> k1 = k2.
Proof.
  destruct f as [[|]| | |[|] M e]; cbn [near_residue]; try discriminate.
  - intros H1 H2. apply Z.eqb_eq in H1, H2. lia.
  - intros H1 H2.
    repeat (apply andb_true_iff in H1; destruct H1 as [H1 ?]).
    repeat (apply andb_true_iff in H2; destruct H2 as [H2 ?]).
    repeat match goal with H : (_ <? _) = true |- _ => apply Z.ltb_lt in H end.
    assert (Hp : 0 < 2 ^ (- e)) by (apply Z.pow_pos_nonneg; lia).
    nia.
Qed.

Lemma near_residue_unit k f :
  0 <= k < 10000 -> near_residue k f = true -> in_unit_interval f.
Proof.
  intros Hk. destruct f as [[|]| | |[|] M e]; cbn [near_residue]; try discriminate.
  - intros _. left. reflexivity.
  - intros H. repeat (apply andb_true_iff in H; destruct H as [H ?]).
    repeat match goal with H : (_ <? _) = true |- _ => apply Z.ltb_lt in H end.
    right. exists M, e. split; [reflexivity|]. split; [assumption|].
    assert (Hp : 0 < 2 ^ (- e)) by (apply Z.pow_pos_nonneg; lia).
    nia.
Qed.

(** One call of [randFloat]: the step of the counter, and the value
    that belongs to the residue of the new counter. *)
Lemma randFloat_step w :
  lcg (snd (randFloat w)) = (lcg w * 2862933555777941757 + 3037000493) mod 2 ^ 64 /\
  near_residue (lcg (snd (randFloat w)) mod 10000) (fst (randFloat w)) = true.
Proof.
  unfold randFloat. cbn [fst snd lcg]. unfold Uint64.wrap, Int64.modulus.
  split; [reflexivity|]. apply near_residue_of. apply Z.mod_pos_bound. lia.
Qed.

(** X16: [randFloat] keeps its promise of a value in [0, 1): from every
    state of the counter, numbers outside [uint64] included, it returns
    the double nearest to [k / 10000] for the residue [k] of the new
    counter modulo 10000; the new counter is a [uint64]; nothing else of
    the world changes. *)
Theorem randFloat_unit_interval w :
  let r := fst (randFloat w) in
  let w' := snd (randFloat w) in
  in_unit_interval r /\
  near_residue (lcg w' mod 10000) r = true /\
  0 <= lcg w' < 2 ^ 64 /\
  lcg w' = (lcg w * 2862933555777941757 + 3037000493) mod 2 ^ 64 /\
  calls w' = calls w /\ defers w' = defers w /\ trace w' = trace w.
Proof.
  cbn zeta. destruct (randFloat_step w) as [Hl Hn].
  split.
  { apply (near_residue_unit (lcg (snd (randFloat w)) mod 10000)); [|exact Hn].
    apply Z.mod_pos_bound. lia. }
  split; [exact Hn|]. split; [rewrite Hl; apply Z.mod_pos_bound; lia|].
  split; [exact Hl|]. repeat split.
Qed.

(** The parity of the counter flips at every step. *)
Lemma lcg_step_parity l :
  ((l * 2862933555777941757 + 3037000493) mod 2 ^ 64) mod 2 = (l + 1) mod 2.
Proof.
  rewrite Z.mod_mod_divide by (exists (2 ^ 63); reflexivity).
  replace (l * 2862933555777941757 + 3037000493)
    with (l + 1 + (l * 1431466777888970878 + 1518500246) * 2) by lia.
  apply Z.mod_add. lia.
Qed.

(** X17: [randFloat] does not degenerate to a constant: from every state
    of the counter, the counter changes at every call and two consecutive
    calls return different values.  The multiplier and the increment are
    odd, so the parity of the counter, and with it the residue modulo
    10000, flips at every step. *)
Theorem randFloat_consecutive_differ w :
  let w1 := snd (randFloat w) in
  lcg w1 <> lcg w /\
  fst (randFloat w) <> fst (randFloat w1).
Proof.
  cbn zeta.
  destruct (randFloat_step w) as [Hl1 Hn1].
  destruct (randFloat_step (snd (randFloat w))) as [Hl2 Hn2].
  set (w1 := snd (randFloat w)) in *. set (w2 := snd (randFloat w1)) in *.
  assert (Hflip : forall l, ((l * 2862933555777941757 + 3037000493) mod 2 ^ 64) mod 2
                            <> l mod 2).
  { intros l. rewrite lcg_step_parity.
    pose proof (Z.div_mod l 2 ltac:(lia)).
    pose proof (Z.div_mod (l + 1) 2 ltac:(lia)).
    pose proof (Z.mod_pos_bound l 2 ltac:(lia)).
    pose proof (Z.mod_pos_bound (l + 1) 2 ltac:(lia)).
    lia. }
  split.
  - intros Heq. apply (Hflip (lcg w)). rewrite <- Hl1, Heq. reflexivity.
  - assert (Hk : forall l, (l mod 10000) mod 2 = l mod 2).
    { intros l. apply Z.mod_mod_divide. exists 5000. reflexivity. }
    intros Heq. rewrite Heq in Hn1.
    pose proof (near_residue_inj _ _ _ Hn1 Hn2) as Hres.
    apply (Hflip (lcg w1)). rewrite <- Hl2, <- (Hk (lcg w2)), <- Hres. apply Hk.
Qed.

(** ** The delay is never above the cap *)

Lemma binary_round_aux_sign sx m e l :
  match binary_round_aux 53 1024 sx m e l with
  | S754_finite s _ _ | S754_infinity s | S754_zero s => s = sx
  | S754_nan => True
  end.
Proof.
  unfold binary_round_aux.
  destruct (shr_fexp 53 1024 m e l) as [mrs' e'].
  destruct (shr_fexp 53 1024 _ e' loc_Exact) as [mrs'' e''].
  destruct (shr_m mrs''); try exact I; [reflexivity|].
  destruct (e'' <=? 1024 - 53); reflexivity.
Qed.

(** The product of a negative integer and a positive double is not a
    positive number: converted to [int64] it is not above zero. *)
Lemma mul_negative_nonpos p M e :
  Float64.to_int64 (Float64.mul (Float64.of_Z (Zneg p)) (S754_finite false M e)) <= 0.
Proof.
  assert (Hmin : Int64.min_int <= 0) by (unfold Int64.min_int, Int64.half; lia).
  assert (Hto : forall f,
            match f with
            | S754_finite s _ _ | S754_infinity s | S754_zero s => s = true
            | S754_nan => True
            end -> Float64.to_int64 f <= 0).
  { intros [s| | |s m0 e0] Hs; cbn [Float64.to_int64]; try lia.
    subst s. cbv zeta.
    assert (0 <= Z.shiftl (Zpos m0) e0) by (apply Z.shiftl_nonneg; lia).
    match goal with |- context [if ?b then _ else _] => destruct b end; lia. }
  apply Hto.
  unfold Float64.of_Z, binary_normalize, binary_round, Float64.prec, Float64.emax.
  destruct (shl_align p 0 (fexp 53 1024 (Zpos (digits2_pos p) + 0))) as [mz ez].
  pose proof (binary_round_aux_sign true (Zpos mz) ez loc_Exact) as Hs.
  unfold Float64.mul, Float64.prec, Float64.emax.
  destruct (binary_round_aux 53 1024 true (Zpos mz) ez loc_Exact) as [s| | |s m0 e0];
    cbn [SFmul]; try exact I; subst s; try reflexivity.
  apply (binary_round_aux_sign (xorb true false)).
Qed.

(** X18: [backoff] never returns more than 1.2 times the cap.  For every
    attempt [n >= 0], every minimum (negative ones and those whose power
    overflows included) and every cap [0 <= max <= 2^52 ns], the call
    returns, without a panic, a delay [B] with [B <= 1.2 * max]; the
    delay before the jitter is never above [max]. *)
Theorem backoff_never_above_cap n mn mx w :
  0 <= n -> 0 <= mx <= 2 ^ 52 ->
  exists d B,
    backoff_base n mn mx = Some d /\ d <= mx /\
    fst (backoff n mn mx w) = Some B /\ 10 * B <= 12 * mx.
Proof.
  intros Hn Hmx. unfold backoff.
  destruct (shl_nonneg n Hn) as [p Hp].
  unfold backoff_base. rewrite Hp.
  set (d := if Int64.mul mn p >? mx then mx else Int64.mul mn p).
  assert (Hd : d <= mx).
  { subst d. destruct (Int64.mul mn p >? mx) eqn:E; [lia|].
    rewrite Z.gtb_ltb in E. apply Z.ltb_ge in E. exact E. }
  cbv beta delta [bind ret].
  pose proof (randFloat_jitter_ok w) as Hj.
  destruct (randFloat w) as [r w1]. cbn [fst] in *.
  exists d, (Float64.to_int64 (Float64.mul (Float64.of_Z d) (jitter r))).
  split; [reflexivity|]. split; [exact Hd|]. split; [reflexivity|].
  destruct (jitter r) as [| | |[|] M e] eqn:Ej; try discriminate Hj.
  clearbody d. destruct d as [|q|q].
  - change (Float64.to_int64 (Float64.mul (Float64.of_Z 0) (S754_finite false M e)))
      with 0. lia.
  - destruct (mul_truncated_bounds (Zpos q) M e ltac:(lia) Hj) as (_ & H2 & _). lia.
  - pose proof (mul_negative_nonpos q M e). lia.
Qed.

(** X18 at the overflow of the default bounds: attempt 36 yields a
    negative delay, which is below the cap all the same. *)
Lemma backoff_never_above_cap_witness :
  (0 <= 36 /\ 0 <= 4 * Second <= 2 ^ 52) /\
  fst (backoff 36 (250 * Millisecond) (4 * Second) world0) = Some (-1127518651841500928) /\
  exists d B,
    backoff_base 36 (250 * Millisecond) (4 * Second) = Some d /\ d <= 4 * Second /\
    fst (backoff 36 (250 * Millisecond) (4 * Second) world0) = Some B /\
    10 * B <= 12 * (4 * Second).
Proof.
  assert (H1 : 0 <= 36) by lia.
  assert (H2 : 0 <= 4 * Second <= 2 ^ 52) by (vm_compute; split; discriminate).
  split; [split; assumption|]. split; [vm_compute; reflexivity|].
  exact (backoff_never_above_cap 36 (250 * Millisecond) (4 * Second) world0 H1 H2).
Defined.

(** ** The command line *)

Lemma drop_prefix_app p : forall s t, drop_prefix p s = Some t -> s = (p ++ t)%list.
Proof.
  induction p as [|a p IH]; intros s t H; cbn [drop_prefix] in H.
  - injection H as ->. reflexivity.
  - destruct s as [|b s]; [discriminate|].
    destruct (Ascii.eqb a b) eqn:E; [|discriminate].
    apply Ascii.eqb_eq in E. subst b. cbn [app]. f_equal. apply IH, H.
Qed.

Lemma drop_prefix_of p : forall t, drop_prefix p (p ++ t) = Some t.
Proof.
  induction p as [|a p IH]; intros t; cbn [drop_prefix app]; [reflexivity|].
  rewrite Ascii.eqb_refl. apply IH.
Qed.

Lemma strip_app rs : forall s t,
  strip rs s = Some t -> exists p, In p rs /\ s = (p ++ t)%list.
Proof.
  induction rs as [|r rs IH]; intros s t H; cbn [strip] in H; [discriminate|].
  destruct (drop_prefix r s) as [t'|] eqn:E.
  - injection H as ->. exists r. split; [left; reflexivity|].
    apply drop_prefix_app, E.
  - destruct (IH s t H) as (p & Hp & Hs). exists p. split; [right; exact Hp|exact Hs].
Qed.

Lemma strip_none rs : forall s p t,
  strip rs s = None -> In p rs -> s <> (p ++ t)%list.
Proof.
  induction rs as [|r rs IH]; intros s p t H Hin Hs; [destruct Hin|].
  cbn [strip] in H. destruct (drop_prefix r s) eqn:E; [discriminate|].
  destruct Hin as [->|Hin].
  - subst s. rewrite drop_prefix_of in E. discriminate.
  - exact (IH s p t H Hin Hs).
Qed.

(** With fuel for its whole input, [trim] leaves a tail of the input that
    starts with none of the sequences. *)
Lemma trim_spec rs :
  (forall r, In r rs -> r <> []) ->
  forall fuel s, (List.length s <= fuel)%nat ->
    strip rs (trim rs fuel s) = None /\
    exists pre, s = (pre ++ trim rs fuel s)%list.
Proof.
  intros Hne. induction fuel as [|f IH]; intros s Hlen.
  - destruct s; [|cbn in Hlen; lia]. cbn [trim]. split; [|exists []; reflexivity].
    destruct (strip rs []) as [t|] eqn:E; [|reflexivity].
    destruct (strip_app rs _ _ E) as (p & Hp & Hs).
    destruct p; [exfalso; exact (Hne _ Hp eq_refl)|discriminate].
  - cbn [trim]. destruct (strip rs s) as [t|] eqn:E.
    + destruct (strip_app rs _ _ E) as (p & Hp & Hs).
      assert (Hlt : (List.length t <= f)%nat).
      { subst s. rewrite length_app in Hlen.
        destruct p; [exfalso; exact (Hne _ Hp eq_refl)|cbn in Hlen; lia]. }
      destruct (IH t Hlt) as [H1 [pre H2]]. split; [exact H1|].
      exists (p ++ pre)%list. rewrite <- app_assoc, <- H2. exact Hs.
    + split; [exact E|]. exists []. reflexivity.
Qed.

Lemma trim_fixed rs fuel s : strip rs s = None -> trim rs fuel s = s.
Proof. intros H. destruct fuel; cbn [trim]; [reflexivity|]. rewrite H. reflexivity. Qed.

Lemma space_runes_nonempty r : In r space_runes -> r <> [].
Proof.
  unfold space_runes. intros H Hr.
  apply in_map_iff in H. destruct H as (x & Hx & Hin).
  rewrite Hr in Hx. destruct x; [|discriminate Hx].
  repeat (destruct Hin as [Hin|Hin]; [discriminate Hin|]). exact Hin.
Qed.

Lemma rev_space_runes_nonempty r : In r (map (@rev ascii) space_runes) -> r <> [].
Proof.
  intros H Hr. apply in_map_iff in H. destruct H as (x & Hx & Hin). rewrite Hr in Hx.
  apply (space_runes_nonempty x Hin).
  apply (f_equal (@rev ascii)) in Hx. rewrite rev_involutive in Hx. exact Hx.
Qed.

(** The three facts about [TrimSpace] the rest needs: the result is a
    part of the input, and no space is left at either end. *)
Lemma TrimSpace_spec s :
  let t := list_ascii_of_string (TrimSpace s) in
  (exists a b, list_ascii_of_string s = (a ++ t ++ b)%list) /\
  strip space_runes t = None /\
  strip (map (@rev ascii) space_runes) (rev t) = None.
Proof.
  cbn zeta. unfold TrimSpace.
  set (l := list_ascii_of_string s).
  destruct (trim_spec space_runes space_runes_nonempty (List.length l) l (le_n _))
    as [H1 [pre Hpre]].
  set (l1 := trim space_runes (List.length l) l) in *.
  destruct (trim_spec (map (@rev ascii) space_runes) rev_space_runes_nonempty
              (List.length l1) (rev l1) ltac:(rewrite length_rev; lia))
    as [H2 [post Hpost]].
  set (m := trim (map (@rev ascii) space_runes) (List.length l1) (rev l1)) in *.
  rewrite list_ascii_of_string_of_list_ascii.
  assert (Hl1 : l1 = (rev m ++ rev post)%list).
  { rewrite <- rev_app_distr, <- Hpost, rev_involutive. reflexivity. }
  split; [exists pre, (rev post); rewrite Hpre, Hl1; reflexivity|].
  split; [|rewrite rev_involutive; exact H2].
  destruct (strip space_runes (rev m)) as [t|] eqn:E; [|reflexivity].
  exfalso. destruct (strip_app _ _ _ E) as (p & Hp & Hs).
  apply (strip_none space_runes l1 p (t ++ rev post) H1 Hp).
  rewrite Hl1, Hs, <- app_assoc. reflexivity.
Qed.

Lemma TrimSpace_fixed s :
  strip space_runes (list_ascii_of_string s) = None ->
  strip (map (@rev ascii) space_runes) (rev (list_ascii_of_string s)) = None ->
  TrimSpace s = s.
Proof.
  intros H1 H2. unfold TrimSpace. cbv zeta.
  rewrite (trim_fixed _ _ _ H1), (trim_fixed _ _ _ H2), rev_involutive.
  apply string_of_list_ascii_of_string.
Qed.

Lemma TrimSpace_idempotent s : TrimSpace (TrimSpace s) = TrimSpace s.
Proof.
  destruct (TrimSpace_spec s) as (_ & H1 & H2). apply TrimSpace_fixed; assumption.
Qed.

Lemma has_comma_list s :
  has_comma s = existsb (Ascii.eqb ",") (list_ascii_of_string s).
Proof.
  induction s as [|ch s IH]; [reflexivity|]. cbn [has_comma list_ascii_of_string existsb].
  rewrite IH, (Ascii.eqb_sym ch). reflexivity.
Qed.

Lemma TrimSpace_no_comma s : has_comma s = false -> has_comma (TrimSpace s) = false.
Proof.
  rewrite !has_comma_list. destruct (TrimSpace_spec s) as ((a & b & Hs) & _).
  rewrite Hs, !existsb_app. intros H.
  apply orb_false_iff in H. destruct H as [_ H].
  apply orb_false_iff in H. destruct H as [H _]. exact H.
Qed.

Lemma Split_comma_no_comma s : Forall (fun p => has_comma p = false) (Split_comma s).
Proof.
  induction s as [|ch s IH]; cbn [Split_comma]; [repeat constructor|].
  destruct (Ascii.eqb ch ",") eqn:E; [constructor; [reflexivity|exact IH]|].
  destruct (Split_comma s) as [|p ps]; [repeat constructor; cbn; rewrite E; reflexivity|].
  inversion IH as [|? ? Hp Hps]; subst. constructor; [|exact Hps].
  cbn [has_comma]. rewrite E, Hp. reflexivity.
Qed.

(** The loop of [splitCSV] keeps the entries that trimming leaves. *)
Lemma splitCSV_loop ps : forall out,
  fold_left
    (fun out p =>
       let p := TrimSpace p in
       if negb (String.eqb p "") then (out ++ [p])%list else out) ps out
  = (out ++ filter (fun p => negb (String.eqb p "")) (map TrimSpace ps))%list.
Proof.
  induction ps as [|p ps IH]; intros out; cbn [fold_left map filter].
  - rewrite app_nil_r. reflexivity.
  - rewrite IH. cbv zeta.
    destruct (negb (TrimSpace p =? "")%string); [rewrite <- app_assoc|]; reflexivity.
Qed.

(** [splitCSV] without its loop. *)
Lemma splitCSV_eq s :
  splitCSV s = filter (fun p => negb (String.eqb p ""))
                      (map TrimSpace (if String.eqb s "" then [] else Split_comma s)).
Proof.
  unfold splitCSV. destruct (String.eqb s ""); [reflexivity|]. apply splitCSV_loop.
Qed.

(** X19: what [splitCSV] returns.  Every entry is a trimmed piece of the
    input between two commas: it is not empty, holds no comma, and has no
    white space of Unicode at its ends; the entries come in the order of
    the input, and there are no more of them than commas plus one. *)
Theorem splitCSV_entries s :
  Forall csv_entry (splitCSV s) /\
  splitCSV s = filter (fun p => negb (String.eqb p ""))
                      (map TrimSpace (if String.eqb s "" then [] else Split_comma s)) /\
  (List.length (splitCSV s) <= List.length (Split_comma s))%nat.
Proof.
  pose proof (splitCSV_eq s) as Heq.
  split; [|split; [exact Heq|]].
  - rewrite Heq. apply Forall_forall. intros x Hx.
    apply filter_In in Hx. destruct Hx as [Hx Hne].
    apply in_map_iff in Hx. destruct Hx as (p & <- & Hp).
    split; [|split].
    + apply negb_true_iff, String.eqb_neq in Hne. exact Hne.
    + apply TrimSpace_no_comma.
      destruct (String.eqb s ""); [destruct Hp|].
      pose proof (Split_comma_no_comma s) as H. rewrite Forall_forall in H. apply H, Hp.
    + apply TrimSpace_idempotent.
  - rewrite Heq. destruct (String.eqb s "").
    + cbn. lia.
    + etransitivity; [apply filter_length_le|]. rewrite length_map. lia.
Qed.

Lemma Split_comma_entry x : has_comma x = false -> Split_comma x = [x].
Proof.
  induction x as [|ch x IH]; [reflexivity|]. cbn [has_comma Split_comma]. intros H.
  apply orb_false_iff in H. destruct H as [H1 H2]. rewrite H1, (IH H2). reflexivity.
Qed.

Lemma Split_comma_app x r :
  has_comma x = false ->
  Split_comma (x ++ "," ++ r)%string = x :: Split_comma r.
Proof.
  induction x as [|ch x IH]; intros H.
  - reflexivity.
  - cbn [has_comma] in H. apply orb_false_iff in H. destruct H as [H1 H2].
    cbn [String.append Split_comma]. rewrite H1.
    change (String.append x (String "," r)) with (x ++ "," ++ r)%string.
    rewrite (IH H2). reflexivity.
Qed.

Lemma Split_comma_Join xs :
  xs <> [] -> Forall (fun x => has_comma x = false) xs ->
  Split_comma (Join_comma xs) = xs.
Proof.
  induction xs as [|x xs IH]; intros Hne H; [contradiction|].
  inversion H as [|? ? Hx Hxs]; subst.
  destruct xs as [|y ys].
  - cbn [Join_comma]. apply Split_comma_entry, Hx.
  - change (Join_comma (x :: y :: ys)) with (x ++ "," ++ Join_comma (y :: ys))%string.
    rewrite (Split_comma_app _ _ Hx), IH; [reflexivity|discriminate|exact Hxs].
Qed.

(** X20: [splitCSV] reads back a list written with commas: for entries
    that are not empty, hold no comma and have no white space at their
    ends, splitting their join returns them as they were. *)
Theorem splitCSV_Join xs :
  Forall csv_entry xs -> splitCSV (Join_comma xs) = xs.
Proof.
  intros H. rewrite splitCSV_eq.
  destruct xs as [|x xs]; [reflexivity|].
  assert (Hne : (Join_comma (x :: xs) =? "")%string = false).
  { apply String.eqb_neq. inversion H as [|? ? (Hx & _) _]; subst.
    destruct x; [contradiction|]. destruct xs; discriminate. }
  rewrite Hne, Split_comma_Join; [|discriminate|].
  2:{ apply Forall_forall. intros y Hy. rewrite Forall_forall in H. apply (H y Hy). }
  induction H as [|y ys (Hy1 & Hy2 & Hy3) Hys IH]; [reflexivity|].
  cbn [map filter]. rewrite Hy3.
  apply String.eqb_neq in Hy1. rewrite Hy1. cbn [negb]. f_equal.
  destruct ys; [reflexivity|]. apply IH.
  apply String.eqb_neq. inversion Hys as [|? ? (Hx & _) _]; subst.
  destruct s; [contradiction|]. destruct ys; discriminate.
Qed.

(** X20 at two domains. *)
Lemma splitCSV_Join_witness :
  Forall csv_entry ["example.com"; "go.dev"]%string /\
  splitCSV " example.com ,, go.dev" = ["example.com"; "go.dev"]%string /\
  splitCSV (Join_comma ["example.com"; "go.dev"]%string) = ["example.com"; "go.dev"]%string.
Proof.
  assert (H : Forall csv_entry ["example.com"; "go.dev"]%string).
  { repeat constructor; try discriminate; vm_compute; reflexivity. }
  split; [exact H|]. split; [vm_compute; reflexivity|].
  exact (splitCSV_Join _ H).
Defined.

(** X21: the client of the command line.  The [WithRetry(3, 250ms, 4s)]
    that [cmdSearch] passes repeats the defaults: for every key and every
    value of the flags [-base] and [-ua], its client is the client
    [cmdFetch] and [cmdBalance] build without it.  An empty flag keeps the
    default, a base URL loses its trailing slashes, and a search from the
    command line returns within four transport attempts. *)
Theorem cmdSearch_client_policy P net key base ua' req w :
  let c := cliClient net true key base ua' in
  c = cliClient net false key base ua' /\
  c = mkClient key
               (if String.eqb base "" then defaultBaseURL else TrimRight_slash base)
               (if String.eqb ua' "" then defaultUA else ua')
               (mkHTTPClient (30 * Second) net)
               3 (250 * Millisecond) (4 * Second) /\
  exists r w',
    (forall fuel, (3 < fuel)%nat -> Search P fuel c req w = (Return r, w')) /\
    (calls w' - calls w <= 4)%nat.
Proof.
  cbn zeta.
  assert (Hc : cliClient net true key base ua' =
               mkClient key
                 (if String.eqb base "" then defaultBaseURL else TrimRight_slash base)
                 (if String.eqb ua' "" then defaultUA else ua')
                 (mkHTTPClient (30 * Second) net)
                 3 (250 * Millisecond) (4 * Second)).
  { unfold cliClient, cliOptions, NewClient.
    destruct (String.eqb base ""); destruct (String.eqb ua' ""); reflexivity. }
  split.
  { rewrite Hc. unfold cliClient, cliOptions, NewClient.
    destruct (String.eqb base ""); destruct (String.eqb ua' ""); reflexivity. }
  split; [exact Hc|].
  rewrite Hc.
  match goal with |- context [Search P _ ?c0 req w] => set (c := c0) end.
  assert (Hrange : 0 <= maxRetries c <= Int64.max_int)
    by (unfold c, Int64.max_int, Int64.half; cbn [maxRetries]; lia).
  destruct (Search_run P c req w Hrange)
    as (r & w' & t & Hall & Hle & _ & _ & _ & _ & _ & _ & _ & Hb & _).
  exists r, w'. split.
  - intros fuel Hf. apply Hall. unfold c. cbn [maxRetries]. lia.
  - unfold c in Hb. cbn [maxRetries] in Hb. lia.
Qed.

(** ** Errors before the transport *)

(** X22: an error in building the request reaches no transport.  When
    the request cannot be encoded, or the URL is refused by
    [http.NewRequestWithContext], each of the three calls returns that
    error and makes no transport call, reads nothing, sleeps not and
    leaves the world as it was. *)
Theorem request_errors_reach_no_transport P c sreq freq w e :
  apiKey c <> EmptyString ->
  (json_Marshal_Search P sreq = Err e \/
   (exists b, json_Marshal_Search P sreq = Ok b) /\
   url_error P (baseURL c ++ "/search") = Some e ->
   forall fuel, (0 < fuel)%nat ->
     fst (Search P fuel c sreq w) = Return (Err e) /\
     calls (snd (Search P fuel c sreq w)) = calls w /\
     trace (snd (Search P fuel c sreq w)) = trace w /\
     lcg (snd (Search P fuel c sreq w)) = lcg w /\
     defers (snd (Search P fuel c sreq w)) = defers w) /\
  (FURL freq <> EmptyString ->
   json_Marshal_Fetch P freq = Err e \/
   (exists b, json_Marshal_Fetch P freq = Ok b) /\
   url_error P (baseURL c ++ "/fetch") = Some e ->
   Fetch P c freq w = (Err e, w)) /\
  (url_error P (baseURL c ++ "/credits/balance") = Some e ->
   GetBalance P c w = (Err e, w)).
Proof.
  intros Hkey. apply String.eqb_neq in Hkey.
  split; [|split].
  - intros H [|f] Hf; [lia|]. unfold Search. rewrite Hkey.
    destruct H as [Hm|[[b Hm] Hurl]]; rewrite Hm.
    + repeat split.
    + unfold frame. rewrite searchLoop_S. unfold searchStep, NewRequestWithContext.
      rewrite Hurl. repeat split.
  - intros Hfurl H. apply String.eqb_neq in Hfurl. unfold Fetch. rewrite Hkey, Hfurl.
    destruct H as [Hm|[[b Hm] Hurl]]; rewrite Hm; [reflexivity|].
    unfold NewRequestWithContext. rewrite Hurl. reflexivity.
  - intros Hurl. unfold GetBalance, NewRequestWithContext. rewrite Hkey, Hurl. reflexivity.
Qed.

(** X22 on a platform that refuses every URL. *)
Lemma request_errors_reach_no_transport_witness :
  let P := mkPlatform JSON.Marshal_Search JSON.Marshal_Fetch
                      (fun _ => Some (ErrRequest "invalid URL"))
                      JSON.Unmarshal_APIError JSON.Decode_Balance in
  let c := testClient net_ok in
  apiKey c <> EmptyString /\
  Search P 3 c exampleSearch world0 = (Return (Err (ErrRequest "invalid URL")), world0) /\
  Fetch P c exampleFetch world0 = (Err (ErrRequest "invalid URL"), world0) /\
  GetBalance P c world0 = (Err (ErrRequest "invalid URL"), world0).
Proof.
  intros P c.
  assert (Hkey : apiKey c <> EmptyString) by discriminate.
  destruct (request_errors_reach_no_transport P c exampleSearch exampleFetch world0
              (ErrRequest "invalid URL") Hkey) as (_ & HF & HB).
  split; [exact Hkey|]. split; [reflexivity|].
  split; [apply HF; [discriminate|right; split; [eexists; reflexivity|reflexivity]]|].
  apply HB. reflexivity.
Defined.

(** ** A Retry-After header that is not a number *)

Lemma parse_digits_None ch s : forall acc,
  In ch (list_ascii_of_string s) -> digit_of ch = None -> parse_digits s acc = None.
Proof.
  induction s as [|a s IH]; intros acc Hin Hd; [destruct Hin|].
  cbn [parse_digits]. destruct Hin as [->|Hin].
  - rewrite Hd. reflexivity.
  - destruct (digit_of a); [apply IH; assumption|reflexivity].
Qed.

Lemma Atoi_not_a_number s ch :
  In ch (list_ascii_of_string s) -> digit_of ch = None ->
  ch <> "+"%char -> ch <> "-"%char ->
  Atoi s = None.
Proof.
  intros Hin Hd Hp Hm. destruct s as [|a s]; [reflexivity|].
  unfold Atoi.
  assert (Hrest : a <> ch -> In ch (list_ascii_of_string s)).
  { intros Hne. destruct Hin as [Heq|Hin]; [contradiction|exact Hin]. }
  destruct (Ascii.eqb a "+") eqn:E1.
  { apply Ascii.eqb_eq in E1. subst a.
    destruct s as [|b s]; [reflexivity|].
    rewrite (parse_digits_None ch (String b s) 0 (Hrest (fun H => Hp (eq_sym H))) Hd).
    reflexivity. }
  destruct (Ascii.eqb a "-") eqn:E2.
  { apply Ascii.eqb_eq in E2. subst a.
    destruct s as [|b s]; [reflexivity|].
    rewrite (parse_digits_None ch (String b s) 0 (Hrest (fun H => Hm (eq_sym H))) Hd).
    reflexivity. }
  rewrite (parse_digits_None ch (String a s) 0 Hin Hd). reflexivity.
Qed.

(** X23: a Retry-After header that is not a decimal integer is ignored.
    When the value holds a character that is neither a digit nor a sign,
    as every HTTP date does, the retry of [Search] does not fail and does
    not wait for the date: it sleeps for [backoff] as if the header were
    absent. *)
Theorem Retry_After_date_falls_back_to_backoff c n res w ch :
  In ch (list_ascii_of_string (Header_Get (Header res) "Retry-After")) ->
  digit_of ch = None -> ch <> "+"%char -> ch <> "-"%char ->
  retryAfterSeconds (Responded res) = None /\
  sleepRetryAfter c n res w = sleepBackoff c n w.
Proof.
  intros Hin Hd Hp Hm.
  pose proof (Atoi_not_a_number _ ch Hin Hd Hp Hm) as Ha.
  split.
  - cbn [retryAfterSeconds]. rewrite Ha. reflexivity.
  - apply sleepRetryAfter_backoff. left. exact Ha.
Qed.

(** X23 at an HTTP date. *)
Lemma Retry_After_date_falls_back_to_backoff_witness :
  let res := mkResponse 503 [("Retry-After", "Wed, 21 Oct 2015 07:28:00 GMT")%string]
                        (mkBody [] None) in
  let c := testClient (script [Responded res]) in
  retryAfterSeconds (Responded res) = None /\
  sleepRetryAfter c 0 res world0 = sleepBackoff c 0 world0.
Proof.
  intros res c.
  apply (Retry_After_date_falls_back_to_backoff c 0 res world0 "W"%char).
  - left. reflexivity.
  - reflexivity.
  - discriminate.
  - discriminate.
Defined.

(** ** The text of an API error *)

Lemma format_int_inj n n' : format_int n = format_int n' -> n = n'.
Proof.
  unfold format_int. intros H. apply DecimalZ.to_int_inj.
  pose proof (DecimalString.NilEmpty.isi (Z.to_int n)) as H1.
  pose proof (DecimalString.NilEmpty.isi (Z.to_int n')) as H2.
  rewrite H in H1. congruence.
Qed.

Lemma format_int_no_eq n : ~ In "="%char (list_ascii_of_string (format_int n)).
Proof.
  unfold format_int.
  assert (H : forall d, ~ In "="%char (list_ascii_of_string (DecimalString.NilEmpty.string_of_uint d))).
  { induction d; cbn [DecimalString.NilEmpty.string_of_uint list_ascii_of_string In];
      try (intros [H|H]; [discriminate H|exact (IHd H)]).
    intros []. }
  destruct (Z.to_int n) as [d|d]; cbn [DecimalString.NilEmpty.string_of_int list_ascii_of_string In].
  - apply H.
  - intros [E|E]; [discriminate E|exact (H d E)].
Qed.

Lemma append_inv_head (p s t : string) : (p ++ s)%string = (p ++ t)%string -> s = t.
Proof.
  induction p as [|a p IH]; cbn [String.append]; intros H; [exact H|].
  injection H as H. exact (IH H).
Qed.

Lemma list_ascii_of_string_app s t :
  list_ascii_of_string (s ++ t) = (list_ascii_of_string s ++ list_ascii_of_string t)%list.
Proof. induction s as [|a s IH]; cbn; [reflexivity|]. rewrite IH. reflexivity. Qed.

(** Two lists that agree and are cut at the last occurrence of [x]. *)
Lemma cut_at_last {A} (x : A) (l1 l2 r1 r2 : list A) :
  ~ In x r1 -> ~ In x r2 ->
  (l1 ++ x :: r1 = l2 ++ x :: r2)%list -> l1 = l2 /\ r1 = r2.
Proof.
  intros H1 H2 H.
  apply (f_equal (@rev A)) in H. rewrite !rev_app_distr in H. cbn [rev] in H.
  rewrite <- !app_assoc in H. cbn [app] in H.
  assert (Hcut : forall a b c d : list A,
            ~ In x a -> ~ In x c -> (a ++ x :: b = c ++ x :: d)%list -> a = c /\ b = d).
  { induction a as [|y a IH]; intros b c d Ha Hc E.
    - destruct c as [|z c]; [injection E as E; auto|].
      injection E as E1 E2. subst z. exfalso. apply Hc. left. reflexivity.
    - destruct c as [|z c].
      + injection E as E1 E2. subst y. exfalso. apply Ha. left. reflexivity.
      + injection E as E1 E2. subst z.
        destruct (IH b c d) as [-> ->]; auto.
        * intros Hi. apply Ha. right. exact Hi.
        * intros Hi. apply Hc. right. exact Hi. }
  destruct (Hcut (rev r1) (rev l1) (rev r2) (rev l2)) as [E1 E2].
  - rewrite <- in_rev. exact H1.
  - rewrite <- in_rev. exact H2.
  - exact H.
  - split.
    + apply (f_equal (@rev A)) in E2. rewrite !rev_involutive in E2. exact E2.
    + apply (f_equal (@rev A)) in E1. rewrite !rev_involutive in E1. exact E1.
Qed.

Lemma list_ascii_of_string_inj s t :
  list_ascii_of_string s = list_ascii_of_string t -> s = t.
Proof.
  intros H. rewrite <- (string_of_list_ascii_of_string s),
              <- (string_of_list_ascii_of_string t), H. reflexivity.
Qed.

(** X24: the text of an API error tells its status and its message:
    two errors with the same text have the same status and the same
    message (the details are not printed), and the text of an error is
    never that of the nil error. *)
Theorem APIError_Error_injective e1 e2 :
  APIError_Error (Some e1) = APIError_Error (Some e2) ->
  Status e1 = Status e2 /\ Message e1 = Message e2 /\
  APIError_Error (Some e1) <> APIError_Error None.
Proof.
  intros H. split; [|split].
  3:{ cbn [APIError_Error]. destruct (negb (Message e1 =? "")%string); discriminate. }
  all: cbn [APIError_Error] in H.
  all: destruct (Message e1 =? "")%string eqn:E1; destruct (Message e2 =? "")%string eqn:E2;
    cbn [negb] in H; try discriminate H.
  all: try (apply String.eqb_eq in E1, E2).
  - apply (append_inv_head "linkup api error (status=") in H.
    apply (f_equal list_ascii_of_string) in H. rewrite !list_ascii_of_string_app in H.
    apply app_inv_tail in H. apply list_ascii_of_string_inj in H.
    apply format_int_inj, H.
  - apply (append_inv_head "linkup api error: ") in H.
    apply (f_equal list_ascii_of_string) in H.
    rewrite !list_ascii_of_string_app in H.
    change (list_ascii_of_string " (status=")
      with ([" "; "("; "s"; "t"; "a"; "t"; "u"; "s"]%char ++ ["="%char])%list in H.
    rewrite <- !app_assoc in H. rewrite !app_assoc in H.
    rewrite <- !(app_assoc _ ["="%char]) in H. cbn [app] in H.
    rewrite <- !app_assoc in H. rewrite !(app_assoc (list_ascii_of_string _)) in H.
    apply cut_at_last in H.
    + destruct H as [_ H]. apply app_inv_tail in H.
      apply list_ascii_of_string_inj in H. apply format_int_inj, H.
    + intros Hi. apply in_app_or in Hi. destruct Hi as [Hi|[Hi|[]]];
        [exact (format_int_no_eq _ Hi)|discriminate Hi].
    + intros Hi. apply in_app_or in Hi. destruct Hi as [Hi|[Hi|[]]];
        [exact (format_int_no_eq _ Hi)|discriminate Hi].
  - congruence.
  - apply (append_inv_head "linkup api error: ") in H.
    apply (f_equal list_ascii_of_string) in H.
    rewrite !list_ascii_of_string_app in H.
    change (list_ascii_of_string " (status=")
      with ([" "; "("; "s"; "t"; "a"; "t"; "u"; "s"]%char ++ ["="%char])%list in H.
    rewrite <- !app_assoc in H. rewrite !app_assoc in H.
    rewrite <- !(app_assoc _ ["="%char]) in H. cbn [app] in H.
    rewrite <- !app_assoc in H. rewrite !(app_assoc (list_ascii_of_string _)) in H.
    apply cut_at_last in H.
    + destruct H as [H _]. apply app_inv_tail in H.
      apply list_ascii_of_string_inj in H. exact H.
    + intros Hi. apply in_app_or in Hi. destruct Hi as [Hi|[Hi|[]]];
        [exact (format_int_no_eq _ Hi)|discriminate Hi].
    + intros Hi. apply in_app_or in Hi. destruct Hi as [Hi|[Hi|[]]];
        [exact (format_int_no_eq _ Hi)|discriminate Hi].
Qed.

(** X24 at the error of the package's test: status 422, message
    "bad param". *)
Lemma APIError_Error_injective_witness :
  APIError_Error (Some (mkAPIError 422 "bad param" []))
    = "linkup api error: bad param (status=422)"%string /\
  APIError_Error (Some (mkAPIError 422 "bad param" [x7b; x7d]))
    = APIError_Error (Some (mkAPIError 422 "bad param" [])) /\
  APIError_Error (Some (mkAPIError 422 "bad param" [])) <> APIError_Error None.
Proof.
  split; [reflexivity|]. split; [reflexivity|].
  exact (proj2 (proj2 (APIError_Error_injective
                         (mkAPIError 422 "bad param" [x7b; x7d])
                         (mkAPIError 422 "bad param" []) eq_refl))).
Defined.

(** ** The whole trace of a [Search] call *)

Lemma sleepBackoff_lcg c n w w1 :
  sleepBackoff c n w = (true, w1) -> lcg w1 = lcg_next (lcg w).
Proof.
  unfold sleepBackoff, backoff. cbv beta delta [bind ret].
  destruct (backoff_base n (minBackoff c) (maxBackoff c)) as [d|].
  - unfold randFloat, Sleep, emit. cbn [fst snd]. intros H.
    pose proof (f_equal snd H) as H2. cbn [snd] in H2. subst w1. reflexivity.
  - intros H. discriminate (f_equal fst H).
Qed.

Lemma sleepRetryAfter_lcg c n res w w1 :
  sleepRetryAfter c n res w = (true, w1) ->
  lcg w1 = match retryAfterSeconds (Responded res) with
           | None => lcg_next (lcg w)
           | Some _ => lcg w
           end.
Proof.
  unfold sleepRetryAfter. cbn [retryAfterSeconds].
  destruct (negb (Header_Get (Header res) "Retry-After" =? "")%string) eqn:Hne.
  2:{ apply negb_false_iff, String.eqb_eq in Hne. rewrite Hne, Atoi_empty.
      apply sleepBackoff_lcg. }
  destruct (Atoi (Header_Get (Header res) "Retry-After")) as [secs|];
    [|apply sleepBackoff_lcg].
  destruct (secs >? 0); [|apply sleepBackoff_lcg].
  unfold Sleep, emit. cbv beta delta [bind ret]. intros H.
  pose proof (f_equal snd H) as H2. cbn [snd] in H2. subst w1. reflexivity.
Qed.

Lemma rev_attempt_events rq k (lr : list Event) :
  (List.length lr <= 1)%nat -> rev (EvDo k rq :: lr) = (lr ++ [EvDo k rq])%list.
Proof.
  intros H. destruct lr as [|e [|e' lr]]; [reflexivity|reflexivity|cbn in H; lia].
Qed.

Lemma length_lastRead rt k : (List.length (lastRead rt k) <= 1)%nat.
Proof. destruct rt; cbn; lia. Qed.

(** The trace and the counter after a run of the loop that returns. *)
Lemma searchLoop_trace P c url body :
  url_error P url = None ->
  forall fuel n w r w',
    searchLoop P fuel c url body n w = (Return r, w') ->
    exists ds,
      trace w' = (rev (loopTrace c (searchRequest c url body) (calls w) ds)
                    ++ trace w)%list /\
      lcg w' = Nat.iter (backoffWaits c (calls w) (List.length ds)) lcg_next (lcg w).
Proof.
  intros Hurl. induction fuel as [|f IH]; intros n w r w' Hrun; [discriminate Hrun|].
  rewrite searchLoop_S in Hrun. unfold searchStep, NewRequestWithContext in Hrun.
  rewrite Hurl in Hrun. cbv beta delta [bind] in Hrun.
  unfold Do at 1 in Hrun. cbn [fst snd] in Hrun.
  fold (searchRequest c url body) in Hrun.
  set (rq := searchRequest c url body) in *.
  assert (Hlast : forall r0 ds0,
            (Return r0, mkWorld (lcg w) (S (calls w)) ds0
                          (lastRead (roundTrip (http c) (calls w)) (calls w)
                             ++ EvDo (calls w) rq :: trace w)%list) = (Return r, w') ->
            exists ds,
              trace w' = (rev (loopTrace c rq (calls w) ds) ++ trace w)%list /\
              lcg w' = Nat.iter (backoffWaits c (calls w) (List.length ds)) lcg_next (lcg w)).
  { intros r0 ds0 H. apply returned_inv in H. destruct H as [_ ->].
    exists []. cbn [loopTrace trace lcg List.length].
    rewrite rev_attempt_events by apply length_lastRead.
    rewrite <- app_assoc. split; reflexivity. }
  assert (Hnext : forall (ok : bool) w1 w2,
            calls w1 = S (calls w) ->
            trace w1 = (lastRead (roundTrip (http c) (calls w)) (calls w)
                          ++ EvDo (calls w) rq :: trace w)%list ->
            lcg w1 = lcg w ->
            calls w2 = calls w1 ->
            (ok = true ->
             (exists d, trace w2 = EvSleep d :: trace w1) /\
             lcg w2 = match retryAfterSeconds (roundTrip (http c) (calls w)) with
                      | None => lcg_next (lcg w1)
                      | Some _ => lcg w1
                      end) ->
            (if ok then searchLoop P f c url body (Int64.add n 1) else ret Panic) w2
              = (Return r, w') ->
            exists ds,
              trace w' = (rev (loopTrace c rq (calls w) ds) ++ trace w)%list /\
              lcg w' = Nat.iter (backoffWaits c (calls w) (List.length ds)) lcg_next (lcg w)).
  { intros ok w1 w2 Hc1 Ht1 Hl1 Hc2 Hok H. destruct ok; [|discriminate (f_equal fst H)].
    destruct (Hok eq_refl) as [[d Ht2] Hl2].
    apply IH in H. destruct H as (ds & Ht & Hl).
    rewrite Hc2, Hc1 in Ht, Hl.
    exists (d :: ds). split.
    - rewrite Ht, Ht2, Ht1. cbn [loopTrace].
      rewrite rev_app_distr.
      rewrite rev_attempt_events by apply length_lastRead.
      cbn [rev]. rewrite <- !app_assoc. reflexivity.
    - rewrite Hl, Hl2, Hl1. cbn [List.length]. unfold backoffWaits. cbn [seq filter].
      destruct (retryAfterSeconds (roundTrip (http c) (calls w))).
      + reflexivity.
      + cbn [List.length]. rewrite Nat.iter_succ_r. reflexivity. }
  destruct (roundTrip (http c) (calls w)) as [msg|res] eqn:Hans.
  - cbn [lastRead app] in Hlast, Hnext.
    destruct (n <? maxRetries c).
    + match type of Hrun with context [sleepBackoff c n ?w1] =>
        destruct (sleepBackoff c n w1) as [ok w2] eqn:Hs;
        pose proof (sleepBackoff_effect _ _ _ _ _ Hs) as (Hc & _ & d & Ht);
        apply (Hnext ok w1 w2); try assumption; try reflexivity
      end.
      intros ->. split; [exists d; exact Ht|].
      apply sleepBackoff_lcg in Hs. exact Hs.
    + unfold ret in Hrun. exact (Hlast _ _ Hrun).
  - unfold deferClose at 1 in Hrun. cbn [lastRead app] in Hlast, Hnext.
    destruct ((StatusCode res <? 200) || (StatusCode res >=? 300)) eqn:Hnon.
    + unfold readBody in Hrun. cbv beta delta [bind emit ret] in Hrun.
      cbn [fst snd lcg calls defers trace] in Hrun.
      destruct (shouldRetry (StatusCode res) && (n <? maxRetries c)).
      * match type of Hrun with context [sleepRetryAfter c n res ?w1] =>
          destruct (sleepRetryAfter c n res w1) as [ok w2] eqn:Hs;
          pose proof (sleepRetryAfter_effect _ _ _ _ _ _ Hs) as (Hc & _ & d & Ht);
          apply (Hnext ok w1 w2); try assumption; try reflexivity
        end.
        intros ->. split; [exists d; exact Ht|].
        apply sleepRetryAfter_lcg in Hs. exact Hs.
      * exact (Hlast _ _ Hrun).
    + unfold readBody in Hrun. cbv beta delta [bind emit ret] in Hrun.
      cbn [fst snd lcg calls defers trace ReadAll] in Hrun.
      destruct (body_err (Body res)); exact (Hlast _ _ Hrun).
Qed.

Lemma waits_loopTrace c rq ds : forall k,
  map sleep_duration (filter is_Sleep (loopTrace c rq k ds)) = ds.
Proof.
  induction ds as [|d ds IH]; intros k; cbn [loopTrace].
  - cbn [filter is_Do is_Sleep]. destruct (roundTrip (http c) k); reflexivity.
  - rewrite filter_app, map_app. cbn [filter is_Sleep map sleep_duration].
    rewrite IH. destruct (roundTrip (http c) k); reflexivity.
Qed.

Lemma filter_rev {A} (f : A -> bool) l : filter f (rev l) = rev (filter f l).
Proof.
  induction l as [|a l IH]; [reflexivity|]. cbn [rev filter].
  rewrite filter_app, IH. cbn [filter]. destruct (f a); [reflexivity|apply app_nil_r].
Qed.

(** X25: the whole trace of a [Search] call that reaches the transport.
    In the order of time: for every attempt the request and, when a
    response came, one read of its body; after every attempt but the last
    one wait, which follows the answer (Retry-After or [backoff]); and when
    the call returns the deferred closes of all the bodies received, the
    latest first.  Nothing else happens.  The counter behind [randFloat]
    has advanced once for every wait that no Retry-After header dictated,
    and not otherwise. *)
Theorem Search_trace P c req w body :
  0 <= maxRetries c <= Int64.max_int ->
  apiKey c <> EmptyString ->
  json_Marshal_Search P req = Ok body ->
  url_error P (baseURL c ++ "/search") = None ->
  exists r w' ds,
    (forall fuel, (Z.to_nat (maxRetries c) < fuel)%nat ->
                  Search P fuel c req w = (Return r, w')) /\
    calls w' = (calls w + S (List.length ds))%nat /\
    waits_ok c 0 (calls w) ds /\
    trace w' =
      (bodyCloses c (attempts (calls w) (S (List.length ds)))
         ++ rev (loopTrace c (searchRequest c (baseURL c ++ "/search") body) (calls w) ds)
         ++ trace w)%list /\
    lcg w' = Nat.iter (backoffWaits c (calls w) (List.length ds)) lcg_next (lcg w) /\
    defers w' = defers w.
Proof.
  intros Hrange Hkey Hm Hurl.
  destruct (Search_run P c req w Hrange)
    as (r & w' & t & Hall & Hle & Hd & Ht & _ & _ & _ & Hs & Hw & _ & _ & _ & _ & Hpos).
  specialize (Hpos Hkey (ex_intro _ body Hm) Hurl).
  pose proof (Hall _ (Nat.lt_succ_diag_r _)) as Hrun.
  unfold Search in Hrun. apply String.eqb_neq in Hkey. rewrite Hkey, Hm in Hrun.
  unfold frame in Hrun.
  destruct (searchLoop P (S (Z.to_nat (maxRetries c))) c (baseURL c ++ "/search") body 0
              (mkWorld (lcg w) (calls w) [] (trace w))) as [o w1] eqn:Hloop.
  assert (Ho : o = Return r) by exact (f_equal fst Hrun).
  assert (Hw' : w' = mkWorld (lcg w1) (calls w1) (defers w)
                       (rev (map EvClose (defers w1)) ++ trace w1))
    by exact (eq_sym (f_equal snd Hrun)).
  subst o.
  destruct (searchLoop_trace P c _ body Hurl _ _ _ _ _ Hloop) as (ds & Htr & Hl).
  destruct (searchLoop_events P c _ body Hurl _ _ _ _ _ Hloop)
    as (_ & t1 & Ht1 & _ & _ & _ & Hdf & _).
  cbn [calls trace lcg defers] in *.
  assert (Et : t = rev (loopTrace c (searchRequest c (baseURL c ++ "/search") body)
                          (calls w) ds)).
  { apply (app_inv_tail (trace w)).
    apply (app_inv_head (bodyCloses c (attempts (calls w) (calls w' - calls w)))).
    rewrite <- Ht, Hw'. cbn [trace calls].
    rewrite Htr, Hdf, app_nil_r. unfold bodyCloses. rewrite map_rev, rev_involutive.
    reflexivity. }
  assert (Ewaits : waits t = ds).
  { rewrite Et. unfold waits. rewrite filter_rev, map_rev, rev_involutive.
    apply waits_loopTrace. }
  assert (Hlen : (calls w' - calls w = S (List.length ds))%nat).
  { rewrite <- Ewaits, length_waits, Hs. lia. }
  exists r, w', ds. split; [exact Hall|]. split; [lia|].
  split; [rewrite <- Ewaits; exact Hw|].
  split; [rewrite Ht, Et, Hlen; reflexivity|].
  split; [rewrite Hw'; exact Hl|exact Hd].
Qed.

(** X25 at the package's retry test: three attempts, two waits, three
    closes. *)
Lemma Search_trace_witness :
  let c := testClient net_flaky in
  exists body,
    (0 <= maxRetries c <= Int64.max_int /\ apiKey c <> EmptyString /\
     json_Marshal_Search refPlatform exampleSearch = Ok body) /\
    exists r w' ds,
      (forall fuel, (Z.to_nat (maxRetries c) < fuel)%nat ->
                    Search refPlatform fuel c exampleSearch world0 = (Return r, w')) /\
      calls w' = (calls world0 + S (List.length ds))%nat /\
      waits_ok c 0 (calls world0) ds /\
      trace w' =
        (bodyCloses c (attempts (calls world0) (S (List.length ds)))
           ++ rev (loopTrace c (searchRequest c (baseURL c ++ "/search") body)
                     (calls world0) ds)
           ++ trace world0)%list /\
      lcg w' = Nat.iter (backoffWaits c (calls world0) (List.length ds)) lcg_next
                        (lcg world0) /\
      defers w' = defers world0.
Proof.
  intros c.
  assert (H : 0 <= maxRetries c <= Int64.max_int) by (vm_compute; split; discriminate).
  assert (Hkey : apiKey c <> EmptyString) by discriminate.
  eexists. split; [split; [exact H|split; [exact Hkey|reflexivity]]|].
  exact (Search_trace refPlatform c exampleSearch world0 _ H Hkey eq_refl eq_refl).
Defined.
